(** * MasPhD: realtime segment pipeline, shallow embedding and properties

    The Python sources are embedded as Rocq functions.  Python exceptions are
    an explicit result type, dictionaries are stdpp finite maps, minutes are
    exact rationals, and wall-clock instants are integer microseconds. *)

From Stdlib Require Import ZArith QArith Lia Lqa Bool List Ascii String.
From stdpp Require Import base option list gmap strings sorting.

Open Scope string_scope.
Open Scope Z_scope.

(** ** Exceptions *)

Inductive exn : Type :=
| ValueError
| OverflowError
| TypeError
| OperationalError
| IntegrityError
| KeyError
| AttributeError
| LoadError.

Inductive res (A : Type) : Type :=
| Ok (a : A)
| Raise (e : exn).

Arguments Ok {A} a.
Arguments Raise {A} e.

Definition rbind {A B : Type} (r : res A) (k : A -> res B) : res B :=
  match r with
  | Ok a => k a
  | Raise e => Raise e
  end.

#[global] Instance res_ret : MRet res := @Ok.
#[global] Instance res_bind : MBind res := fun A B k r => rbind r k.

(** [try: body except ValueError: handler] *)
Definition except_ValueError {A : Type} (body handler : res A) : res A :=
  match body with
  | Raise ValueError => handler
  | other => other
  end.

Definition is_ok {A : Type} (r : res A) : bool :=
  match r with Ok _ => true | Raise _ => false end.

(** ** Python string primitives

    A [string] is read as a sequence of code points below 256. *)

Module Py.

Definition code (c : ascii) : Z := Z.of_N (N_of_ascii c).

Definition is_digit (c : ascii) : bool := (48 <=? code c) && (code c <=? 57).

Definition digit (c : ascii) : Z := code c - 48.

(** Characters removed by [str.strip()]. *)
Definition isspace (c : ascii) : bool :=
  let n := code c in
  ((9 <=? n) && (n <=? 13)) || ((28 <=? n) && (n <=? 32))
  || (n =? 133) || (n =? 160).

(** Characters skipped by [int()] around a literal. *)
Definition int_space (c : ascii) : bool :=
  let n := code c in
  ((9 <=? n) && (n <=? 13)) || (n =? 32) || (n =? 133) || (n =? 160).

Fixpoint lstrip (s : string) : string :=
  match s with
  | String c s' => if isspace c then lstrip s' else s
  | EmptyString => EmptyString
  end.

Fixpoint rstrip (s : string) : string :=
  match s with
  | String c s' =>
      match rstrip s' with
      | EmptyString => if isspace c then EmptyString else String c EmptyString
      | r => String c r
      end
  | EmptyString => EmptyString
  end.

Definition strip (s : string) : string := rstrip (lstrip s).

(** [s.split(sep)] for a one-character separator. *)
Fixpoint split (sep : ascii) (s : string) : list string :=
  match s with
  | EmptyString => [EmptyString]
  | String c s' =>
      if Ascii.eqb c sep then EmptyString :: split sep s'
      else match split sep s' with
           | p :: ps => String c p :: ps
           | [] => [String c EmptyString]
           end
  end.

Fixpoint all_chars (p : ascii -> bool) (s : string) : bool :=
  match s with
  | String c s' => p c && all_chars p s'
  | EmptyString => true
  end.

Fixpoint skip_int_space (s : string) : string :=
  match s with
  | String c s' => if int_space c then skip_int_space s' else s
  | EmptyString => EmptyString
  end.

(** Digits of a literal after its first digit: more digits, each optionally
    preceded by a single underscore.  Returns value, digit count and rest. *)
Fixpoint int_digits (s : string) (acc : Z) (n : nat)
  : option (Z * nat * string) :=
  match s with
  | String c s' =>
      if is_digit c then int_digits s' (10 * acc + digit c) (S n)
      else if Ascii.eqb c "_" then
        match s' with
        | String d s'' =>
            if is_digit d then int_digits s'' (10 * acc + digit d) (S n)
            else None
        | EmptyString => None
        end
      else Some (acc, n, s)
  | EmptyString => Some (acc, n, s)
  end.

(** sys.get_int_max_str_digits() default. *)
Definition int_max_str_digits : nat := 4300.

(** [int(s)] for a [str] argument, base 10. *)
Definition int (s : string) : res Z :=
  let s1 := skip_int_space s in
  let '(neg, s2) :=
    match s1 with
    | String c r =>
        if Ascii.eqb c "-" then (true, r)
        else if Ascii.eqb c "+" then (false, r)
        else (false, s1)
    | EmptyString => (false, s1)
    end in
  match s2 with
  | String c r =>
      if is_digit c then
        match int_digits r (digit c) 1 with
        | Some (v, n, rest) =>
            if all_chars int_space rest then
              if (int_max_str_digits <? n)%nat then Raise ValueError
              else Ok (if neg then - v else v)
            else Raise ValueError
        | None => Raise ValueError
        end
      else Raise ValueError
  | EmptyString => Raise ValueError
  end.

Definition INT_MIN : Z := -2147483648.
Definition INT_MAX : Z := 2147483647.

(** Conversion of an argument declared as a C [int]. *)
Definition as_c_int (z : Z) : res Z :=
  if (INT_MIN <=? z) && (z <=? INT_MAX) then Ok z else Raise OverflowError.

End Py.

(** ** datetime.time, datetime.date, datetime.datetime *)

Record time : Type := mk_time { hour : Z; minute : Z; second : Z }.

(** [datetime.time(hour=, minute=, second=)] *)
Definition time_new (h m s : Z) : res time :=
  h' ← Py.as_c_int h;
  m' ← Py.as_c_int m;
  s' ← Py.as_c_int s;
  if (0 <=? h') && (h' <=? 23) && (0 <=? m') && (m' <=? 59)
     && (0 <=? s') && (s' <=? 59)
  then Ok (mk_time h' m' s')
  else Raise ValueError.

(** ** time_utils.parse_hms *)

Definition parse_hms (value : option string) : res (option time) :=
  match value with
  | None => Ok None
  | Some v =>
      if String.eqb v "" then Ok None
      else
        let s := Py.strip v in
        if String.eqb s "" then Ok None
        else
          let parts := Py.split ":" s in
          except_ValueError
            (match parts with
             | [hh; mm] =>
                 h ← Py.int hh;
                 m ← Py.int mm;
                 t ← time_new h m 0;
                 Ok (Some t)
             | [hh; mm; ss] =>
                 h ← Py.int hh;
                 m ← Py.int mm;
                 sec ← Py.int ss;
                 t ← time_new h m sec;
                 Ok (Some t)
             | _ => Ok None
             end)
            (Ok None)
  end.

(** ** Calendar dates (proleptic Gregorian, as datetime.date) *)

Record date : Type := mk_date { year : Z; month : Z; day : Z }.

Definition MAXYEAR : Z := 9999.

Definition is_leap (y : Z) : bool :=
  (y mod 4 =? 0) && (negb (y mod 100 =? 0) || (y mod 400 =? 0)).

Definition days_in_month (y m : Z) : Z :=
  if m =? 2 then (if is_leap y then 29 else 28)
  else if (m =? 4) || (m =? 6) || (m =? 9) || (m =? 11) then 30
  else 31.

Definition days_before_year (y : Z) : Z :=
  let p := y - 1 in p * 365 + p / 4 - p / 100 + p / 400.

Definition days_before_month (y m : Z) : Z :=
  nth (Z.to_nat m) [0; 0; 31; 59; 90; 120; 151; 181; 212; 243; 273; 304; 334] 0
  + (if (2 <? m) && is_leap y then 1 else 0).

Definition toordinal (d : date) : Z :=
  days_before_year (year d) + days_before_month (year d) (month d) + day d.

(** [datetime.date(y, m, d)] for values already within C [int]. *)
Definition date_new (y m d : Z) : res date :=
  if (1 <=? y) && (y <=? MAXYEAR) && (1 <=? m) && (m <=? 12)
     && (1 <=? d) && (d <=? days_in_month y m)
  then Ok (mk_date y m d)
  else Raise ValueError.

Module Strptime.

Definition between (lo hi c : ascii) : bool :=
  (Py.code lo <=? Py.code c) && (Py.code c <=? Py.code hi).

(** Directive %m: the alternatives [1[0-2]|0[1-9]|[1-9]], in that order. *)
Definition month_alts (s : string) : list (Z * string) :=
  match s with
  | String a r =>
      (match r with
       | String b r' =>
           (if Ascii.eqb a "1" && between "0" "2" b
            then [(10 + Py.digit b, r')] else [])
           ++ (if Ascii.eqb a "0" && between "1" "9" b
               then [(Py.digit b, r')] else [])
       | EmptyString => []
       end)
      ++ (if between "1" "9" a then [(Py.digit a, r)] else [])
  | EmptyString => []
  end.

(** Directive %d: [3[0-1]|[1-2]\d|0[1-9]|[1-9]| [1-9]], in that order. *)
Definition day_alts (s : string) : list (Z * string) :=
  match s with
  | String a r =>
      (match r with
       | String b r' =>
           (if Ascii.eqb a "3" && between "0" "1" b
            then [(30 + Py.digit b, r')] else [])
           ++ (if between "1" "2" a && Py.is_digit b
               then [(10 * Py.digit a + Py.digit b, r')] else [])
           ++ (if Ascii.eqb a "0" && between "1" "9" b
               then [(Py.digit b, r')] else [])
       | EmptyString => []
       end)
      ++ (if between "1" "9" a then [(Py.digit a, r)] else [])
      ++ (match r with
          | String b r' =>
              if Ascii.eqb a " " && between "1" "9" b
              then [(Py.digit b, r')] else []
          | EmptyString => []
          end)
  | EmptyString => []
  end.

(** First way to match [-%d] after a month alternative. *)
Fixpoint first_month_day (ms : list (Z * string)) : option (Z * Z * string) :=
  match ms with
  | [] => None
  | (m, r) :: ms' =>
      match r with
      | String c r' =>
          if Ascii.eqb c "-" then
            match day_alts r' with
            | (d, rest) :: _ => Some (m, d, rest)
            | [] => first_month_day ms'
            end
          else first_month_day ms'
      | EmptyString => first_month_day ms'
      end
  end.

(** [datetime.strptime(s, "%Y-%m-%d").date()] *)
Definition ymd (s : string) : res date :=
  match s with
  | String y1 (String y2 (String y3 (String y4 (String dash r)))) =>
      if Py.is_digit y1 && Py.is_digit y2 && Py.is_digit y3 && Py.is_digit y4
         && Ascii.eqb dash "-"
      then
        match first_month_day (month_alts r) with
        | Some (m, d, rest) =>
            if String.eqb rest "" then
              date_new (1000 * Py.digit y1 + 100 * Py.digit y2
                        + 10 * Py.digit y3 + Py.digit y4) m d
            else Raise ValueError
        | None => Raise ValueError
        end
      else Raise ValueError
  | _ => Raise ValueError
  end.

End Strptime.

(** ** Timestamps

    A [datetime] is its wall-clock reading in microseconds since
    0001-01-01T00:00:00 together with an optional tzinfo.  A tzinfo object is
    identified by [tz_key]; [tz_utcoffset] gives its offset in microseconds at
    a wall-clock reading. *)

Record tzinfo : Type := mk_tz { tz_key : string; tz_utcoffset : Z -> Z }.

Record datetime : Type := mk_dt { wall : Z; dt_tz : option tzinfo }.

Definition timedelta : Type := Z.

Definition US_PER_SECOND : Z := 1000000.
Definition US_PER_MINUTE : Z := 60 * US_PER_SECOND.
Definition US_PER_HOUR : Z := 60 * US_PER_MINUTE.
Definition US_PER_DAY : Z := 24 * US_PER_HOUR.

Definition timedelta_minutes (n : Z) : timedelta := n * US_PER_MINUTE.
Definition timedelta_hours (n : Z) : timedelta := n * US_PER_HOUR.
Definition timedelta_days (n : Z) : timedelta := n * US_PER_DAY.

(** datetime.max is 9999-12-31T23:59:59.999999, ordinal 3652059. *)
Definition MAX_WALL : Z := 3652059 * US_PER_DAY - 1.

Definition same_tz (a b : tzinfo) : bool := String.eqb (tz_key a) (tz_key b).

(** [datetime.combine(d, t)] with a naive [t]. *)
Definition datetime_combine (d : date) (t : time) : datetime :=
  mk_dt ((toordinal d - 1) * US_PER_DAY + hour t * US_PER_HOUR
         + minute t * US_PER_MINUTE + second t * US_PER_SECOND) None.

(** [dt.replace(tzinfo=tz)] *)
Definition replace_tzinfo (dt : datetime) (tz : option tzinfo) : datetime :=
  mk_dt (wall dt) tz.

(** [dt + td]; a result outside the supported years is an OverflowError. *)
Definition dt_add (dt : datetime) (td : timedelta) : res datetime :=
  let w := wall dt + td in
  if (0 <=? w) && (w <=? MAX_WALL) then Ok (mk_dt w (dt_tz dt))
  else Raise OverflowError.

(** The two readings that a comparison or a subtraction of [a] and [b] uses:
    wall clocks when both are naive or share their tzinfo, UTC readings when
    the tzinfos differ, and a TypeError when exactly one is aware. *)
Definition dt_operands (a b : datetime) : res (Z * Z) :=
  match dt_tz a, dt_tz b with
  | None, None => Ok (wall a, wall b)
  | Some ta, Some tb =>
      if same_tz ta tb then Ok (wall a, wall b)
      else Ok (wall a - tz_utcoffset ta (wall a),
               wall b - tz_utcoffset tb (wall b))
  | _, _ => Raise TypeError
  end.

Definition dt_lt (a b : datetime) : res bool :=
  p ← dt_operands a b; Ok (fst p <? snd p).

Definition dt_le (a b : datetime) : res bool :=
  p ← dt_operands a b; Ok (fst p <=? snd p).

(** [a - b] as a timedelta. *)
Definition dt_sub (a b : datetime) : res timedelta :=
  p ← dt_operands a b; Ok (fst p - snd p).

Definition is_some {A : Type} (o : option A) : bool :=
  match o with Some _ => true | None => false end.

(** The two "ensure awareness matches" assignments: [x] takes the tzinfo of
    [ref] when [ref] is aware and [x] naive, and loses its own when [ref] is
    naive. *)
Definition match_awareness (ref x : datetime) : datetime :=
  let x1 := if is_some (dt_tz ref) && negb (is_some (dt_tz x))
            then replace_tzinfo x (dt_tz ref) else x in
  if negb (is_some (dt_tz ref)) && is_some (dt_tz x1)
  then replace_tzinfo x1 None else x1.

(** ** time_utils.combine_date_time *)

Definition combine_date_time (ssd : string) (t : option string)
    (tz : option tzinfo) : res (option datetime) :=
  parsed ← parse_hms t;
  match parsed with
  | None => Ok None
  | Some tm =>
      match Strptime.ymd ssd with
      | Raise ValueError => Ok None
      | Raise e => Raise e
      | Ok d =>
          let dt := datetime_combine d tm in
          Ok (Some (if is_some tz then replace_tzinfo dt tz else dt))
      end
  end.

(** ** time_utils.combine_date_time_smart

    [rollover_threshold] is [timedelta(hours=rollover_threshold_hours)]. *)

Definition default_rollover_threshold : timedelta := timedelta_hours 2.

Definition combine_date_time_smart (ssd : string) (t : option string)
    (base_dt : option datetime) (tz : option tzinfo)
    (rollover_threshold : timedelta) : res (option datetime) :=
  r ← combine_date_time ssd t tz;
  match r with
  | None => Ok None
  | Some dt =>
      match base_dt with
      | None => Ok (Some dt)
      | Some base =>
          let dt := match_awareness base dt in
          lt ← dt_lt dt base;
          if lt : bool then
            gap ← dt_sub base dt;
            if rollover_threshold <? gap then
              dt' ← dt_add dt (timedelta_days 1); Ok (Some dt')
            else Ok (Some dt)
          else Ok (Some dt)
      end
  end.

(** ** time_utils.diff_minutes_wrap *)

Definition Qltb (a b : Q) : bool := negb (Qle_bool b a).

(** [td.total_seconds() / 60.0] *)
Definition minutes_of (td : timedelta) : Q := Qmake td 60000000.

Definition wrap_minutes (raw : Q) : Q :=
  let m1 := if Qltb (1200 # 1) raw then (raw - (1440 # 1))%Q else raw in
  if Qltb m1 (- (1200 # 1)) then (m1 + (1440 # 1))%Q else m1.

Definition diff_minutes_wrap (planned actual : option datetime)
  : res (option Q) :=
  match planned, actual with
  | Some p, Some a =>
      let a := match_awareness p a in
      td ← dt_sub a p;
      Ok (Some (wrap_minutes (minutes_of td)))
  | _, _ => Ok None
  end.

Definition UTC : tzinfo := mk_tz "UTC" (fun _ => 0).

(** ** Python dictionaries of optional strings

    A forecast, schedule or HSP row is a [dict] whose values are strings or
    [None]. *)

Abbreviation row := (gmap string (option string)).

(** Truth value of a string-or-None. *)
Definition truthy (v : option string) : bool :=
  match v with
  | Some s => negb (String.eqb s "")
  | None => false
  end.

(** [d.get(k)] *)
Definition dict_get (d : row) (k : string) : option string :=
  match d !! k with
  | Some v => v
  | None => None
  end.

(** Truth value of a dict-or-None: present and non-empty. *)
Definition row_truthy (d : option row) : bool :=
  match d with
  | Some r => negb (bool_decide (r = ∅))
  | None => false
  end.

(** [a or b] on strings-or-None *)
Definition py_or (a b : option string) : option string :=
  if truthy a then a else b.

(** ** station_pairs.STATION_PAIRS *)

Definition STATION_PAIRS : list (string * string) :=
  [ ("WEYMTH", "UPWEY");
    ("UPWEY", "DRCHS");
    ("DRCHS", "WOOL");
    ("WOOL", "WARHAM");
    ("WARHAM", "HMWTHY");
    ("HMWTHY", "POOLE");
    ("POOLE", "PSTONE");
    ("PSTONE", "BRANKSM");
    ("BRANKSM", "BOMO");
    ("BOMO", "POKSDWN");
    ("POKSDWN", "CHRISTC");
    ("CHRISTC", "NMILTON");
    ("NMILTON", "BKNHRST");
    ("BKNHRST", "SOTON");
    ("SOTON", "SOTPKWY");
    ("SOTPKWY", "WNCHSTR");
    ("WNCHSTR", "BSNGSTK");
    ("BSNGSTK", "CLPHMJM");
    ("CLPHMJM", "WATRLMN") ].

(** ** extract_segments.py *)

Fixpoint _first_non_empty (loc : row) (keys : list string) : option string :=
  match keys with
  | [] => None
  | k :: ks =>
      let v := dict_get loc k in
      if truthy v then v else _first_non_empty loc ks
  end.

Definition _build_tpl_index (forecasts : list row) : gmap string row :=
  fold_left
    (fun by_tpl r =>
       match dict_get r "tpl" with
       | Some tpl => if truthy (Some tpl) then <[tpl := r]> by_tpl else by_tpl
       | None => by_tpl
       end)
    forecasts ∅.

Definition _pick_planned_arr (loc : row) : option string :=
  _first_non_empty loc ["pta"; "wta"].

Definition _pick_confirmed_actual_dep (loc : row) : option string :=
  _first_non_empty loc ["atd"; "dep_at"].

Definition _pick_estimated_dep (loc : row) : option string :=
  _first_non_empty loc ["etd"; "dep_et"].

Definition _pick_working_dep (loc : row) : option string :=
  _first_non_empty loc ["wtd"].

(** The module binds this name twice; the later binding is the one in force. *)
Definition _pick_planned_dep (loc : row) : option string :=
  _first_non_empty loc ["ptd"].

Definition _schedule_endpoints (schedules : list row)
  : option string * option string :=
  fold_left
    (fun (od : option string * option string) r =>
       let t := dict_get r "type" in
       let tpl := dict_get r "tpl" in
       if negb (truthy tpl) || negb (truthy t) then od
       else if bool_decide (t = Some "OR") then (tpl, snd od)
       else if bool_decide (t = Some "DT") then (fst od, tpl)
       else od)
    schedules (None, None).

Definition _rid_matches_station_pairs_direction (schedules : list row)
  : option bool :=
  match STATION_PAIRS with
  | [] => None
  | p0 :: _ =>
      let required_origin := fst p0 in
      let required_dest := snd (List.last STATION_PAIRS p0) in
      let '(origin, dest) := _schedule_endpoints schedules in
      match origin, dest with
      | Some o, Some d =>
          Some (String.eqb o required_origin && String.eqb d required_dest)
      | _, _ => None
      end
  end.

(** Minutes of the day, [hour * 60 + minute + second / 60.0]. *)
Definition minutes_of_day (t : time) : Q :=
  (inject_Z (hour t * 60 + minute t) + Qmake (second t) 60)%Q.

Fixpoint _is_reverse_by_vote_loop (by_tpl : gmap string row)
    (pairs : list (string * string)) (forward_votes reverse_votes : Z)
  : res bool :=
  match pairs with
  | [] =>
      Ok (if 2 <=? forward_votes + reverse_votes
          then forward_votes <? reverse_votes else false)
  | (a_code, b_code) :: rest =>
      let a := by_tpl !! a_code in
      let b := by_tpl !! b_code in
      match a, b with
      | Some ra, Some rb =>
          if negb (row_truthy a) || negb (row_truthy b)
          then _is_reverse_by_vote_loop by_tpl rest forward_votes reverse_votes
          else
            let dep_s := _first_non_empty ra ["ptd"; "wtd"; "dep_et"; "dep_at"] in
            let arr_s :=
              _first_non_empty rb ["pta"; "wta"; "arr_et"; "arr_wet"; "arr_at"] in
            dep_t ← parse_hms dep_s;
            arr_t ← parse_hms arr_s;
            match dep_t, arr_t with
            | Some dt, Some at_ =>
                let delta := (minutes_of_day at_ - minutes_of_day dt)%Q in
                let delta := if Qltb delta (- (720 # 1))
                             then (delta + (1440 # 1))%Q else delta in
                if Qltb delta 0 then
                  if Qle_bool delta (- (10 # 1)) then Ok true
                  else _is_reverse_by_vote_loop by_tpl rest forward_votes
                         (reverse_votes + 1)
                else _is_reverse_by_vote_loop by_tpl rest (forward_votes + 1)
                       reverse_votes
            | _, _ =>
                _is_reverse_by_vote_loop by_tpl rest forward_votes reverse_votes
            end
      | _, _ =>
          _is_reverse_by_vote_loop by_tpl rest forward_votes reverse_votes
      end
  end.

Definition _is_reverse_by_vote (by_tpl : gmap string row) : res bool :=
  _is_reverse_by_vote_loop by_tpl STATION_PAIRS 0 0.

(** One extracted record.  [planned_arr_second] and
    [_planned_dep_dt_for_filter] are the keys that later stages add to the
    dict; a missing key reads as [None]. *)
Module Seg.

Record segment : Type := mk_segment {
  rid : option string;
  ssd : option string;
  first : string;
  second : string;
  planned_dep : option string;
  planned_arr : option string;
  dep_time_for_prediction : option string;
  dep_time_kind : string;
  has_actual_dep : bool;
  actual_dep_confirmed : option string;
  departure_delay_min : option Q;
  arrival_delay_min : option Q;
  dwell_delay_min : option Q;
  loc_first : row;
  loc_second : row;
  planned_arr_second : option string;
  _planned_dep_dt_for_filter : option datetime
}.

End Seg.

Abbreviation segment := Seg.segment.

(** [combine_date_time_smart(ssd, t, base_dt=base, tz=tz) if guard else None] *)
Definition combine_if (guard : bool) (ssd_ : option string) (t : option string)
    (base : option datetime) (tz : option tzinfo) : res (option datetime) :=
  match ssd_ with
  | Some d =>
      if guard then combine_date_time_smart d t base tz default_rollover_threshold
      else Ok None
  | None => Ok None
  end.

(** Body of the loop over STATION_PAIRS for a pair whose two locations are
    present. *)
Definition build_record (rid_ ssd_ : option string) (tz : option tzinfo)
    (first_station : option string) (a_code b_code : string)
    (loc_a loc_b : row) : res segment :=
  let planned_dep_ := _first_non_empty loc_a ["ptd"; "wtd"] in
  let actual_dep_confirmed_ := _pick_confirmed_actual_dep loc_a in
  let has_actual_dep_ := is_some actual_dep_confirmed_ in
  let dep_estimate := _pick_estimated_dep loc_a in
  let dep_working := _pick_working_dep loc_a in
  let '(dep_time_for_prediction_, dep_time_kind_) :=
    if has_actual_dep_ then (actual_dep_confirmed_, "actual")
    else if truthy dep_estimate then (dep_estimate, "estimate")
    else if truthy dep_working then (dep_working, "estimate")
    else
      let p := _pick_planned_dep loc_a in
      (p, if truthy p then "estimate" else "missing") in
  planned_dep_dt ←
    combine_if (truthy ssd_ && truthy planned_dep_) ssd_ planned_dep_ None tz;
  dep_pred_dt ←
    combine_if (truthy ssd_ && truthy dep_time_for_prediction_
                && is_some planned_dep_dt)
      ssd_ dep_time_for_prediction_ planned_dep_dt tz;
  departure_delay_min_ ← diff_minutes_wrap planned_dep_dt dep_pred_dt;
  let planned_arr_a := _pick_planned_arr loc_a in
  let actual_arr_confirmed := _first_non_empty loc_a ["ata"; "arr_at"] in
  let arr_estimate := _first_non_empty loc_a ["arr_et"; "arr_wet"] in
  let arr_time_for_dwell := py_or actual_arr_confirmed arr_estimate in
  planned_arr_a_dt ←
    combine_if (truthy ssd_ && truthy planned_arr_a && is_some planned_dep_dt)
      ssd_ planned_arr_a planned_dep_dt tz;
  arr_dwell_dt ←
    combine_if (truthy ssd_ && truthy arr_time_for_dwell
                && is_some planned_dep_dt)
      ssd_ arr_time_for_dwell planned_dep_dt tz;
  arrival_delay_min_ ← diff_minutes_wrap planned_arr_a_dt arr_dwell_dt;
  let dwell_delay_min_ :=
    if bool_decide (Some a_code = first_station) then departure_delay_min_
    else match departure_delay_min_, arrival_delay_min_ with
         | Some d, Some a => Some (d - a)%Q
         | _, _ => None
         end in
  Ok {| Seg.rid := rid_; Seg.ssd := ssd_; Seg.first := a_code; Seg.second := b_code;
        Seg.planned_dep := planned_dep_; Seg.planned_arr := planned_arr_a;
        Seg.dep_time_for_prediction := dep_time_for_prediction_;
        Seg.dep_time_kind := dep_time_kind_;
        Seg.has_actual_dep := has_actual_dep_;
        Seg.actual_dep_confirmed := actual_dep_confirmed_;
        Seg.departure_delay_min := departure_delay_min_;
        Seg.arrival_delay_min := arrival_delay_min_;
        Seg.dwell_delay_min := dwell_delay_min_;
        Seg.loc_first := loc_a; Seg.loc_second := loc_b;
        Seg.planned_arr_second := None;
        Seg._planned_dep_dt_for_filter := None |}.

Fixpoint extract_loop (rid_ ssd_ : option string) (tz : option tzinfo)
    (first_station : option string) (by_tpl : gmap string row)
    (pairs : list (string * string)) : res (list segment) :=
  match pairs with
  | [] => Ok []
  | (a_code, b_code) :: rest =>
      let loc_a := by_tpl !! a_code in
      let loc_b := by_tpl !! b_code in
      match loc_a, loc_b with
      | Some la, Some lb =>
          if negb (row_truthy loc_a) || negb (row_truthy loc_b)
          then extract_loop rid_ ssd_ tz first_station by_tpl rest
          else
            s ← build_record rid_ ssd_ tz first_station a_code b_code la lb;
            out ← extract_loop rid_ ssd_ tz first_station by_tpl rest;
            Ok (s :: out)
      | _, _ => extract_loop rid_ ssd_ tz first_station by_tpl rest
      end
  end.

Definition extract_segments (forecasts : list row)
    (schedules : option (list row)) (tz : option tzinfo)
    (drop_wrong_direction : bool) : res (list segment) :=
  match forecasts with
  | [] => Ok []
  | f0 :: _ =>
      let rid_ := dict_get f0 "rid" in
      let ssd_ := dict_get f0 "ssd" in
      let by_tpl := _build_tpl_index forecasts in
      rejected ←
        (if drop_wrong_direction then
           match _rid_matches_station_pairs_direction
                   (default [] schedules) with
           | Some false => Ok true
           | None => _is_reverse_by_vote by_tpl
           | Some true => Ok false
           end
         else Ok false);
      if rejected : bool then Ok []
      else
        let first_station :=
          match STATION_PAIRS with
          | p0 :: _ => Some (fst p0)
          | [] => None
          end in
        extract_loop rid_ ssd_ tz first_station by_tpl STATION_PAIRS
  end.

(** ** realtime_filter.py *)

Definition set__planned_dep_dt_for_filter (v : option datetime) (s : segment)
  : segment :=
  {| Seg.rid := Seg.rid s; Seg.ssd := Seg.ssd s; Seg.first := Seg.first s;
     Seg.second := Seg.second s; Seg.planned_dep := Seg.planned_dep s;
     Seg.planned_arr := Seg.planned_arr s;
     Seg.dep_time_for_prediction := Seg.dep_time_for_prediction s;
     Seg.dep_time_kind := Seg.dep_time_kind s;
     Seg.has_actual_dep := Seg.has_actual_dep s;
     Seg.actual_dep_confirmed := Seg.actual_dep_confirmed s;
     Seg.departure_delay_min := Seg.departure_delay_min s;
     Seg.arrival_delay_min := Seg.arrival_delay_min s;
     Seg.dwell_delay_min := Seg.dwell_delay_min s;
     Seg.loc_first := Seg.loc_first s; Seg.loc_second := Seg.loc_second s;
     Seg.planned_arr_second := Seg.planned_arr_second s;
     Seg._planned_dep_dt_for_filter := v |}.

Definition set_planned_arr_second (v : option string) (s : segment)
  : segment :=
  {| Seg.rid := Seg.rid s; Seg.ssd := Seg.ssd s; Seg.first := Seg.first s;
     Seg.second := Seg.second s; Seg.planned_dep := Seg.planned_dep s;
     Seg.planned_arr := Seg.planned_arr s;
     Seg.dep_time_for_prediction := Seg.dep_time_for_prediction s;
     Seg.dep_time_kind := Seg.dep_time_kind s;
     Seg.has_actual_dep := Seg.has_actual_dep s;
     Seg.actual_dep_confirmed := Seg.actual_dep_confirmed s;
     Seg.departure_delay_min := Seg.departure_delay_min s;
     Seg.arrival_delay_min := Seg.arrival_delay_min s;
     Seg.dwell_delay_min := Seg.dwell_delay_min s;
     Seg.loc_first := Seg.loc_first s; Seg.loc_second := Seg.loc_second s;
     Seg.planned_arr_second := v;
     Seg._planned_dep_dt_for_filter := Seg._planned_dep_dt_for_filter s |}.

Definition _to_aware (dt : datetime) (tz : option tzinfo) : datetime :=
  match tz with
  | None => dt
  | Some _ => if is_some (dt_tz dt) then dt else replace_tzinfo dt tz
  end.

Definition _planned_dep_dt (seg : segment) (tz : option tzinfo)
  : res (option datetime) :=
  let t := Seg.planned_dep seg in
  match Seg.ssd seg with
  | Some d =>
      if negb (truthy (Some d)) || negb (truthy t) then Ok None
      else combine_date_time_smart d t None tz default_rollover_threshold
  | None => Ok None
  end.

Definition _planned_arr_dt (seg : segment) (tz : option tzinfo)
  : res (option datetime) :=
  let t := Seg.planned_arr_second seg in
  let base := Seg._planned_dep_dt_for_filter seg in
  match Seg.ssd seg with
  | Some d =>
      if negb (truthy (Some d)) || negb (truthy t) then Ok None
      else combine_date_time_smart d t base tz default_rollover_threshold
  | None => Ok None
  end.

(** [a >= b] *)
Definition dt_ge (a b : datetime) : res bool :=
  p ← dt_operands a b; Ok (snd p <=? fst p).

Fixpoint near_departure_loop (segments : list segment) (tz : option tzinfo)
    (win_start win_end : datetime) : res (list segment) :=
  match segments with
  | [] => Ok []
  | seg :: rest =>
      dep ← _planned_dep_dt seg tz;
      match dep with
      | None => near_departure_loop rest tz win_start win_end
      | Some dep_dt =>
          let dep_dt := _to_aware dep_dt tz in
          c1 ← dt_le win_start dep_dt;
          c2 ← (if c1 : bool then dt_le dep_dt win_end else Ok false);
          out ← near_departure_loop rest tz win_start win_end;
          Ok (if c2 : bool then seg :: out else out)
      end
  end.

Fixpoint in_progress_loop (segments : list segment) (tz : option tzinfo)
    (dep_limit arr_limit : datetime) : res (list segment) :=
  match segments with
  | [] => Ok []
  | seg :: rest =>
      dep ← _planned_dep_dt seg tz;
      match dep with
      | None => in_progress_loop rest tz dep_limit arr_limit
      | Some dep_dt =>
          let dep_dt := _to_aware dep_dt tz in
          let seg1 := set__planned_dep_dt_for_filter (Some dep_dt) seg in
          arr ← _planned_arr_dt seg1 tz;
          match arr with
          | None => in_progress_loop rest tz dep_limit arr_limit
          | Some arr_dt =>
              let arr_dt := _to_aware arr_dt tz in
              let seg2 := set__planned_dep_dt_for_filter None seg1 in
              c1 ← dt_le dep_dt dep_limit;
              c2 ← (if c1 : bool then dt_ge arr_dt arr_limit else Ok false);
              out ← in_progress_loop rest tz dep_limit arr_limit;
              Ok (if c2 : bool then seg2 :: out else out)
          end
      end
  end.

Definition filter_segments_by_now (segments : list segment) (now : datetime)
    (tz : option tzinfo) (mode : string) (before_mins after_mins : Z)
    (dep_grace_after_now_mins arr_grace_before_now_mins : Z)
  : res (list segment) :=
  let now := _to_aware now tz in
  if negb (String.eqb mode "near_departure" || String.eqb mode "in_progress")
  then Raise ValueError
  else if String.eqb mode "near_departure" then
    win_start ← dt_add now (- timedelta_minutes before_mins);
    win_end ← dt_add now (timedelta_minutes after_mins);
    near_departure_loop segments tz win_start win_end
  else
    dep_limit ← dt_add now (timedelta_minutes dep_grace_after_now_mins);
    arr_limit ← dt_add now (- timedelta_minutes arr_grace_before_now_mins);
    in_progress_loop segments tz dep_limit arr_limit.

(** ** recent_cache.py *)

Definition seg_id : Type :=
  option string * string * string * option string.

Record SegmentState : Type := mk_state {
  last_dep_time : option string;
  last_kind : string;
  actual_saved : bool;
  last_seen_order : Z
}.

Definition SegmentState_default : SegmentState := mk_state None "missing" false 0.

(** [_od] is an OrderedDict: an association list, least recently used
    first, with one entry per key. *)
Record RecentSegmentCache : Type := mk_cache {
  max_size : Z;
  _od : list (seg_id * SegmentState);
  _tick : Z
}.

Definition RecentSegmentCache_new (max_size_ : Z) : RecentSegmentCache :=
  mk_cache max_size_ [] 0.

(** Names that [hasattr] finds on an instance of the class as it is
    written: its fields and methods. *)
Definition RecentSegmentCache_attrs : list string :=
  ["max_size"; "__post_init__"; "_od"; "_tick"; "touch"; "mark_actual_saved";
   "__len__"].

Definition cache_hasattr (name : string) : bool :=
  bool_decide (name ∈ RecentSegmentCache_attrs).

Fixpoint od_get (od : list (seg_id * SegmentState)) (k : seg_id)
  : option SegmentState :=
  match od with
  | [] => None
  | (k', v) :: rest => if bool_decide (k' = k) then Some v else od_get rest k
  end.

Fixpoint od_remove (od : list (seg_id * SegmentState)) (k : seg_id)
  : list (seg_id * SegmentState) :=
  match od with
  | [] => []
  | (k', v) :: rest =>
      if bool_decide (k' = k) then od_remove rest k
      else (k', v) :: od_remove rest k
  end.

(** In-place replacement of the value stored under [k]. *)
Fixpoint od_update (od : list (seg_id * SegmentState)) (k : seg_id)
    (v : SegmentState) : list (seg_id * SegmentState) :=
  match od with
  | [] => []
  | (k', v') :: rest =>
      if bool_decide (k' = k) then (k', v) :: rest
      else (k', v') :: od_update rest k v
  end.

(** [while len(od) > max_size: od.popitem(last=False)] *)
Fixpoint evict (od : list (seg_id * SegmentState)) (max_size_ : Z)
  : res (list (seg_id * SegmentState)) :=
  match od with
  | [] => if max_size_ <? 0 then Raise KeyError else Ok []
  | _ :: rest =>
      if max_size_ <? Z.of_nat (List.length od) then evict rest max_size_
      else Ok od
  end.

Definition touch (c : RecentSegmentCache) (k : seg_id)
    (dep_time : option string) (kind : string) (has_actual : bool)
  : res (RecentSegmentCache * SegmentState) :=
  let tick := _tick c + 1 in
  let state := default SegmentState_default (od_get (_od c) k) in
  let state := mk_state dep_time kind (actual_saved state) tick in
  let state :=
    if has_actual && negb (String.eqb (last_kind state) "actual")
    then mk_state (last_dep_time state) "actual" (actual_saved state)
           (last_seen_order state)
    else state in
  od ← evict (od_remove (_od c) k ++ [(k, state)]) (max_size c);
  Ok (mk_cache (max_size c) od tick, state).

Definition mark_actual_saved (c : RecentSegmentCache) (k : seg_id)
  : RecentSegmentCache :=
  match od_get (_od c) k with
  | Some st =>
      mk_cache (max_size c)
        (od_update (_od c) k
           (mk_state (last_dep_time st) (last_kind st) true
              (last_seen_order st)))
        (_tick c)
  | None => c
  end.

Definition cache_len (c : RecentSegmentCache) : Z := Z.of_nat (List.length (_od c)).

(** ** The SQLite tables of dao/schema.py

    A stored value is NULL, an integer, a real or a text.  The [id] column is
    the rowid.  Column names are compared exactly as the schema spells
    them. *)

Inductive sqlval : Type :=
| SNull
| SInt (z : Z)
| SReal (q : Q)
| SText (s : string).

#[global] Instance Q_eq_dec : EqDecision Q.
Proof. solve_decision. Defined.

#[global] Instance sqlval_eq_dec : EqDecision sqlval.
Proof. solve_decision. Defined.

Inductive affinity : Type := AffInteger | AffReal | AffText.

Inductive default_expr : Type :=
| DefNull
| DefConst (v : sqlval)
| DefNow.

Record column : Type := mk_col {
  col_name : string;
  col_aff : affinity;
  col_notnull : bool;
  col_default : default_expr
}.

Record table_schema : Type := mk_schema {
  ts_columns : list column;
  ts_unique : list string
}.

Record srow : Type := mk_srow { rowid : Z; cells : gmap string sqlval }.

(** [tbl_seq] is the table's entry in sqlite_sequence. *)
Record table : Type := mk_table { tbl_rows : list srow; tbl_seq : Z }.

Definition empty_table : table := mk_table [] 0.

Definition NATURAL_KEY : list string := ["rid"; "first"; "second"; "planned_dep"].

Definition predictions_schema : table_schema :=
  mk_schema
    [ mk_col "created_at_utc" AffText true DefNow;
      mk_col "rid" AffText true DefNull;
      mk_col "ssd" AffText false DefNull;
      mk_col "first" AffText true DefNull;
      mk_col "second" AffText true DefNull;
      mk_col "planned_dep" AffText false DefNull;
      mk_col "dep_time" AffText false DefNull;
      mk_col "dep_time_kind" AffText false DefNull;
      mk_col "has_actual_dep" AffInteger true DefNull;
      mk_col "actual_dep_confirmed" AffText false DefNull;
      mk_col "departure_delay" AffReal false DefNull;
      mk_col "dwell_delay" AffReal false DefNull;
      mk_col "peak" AffInteger false DefNull;
      mk_col "day_of_week" AffText false DefNull;
      mk_col "day_of_month" AffInteger false DefNull;
      mk_col "hour_of_day" AffInteger false DefNull;
      mk_col "weekend" AffInteger false DefNull;
      mk_col "season" AffText false DefNull;
      mk_col "month" AffInteger false DefNull;
      mk_col "holiday" AffInteger false DefNull;
      mk_col "predicted_delay" AffReal false DefNull ]
    NATURAL_KEY.

Definition actual_arrivals_hsp_schema : table_schema :=
  mk_schema
    [ mk_col "created_at_utc" AffText true DefNow;
      mk_col "rid" AffText true DefNull;
      mk_col "ssd" AffText false DefNull;
      mk_col "first" AffText true DefNull;
      mk_col "second" AffText true DefNull;
      mk_col "planned_dep" AffText false DefNull;
      mk_col "is_main_journey" AffInteger true (DefConst (SInt 0));
      mk_col "predicted_delay" AffReal false DefNull;
      mk_col "planned_arr" AffText false DefNull;
      mk_col "actual_arr" AffText false DefNull;
      mk_col "actual_arr_delay" AffReal false DefNull;
      mk_col "toc_code" AffText false DefNull;
      mk_col "hsp_location_crs" AffText false DefNull;
      mk_col "hsp_tpls" AffText false DefNull ]
    NATURAL_KEY.

Record database : Type := mk_db {
  predictions_all : option table;
  predictions_actual : option table;
  actual_arrivals_hsp : option table
}.

(** A database file in which no table has been created yet. *)
Definition new_database : database := mk_db None None None.

(** [ensure_schema]: each CREATE TABLE IF NOT EXISTS makes a missing table and
    leaves an existing one alone; the additive migrations find every column
    of the current schema in place. *)
Definition ensure_schema (db : database) : database :=
  mk_db (Some (default empty_table (predictions_all db)))
        (Some (default empty_table (predictions_actual db)))
        (Some (default empty_table (actual_arrivals_hsp db))).

Definition is_null (v : sqlval) : bool :=
  match v with SNull => true | _ => false end.

(** A record handed to the DAO: column name to bound value. *)
Abbreviation record := (gmap string sqlval).

Definition cell (cs : gmap string sqlval) (c : string) : sqlval :=
  default SNull (cs !! c).

Definition key_of (sch : table_schema) (cs : gmap string sqlval)
  : list sqlval :=
  map (cell cs) (ts_unique sch).

(** Two keys collide in the UNIQUE index when they are equal and hold no
    NULL. *)
Definition key_conflict (k1 k2 : list sqlval) : bool :=
  forallb (fun v => negb (is_null v)) k1 && bool_decide (k1 = k2).

Definition max_rowid (rows : list srow) : Z :=
  fold_right (fun r m => Z.max (rowid r) m) 0 rows.

Definition rowid_exists (rows : list srow) (i : Z) : bool :=
  existsb (fun r => rowid r =? i) rows.

Definition find_conflict (sch : table_schema) (rows : list srow)
    (k : list sqlval) : option srow :=
  find (fun r => key_conflict (key_of sch (cells r)) k) rows.

Definition known_columns (sch : table_schema) (rec : record) : bool :=
  forallb (fun c => String.eqb c "id"
                    || existsb (fun col => String.eqb (col_name col) c)
                         (ts_columns sch))
    (map fst (map_to_list rec)).

Section Engine.

(** The conversion a column's type affinity applies to a bound value on its
    way into the table. *)
Variable coerce : affinity -> sqlval -> sqlval.

Definition eval_default (now : string) (d : default_expr) : sqlval :=
  match d with
  | DefNull => SNull
  | DefConst v => v
  | DefNow => SText now
  end.

(** Cells of the row that an INSERT of [rec] proposes. *)
Definition new_cells (sch : table_schema) (now : string) (rec : record)
  : gmap string sqlval :=
  list_to_map
    (map (fun col =>
            (col_name col,
             match rec !! col_name col with
             | Some v => coerce (col_aff col) v
             | None => eval_default now (col_default col)
             end))
       (ts_columns sch)).

(** Rowid of the proposed row: the given [id], or the next AUTOINCREMENT
    value. *)
Definition new_rowid (t : table) (rec : record) : res Z :=
  let auto := Z.max (tbl_seq t) (max_rowid (tbl_rows t)) + 1 in
  match rec !! "id" with
  | Some v =>
      match coerce AffInteger v with
      | SNull => Ok auto
      | SInt z => Ok z
      | _ => Raise IntegrityError
      end
  | None => Ok auto
  end.

Definition notnull_violation (sch : table_schema) (cs : gmap string sqlval)
  : bool :=
  existsb (fun col => col_notnull col && is_null (cell cs (col_name col)))
    (ts_columns sch).

(** [INSERT OR IGNORE INTO t (cols of rec) VALUES (values of rec)] *)
Definition insert_or_ignore (sch : table_schema) (now : string) (t : table)
    (rec : record) : res table :=
  if bool_decide (rec = ∅) || negb (known_columns sch rec)
  then Raise OperationalError
  else
    i ← new_rowid t rec;
    let cs := new_cells sch now rec in
    let seq := Z.max (tbl_seq t) i in
    if notnull_violation sch cs || rowid_exists (tbl_rows t) i
       || is_some (find_conflict sch (tbl_rows t) (key_of sch cs))
    then Ok (mk_table (tbl_rows t) seq)
    else Ok (mk_table (tbl_rows t ++ [mk_srow i cs]) seq).

(** Columns named in [DO UPDATE SET c = excluded.c, ...] *)
Definition update_cols (sch : table_schema) (rec : record) : list string :=
  filter (fun c => c ∉ ts_unique sch) (map fst (map_to_list rec)).

(** The conflicting row after DO UPDATE. *)
Definition updated_row (sch : table_schema) (rec : record) (i : Z)
    (cs : gmap string sqlval) (old : srow) : srow :=
  mk_srow (if bool_decide ("id" ∈ update_cols sch rec) then i else rowid old)
    (fold_right
       (fun c acc => if String.eqb c "id" then acc else <[c := cell cs c]> acc)
       (cells old) (update_cols sch rec)).

(** The table after DO UPDATE has rewritten the first row whose key collides
    with [k]. *)
Fixpoint update_conflict (sch : table_schema) (rows : list srow)
    (k : list sqlval) (f : srow -> srow) : list srow :=
  match rows with
  | [] => []
  | r :: rest =>
      if key_conflict (key_of sch (cells r)) k then f r :: rest
      else r :: update_conflict sch rest k f
  end.

(** [INSERT INTO t (...) VALUES (...) ON CONFLICT(key) DO UPDATE SET ...] *)
Definition upsert (sch : table_schema) (now : string) (t : table)
    (rec : record) : res table :=
  if bool_decide (rec = ∅) || negb (known_columns sch rec)
     || bool_decide (update_cols sch rec = [])
  then Raise OperationalError
  else
    i ← new_rowid t rec;
    let cs := new_cells sch now rec in
    let seq := Z.max (tbl_seq t) i in
    if notnull_violation sch cs then Raise IntegrityError
    else
      match find_conflict sch (tbl_rows t) (key_of sch cs) with
      | Some old =>
          let new := updated_row sch rec i cs old in
          if negb (rowid new =? rowid old)
             && rowid_exists (tbl_rows t) (rowid new)
          then Raise IntegrityError
          else Ok (mk_table
                     (update_conflict sch (tbl_rows t) (key_of sch cs)
                        (updated_row sch rec i cs))
                     seq)
      | None =>
          if rowid_exists (tbl_rows t) i then Raise IntegrityError
          else Ok (mk_table (tbl_rows t ++ [mk_srow i cs]) seq)
      end.

(** ** dao/realtime_store.py: RealTimeSQLiteStore._insert_with_conn *)

Definition _insert_with_conn (now : string) (db : database)
    (table_name : string) (rec : record) : res database :=
  if String.eqb table_name "predictions_all" then
    match predictions_all db with
    | Some t =>
        t' ← insert_or_ignore predictions_schema now t rec;
        Ok (mk_db (Some t') (predictions_actual db) (actual_arrivals_hsp db))
    | None => Raise OperationalError
    end
  else if String.eqb table_name "predictions_actual" then
    match predictions_actual db with
    | Some t =>
        t' ← insert_or_ignore predictions_schema now t rec;
        Ok (mk_db (predictions_all db) (Some t') (actual_arrivals_hsp db))
    | None => Raise OperationalError
    end
  else if String.eqb table_name "actual_arrivals_hsp" then
    match actual_arrivals_hsp db with
    | Some t =>
        t' ← insert_or_ignore actual_arrivals_hsp_schema now t rec;
        Ok (mk_db (predictions_all db) (predictions_actual db) (Some t'))
    | None => Raise OperationalError
    end
  else Raise OperationalError.

(** ** dao/actual_arrivals_hsp.py: upsert_actual_arrival *)

Definition upsert_actual_arrival (now : string) (db : database)
    (rec : record) : res database :=
  match actual_arrivals_hsp db with
  | Some t =>
      t' ← upsert actual_arrivals_hsp_schema now t rec;
      Ok (mk_db (predictions_all db) (predictions_actual db) (Some t'))
  | None => Raise OperationalError
  end.

End Engine.

(** ** dao/realtime_store.py: RealTimeSQLiteStore

    The queue, the flags and the database that the writer thread owns form
    one state; the caller's methods and one iteration of the writer loop are
    transitions on it.  [stmts] counts the statements the writer has run and
    indexes the clock that feeds [created_at_utc]. *)

Definition item : Type := option string * option record.

Definition _SENTINEL : item := (None, None).

Record RealTimeSQLiteStore : Type := mk_store {
  _q : list item;
  queue_maxsize : Z;
  _stop : bool;
  _closed : bool;
  writer_alive : bool;
  conn_db : database;
  stmts : nat
}.

(** [Queue.put(x, block=False)]: [None] stands for queue.Full. *)
Definition put_nowait (q : list item) (maxsize : Z) (x : item)
  : option (list item) :=
  if (0 <? maxsize) && (maxsize <=? Z.of_nat (List.length q)) then None
  else Some (q ++ [x])%list.

Definition set_q (st : RealTimeSQLiteStore) (q : list item)
  : RealTimeSQLiteStore :=
  mk_store q (queue_maxsize st) (_stop st) (_closed st) (writer_alive st)
    (conn_db st) (stmts st).

Definition set_closed (st : RealTimeSQLiteStore) : RealTimeSQLiteStore :=
  mk_store (_q st) (queue_maxsize st) (_stop st) true (writer_alive st)
    (conn_db st) (stmts st).

Definition set_stop (st : RealTimeSQLiteStore) : RealTimeSQLiteStore :=
  mk_store (_q st) (queue_maxsize st) true (_closed st) (writer_alive st)
    (conn_db st) (stmts st).

Definition writer_exit (st : RealTimeSQLiteStore) (q : list item)
  : RealTimeSQLiteStore :=
  mk_store q (queue_maxsize st) (_stop st) (_closed st) false (conn_db st)
    (stmts st).

Definition _enqueue (st : RealTimeSQLiteStore) (table_name : string)
    (rec : record) : RealTimeSQLiteStore * bool :=
  if _closed st then (st, false)
  else
    match put_nowait (_q st) (queue_maxsize st) (Some table_name, Some rec) with
    | Some q => (set_q st q, true)
    | None => (st, false)
    end.

Definition insert_all (st : RealTimeSQLiteStore) (rec : record)
  : RealTimeSQLiteStore * bool :=
  _enqueue st "predictions_all" rec.

Definition insert_actual (st : RealTimeSQLiteStore) (rec : record)
  : RealTimeSQLiteStore * bool :=
  _enqueue st "predictions_actual" rec.

Section Writer.

Variable coerce : affinity -> sqlval -> sqlval.

(** What the default of [created_at_utc] evaluates to at the n-th statement. *)
Variable clock : nat -> string.

(** [__init__] followed by the start of [_writer_loop]: the connection is
    opened on [db] and the schema ensured before any item is taken. *)
Definition RealTimeSQLiteStore_new (db : database) (queue_maxsize_ : Z)
  : RealTimeSQLiteStore :=
  mk_store [] queue_maxsize_ false false true (ensure_schema db) 0.

(** One iteration of [while True] in [_writer_loop]. *)
Definition writer_step (st : RealTimeSQLiteStore) : RealTimeSQLiteStore :=
  if negb (writer_alive st) then st
  else
    match _q st with
    | [] => if _stop st then writer_exit st [] else st
    | (table_name, rec) :: q' =>
        match table_name, rec with
        | None, None => writer_exit st q'
        | Some t, Some r =>
            match _insert_with_conn coerce (clock (stmts st)) (conn_db st) t r with
            | Ok db' =>
                mk_store q' (queue_maxsize st) (_stop st) (_closed st) true db'
                  (S (stmts st))
            | Raise _ => writer_exit st q'
            end
        | _, _ => writer_exit st q'
        end
    end.

(** [self._q.join()]: the writer works through what is queued.  The flag is
    false when the writer has died with items still unfinished, so that the
    join never returns; the state is then the one the caller is stuck in. *)
Fixpoint q_join (n : nat) (st : RealTimeSQLiteStore)
  : RealTimeSQLiteStore * bool :=
  match _q st with
  | [] => (st, true)
  | _ :: _ =>
      if writer_alive st then
        match n with
        | O => (st, false)
        | S n' => q_join n' (writer_step st)
        end
      else (st, false)
  end.

(** [close(drain=..., join_timeout=...)], with the flag telling whether the
    call returns; the final [join] only waits, and the writer's remaining
    iterations are further [writer_step]s. *)
Definition close (st : RealTimeSQLiteStore) (drain : bool)
  : RealTimeSQLiteStore * bool :=
  if _closed st then (st, true)
  else
    let st1 := set_closed st in
    let '(st2, returned) :=
      if drain then q_join (List.length (_q st1)) st1 else (st1, true) in
    if returned then
      let st3 := set_stop st2 in
      (match put_nowait (_q st3) (queue_maxsize st3) _SENTINEL with
       | Some q => set_q st3 q
       | None => st3
       end, true)
    else (st2, false).

(** A schedule of the two threads: calls made by the listener thread and
    iterations of the writer loop, in the order they take effect. *)
Inductive store_op : Type :=
| CallInsertAll (rec : record)
| CallInsertActual (rec : record)
| CallClose (drain : bool)
| WriterStep.

(** Runs a schedule and collects the results of the insert calls.  A close
    that never returns ends the caller's activity. *)
Fixpoint run (st : RealTimeSQLiteStore) (ops : list store_op)
  : RealTimeSQLiteStore * list bool :=
  match ops with
  | [] => (st, [])
  | CallInsertAll rec :: rest =>
      let '(st1, b) := insert_all st rec in
      let '(st2, bs) := run st1 rest in (st2, b :: bs)
  | CallInsertActual rec :: rest =>
      let '(st1, b) := insert_actual st rec in
      let '(st2, bs) := run st1 rest in (st2, b :: bs)
  | CallClose drain :: rest =>
      let '(st1, returned) := close st drain in
      if returned : bool then run st1 rest else (st1, [])
  | WriterStep :: rest => run (writer_step st) rest
  end.

(** Successive process runs over one database file: each opens a store with
    its own queue bound and executes its schedule. *)
Definition run_processes (db : database) (procs : list (Z * list store_op))
  : database :=
  fold_left
    (fun db p => conn_db (fst (run (RealTimeSQLiteStore_new db (fst p)) (snd p))))
    procs db.

End Writer.

(** ** models/ensemble.py: WeightedEnsemblePredictor

    Predictions and weights are exact rationals.  A loaded object either has a
    [predict] method, giving the first element of its output for a feature
    row, or has none. *)

Section Ensemble.

(** The single-row input [X_row]. *)
Variable X : Type.

Record pyobj : Type := mk_obj { predict : option (X -> res Q) }.

Inductive artifact : Type :=
| ArtDict (d : gmap string pyobj)
| ArtObj (o : pyobj).

(** [joblib.load(path)] *)
Variable joblib_load : string -> res artifact.

(** [MODELS / f"{first}_{second}_{model_name}.joblib"], relative to MODELS. *)
Definition model_path (first second model_name : string) : string :=
  first +:+ "_" +:+ second +:+ "_" +:+ model_name +:+ ".joblib".

Record WeightedEnsemblePredictor : Type := mk_predictor {
  _weights : gmap string (list (string * Q));
  _pipe_cache : gmap (string * string * string) pyobj
}.

Definition _load_pipeline (p : WeightedEnsemblePredictor)
    (first second model_name : string)
  : WeightedEnsemblePredictor * res pyobj :=
  let key := (first, second, model_name) in
  match _pipe_cache p !! key with
  | Some pipe => (p, Ok pipe)
  | None =>
      let loaded :=
        art ← joblib_load (model_path first second model_name);
        pipe ← match art with
                | ArtDict d =>
                    match d !! "pipeline" with
                    | Some o => Ok o
                    | None => Raise ValueError
                    end
                | ArtObj o => Ok o
                end;
        if is_some (predict pipe) then Ok pipe else Raise TypeError in
      match loaded with
      | Ok pipe =>
          (mk_predictor (_weights p) (<[key := pipe]> (_pipe_cache p)), Ok pipe)
      | Raise e => (p, Raise e)
      end
  end.

(** The [for model_name, w in wdict.items()] loop with its two accumulators. *)
Fixpoint predict_loop (p : WeightedEnsemblePredictor) (first second : string)
    (X_row : X) (items : list (string * Q)) (weighted_pred total_w : Q)
  : WeightedEnsemblePredictor * res (Q * Q) :=
  match items with
  | [] => (p, Ok (weighted_pred, total_w))
  | (model_name, w) :: rest =>
      match _load_pipeline p first second model_name with
      | (p1, Ok pipe) =>
          match predict pipe with
          | Some f =>
              match f X_row with
              | Ok pred =>
                  predict_loop p1 first second X_row rest
                    (weighted_pred + w * pred)%Q (total_w + w)%Q
              | Raise e => (p1, Raise e)
              end
          | None => (p1, Raise AttributeError)
          end
      | (p1, Raise e) => (p1, Raise e)
      end
  end.

Definition predict_one (p : WeightedEnsemblePredictor) (first second : string)
    (X_row : X) : WeightedEnsemblePredictor * res (option Q) :=
  let pair_key := first +:+ "_" +:+ second in
  match _weights p !! pair_key with
  | None => (p, Ok None)
  | Some [] => (p, Ok None)
  | Some wdict =>
      match predict_loop p first second X_row wdict 0 0 with
      | (p1, Ok (weighted_pred, total_w)) =>
          (p1, Ok (Some (if Qltb 0 total_w
                         then (weighted_pred / total_w)%Q
                         else weighted_pred)))
      | (p1, Raise e) => (p1, Raise e)
      end
  end.

End Ensemble.

Arguments predict {X} _.
Arguments mk_obj {X} _.
Arguments ArtDict {X} _.
Arguments ArtObj {X} _.
Arguments _weights {X} _.
Arguments _pipe_cache {X} _.
Arguments mk_predictor {X} _ _.

(** ** runtime/run_realtime_predict.py: on_decoded *)

(** The feature dict that [SegmentFeatureBuilder.build] returns. *)
Record features : Type := mk_features {
  departure_delay : Q;
  dwell_delay : Q;
  peak : Z;
  day_of_week : string;
  day_of_month : Z;
  hour_of_day : Z;
  weekend : Z;
  season : string;
  month_ : Z;
  holiday : Z
}.

Definition sql_text (v : option string) : sqlval :=
  match v with Some s => SText s | None => SNull end.

Definition sql_bool (b : bool) : sqlval := SInt (if b then 1 else 0).

(** The dict [rec] built for one segment. *)
Definition make_rec (s : segment) (feat : features) (yhat : Q) : record :=
  list_to_map
    [ ("rid", sql_text (Seg.rid s));
      ("ssd", sql_text (Seg.ssd s));
      ("first", SText (Seg.first s));
      ("second", SText (Seg.second s));
      ("planned_dep", sql_text (Seg.planned_dep s));
      ("dep_time", sql_text (Seg.dep_time_for_prediction s));
      ("dep_time_kind", SText (Seg.dep_time_kind s));
      ("has_actual_dep", sql_bool (Seg.has_actual_dep s));
      ("actual_dep_confirmed", sql_text (Seg.actual_dep_confirmed s));
      ("departure_delay", SReal (departure_delay feat));
      ("dwell_delay", SReal (dwell_delay feat));
      ("peak", SInt (peak feat));
      ("day_of_week", SText (day_of_week feat));
      ("day_of_month", SInt (day_of_month feat));
      ("hour_of_day", SInt (hour_of_day feat));
      ("weekend", SInt (weekend feat));
      ("season", SText (season feat));
      ("month", SInt (month_ feat));
      ("holiday", SInt (holiday feat));
      ("predicted_delay", SReal yhat) ].

Definition seg_id_of (s : segment) : seg_id :=
  (Seg.rid s, Seg.first s, Seg.second s, Seg.planned_dep s).

(** [cache.<name>(seg_id)] for a getter [name]: RecentSegmentCache defines no
    such method, so evaluating the call is an AttributeError. *)
Definition cache_call_getter {A : Type} (name : string)
    (c : RecentSegmentCache) (k : seg_id) : res A :=
  Raise AttributeError.

(** What one pass of the per-segment body did: the two dispatch flags and
    the results of the enqueue calls it made. *)
Record dispatch : Type := mk_dispatch {
  should_insert_all : bool;
  should_insert_actual : bool;
  all_result : option bool;
  actual_result : option bool
}.

(** The body of [for s in segs] from the reading of the segment's departure
    fields onward, for a segment whose features and prediction are present. *)
Definition on_decoded_segment (c : RecentSegmentCache)
    (st : RealTimeSQLiteStore) (s : segment) (feat : features) (yhat : Q)
  : res (RecentSegmentCache * RealTimeSQLiteStore * dispatch) :=
  let dep_time := Seg.dep_time_for_prediction s in
  let dep_kind := Seg.dep_time_kind s in
  let has_actual := Seg.has_actual_dep s in
  let k := seg_id_of s in
  prev_dep ← (if cache_hasattr "get_last_dep_time"
               then cache_call_getter "get_last_dep_time" c k
               else Ok (None : option string));
  prev_kind ← (if cache_hasattr "get_last_kind"
                then cache_call_getter "get_last_kind" c k
                else Ok (None : option string));
  prev_actual_saved ← (if cache_hasattr "get_actual_saved"
                        then cache_call_getter "get_actual_saved" c k
                        else Ok false);
  touched ← touch c k dep_time dep_kind has_actual;
  let c1 := fst touched in
  let should_all :=
    (negb (is_some prev_dep) && negb (is_some prev_kind))
    || negb (bool_decide (dep_time = prev_dep))
    || negb (bool_decide (Some dep_kind = prev_kind)) in
  let should_actual := has_actual && negb prev_actual_saved in
  let rec := make_rec s feat yhat in
  let '(st1, r_all) :=
    if should_all then
      let '(st', b) := insert_all st rec in (st', Some b)
    else (st, None) in
  let '(st2, c2, r_actual) :=
    if should_actual then
      let '(st', inserted) := insert_actual st1 rec in
      (st',
       if inserted && cache_hasattr "mark_actual_saved"
       then mark_actual_saved c1 k else c1,
       Some inserted)
    else (st1, c1, None) in
  Ok (c2, st2, mk_dispatch should_all should_actual r_all r_actual).

Section Orchestrator.

(** [SegmentFeatureBuilder(tz=LONDON).build] *)
Variable build : segment -> res (option features).

(** [ensemble.predict_one(first, second, pd.DataFrame([feat]))] *)
Variable ensemble_predict_one : string -> string -> features -> res (option Q).

(** [ZoneInfo("Europe/London")] *)
Variable LONDON : tzinfo.

Fixpoint on_decoded_loop (c : RecentSegmentCache) (st : RealTimeSQLiteStore)
    (segs : list segment)
  : res (RecentSegmentCache * RealTimeSQLiteStore * list (segment * dispatch)) :=
  match segs with
  | [] => Ok (c, st, [])
  | s :: rest =>
      feat ← build s;
      match feat with
      | None => on_decoded_loop c st rest
      | Some f =>
          yhat ← ensemble_predict_one (Seg.first s) (Seg.second s) f;
          match yhat with
          | None => on_decoded_loop c st rest
          | Some y =>
              r ← on_decoded_segment c st s f y;
              let '(c1, st1, d) := r in
              r' ← on_decoded_loop c1 st1 rest;
              let '(c2, st2, ds) := r' in
              Ok (c2, st2, (s, d) :: ds)
          end
      end
  end.

(** [s["planned_arr_second"] = loc_second.get("pta") or loc_second.get("wta")] *)
Definition stash_planned_arr_second (s : segment) : segment :=
  set_planned_arr_second
    (py_or (dict_get (Seg.loc_second s) "pta")
       (dict_get (Seg.loc_second s) "wta")) s.

(** [now_wall] is the wall-clock reading of [datetime.now(LONDON)]. *)
Definition on_decoded (now_wall : Z) (c : RecentSegmentCache)
    (st : RealTimeSQLiteStore) (forecasts : list row)
    (schedules : option (list row))
  : res (RecentSegmentCache * RealTimeSQLiteStore * list (segment * dispatch)) :=
  let now := mk_dt now_wall (Some LONDON) in
  segs ← extract_segments forecasts schedules (Some LONDON) true;
  match segs with
  | [] => Ok (c, st, [])
  | _ =>
      let segs := map stash_planned_arr_second segs in
      segs ← filter_segments_by_now segs now (Some LONDON) "in_progress"
                30 180 5 2;
      match segs with
      | [] => Ok (c, st, [])
      | _ => on_decoded_loop c st segs
      end
  end.

End Orchestrator.

(** ** dao/actual_arrivals_hsp.py *)

(** [_clean_str] on a string-or-None. *)
Definition _clean_str (v : option string) : option string :=
  match v with
  | None => None
  | Some s => let s' := Py.strip s in
              if String.eqb s' "" then None else Some s'
  end.

(** [str.isdigit] on one character. *)
Definition py_isdigit_char (c : ascii) : bool :=
  Py.is_digit c || (Py.code c =? 178) || (Py.code c =? 179)
  || (Py.code c =? 185).

Fixpoint contains_char (a : ascii) (s : string) : bool :=
  match s with
  | String c s' => Ascii.eqb c a || contains_char a s'
  | EmptyString => false
  end.

Definition _hhmm_to_hh_colon_mm (v : option string) : option string :=
  match _clean_str v with
  | None => None
  | Some s =>
      if contains_char ":" s then Some s
      else
        match s with
        | String a (String b (String c (String d EmptyString))) =>
            if Py.all_chars py_isdigit_char s
            then Some (String a (String b (String ":" (String c (String d EmptyString)))))
            else None
        | _ => None
        end
  end.

Definition compute_actual_arrival_delay_min (ssd_ planned_arr_hhmm
    actual_arr_hhmm base_hhmm : option string) (tz : option tzinfo)
  : res (option Q) :=
  match ssd_ with
  | Some d =>
      if negb (truthy ssd_) || negb (truthy planned_arr_hhmm)
         || negb (truthy actual_arr_hhmm)
      then Ok None
      else
        let planned_s := _hhmm_to_hh_colon_mm planned_arr_hhmm in
        let actual_s := _hhmm_to_hh_colon_mm actual_arr_hhmm in
        let base_s := if truthy base_hhmm then _hhmm_to_hh_colon_mm base_hhmm
                      else None in
        if negb (truthy planned_s) || negb (truthy actual_s) then Ok None
        else
          base_dt ← (if truthy base_s
                      then combine_date_time_smart d base_s None tz
                             default_rollover_threshold
                      else Ok None);
          planned_dt ← combine_date_time_smart d planned_s base_dt tz
                          default_rollover_threshold;
          actual_dt ← combine_date_time_smart d actual_s planned_dt tz
                         default_rollover_threshold;
          diff_minutes_wrap planned_dt actual_dt
  | None => Ok None
  end.

(** A row of predictions_actual as the candidate query returns it. *)
Record pred_row : Type := mk_pred_row {
  p_rid : option string;
  p_ssd : option string;
  p_first : option string;
  p_second : option string;
  p_planned_dep : option string;
  p_predicted_delay : sqlval
}.

(** A flat per-location row of the HSP parser: its string fields and the
    service-level [is_main_journey] integer. *)
Record hsp_row : Type := mk_hsp_row {
  hsp_fields : row;
  hsp_is_main_journey : option Z
}.

Definition sql_real (v : option Q) : sqlval :=
  match v with Some q => SReal q | None => SNull end.

Definition make_actual_arrival_record (pr : pred_row)
    (hsp_by_tiploc2 : gmap string hsp_row) (tz : option tzinfo)
  : res (option record) :=
  let rid_ := _clean_str (p_rid pr) in
  let first_ := _clean_str (p_first pr) in
  let second_ := _clean_str (p_second pr) in
  let planned_dep_ := _clean_str (p_planned_dep pr) in
  let ssd_ := _clean_str (p_ssd pr) in
  match rid_, first_, second_ with
  | Some r, Some f, Some s =>
      match hsp_by_tiploc2 !! s with
      | Some hsp_loc =>
          let planned_arr_ :=
            _hhmm_to_hh_colon_mm (dict_get (hsp_fields hsp_loc) "pta") in
          let actual_arr_ :=
            _hhmm_to_hh_colon_mm (dict_get (hsp_fields hsp_loc) "ata") in
          if negb (truthy planned_arr_) || negb (truthy actual_arr_)
          then Ok None
          else
            actual_arr_delay ←
              compute_actual_arrival_delay_min ssd_ planned_arr_ actual_arr_
                planned_dep_ tz;
            Ok (Some (list_to_map
              [ ("rid", SText r);
                ("ssd", sql_text ssd_);
                ("first", SText f);
                ("second", SText s);
                ("planned_dep", sql_text planned_dep_);
                ("is_main_journey",
                 SInt (default 0 (hsp_is_main_journey hsp_loc)));
                ("predicted_delay", p_predicted_delay pr);
                ("planned_arr", sql_text planned_arr_);
                ("actual_arr", sql_text actual_arr_);
                ("actual_arr_delay", sql_real actual_arr_delay);
                ("toc_code",
                 sql_text (_clean_str (dict_get (hsp_fields hsp_loc) "toc_code")));
                ("hsp_location_crs",
                 sql_text (_clean_str (dict_get (hsp_fields hsp_loc) "tpl")));
                ("hsp_tpls",
                 sql_text (_clean_str (dict_get (hsp_fields hsp_loc) "hsp_tpls")))
              ]))
      | None => Ok None
      end
  | _, _, _ => Ok None
  end.

(** ** Specification-side notions used by the statements below *)

(** [actual - planned] in microseconds, on the readings that the subtraction
    compares once awareness has been matched. *)
Definition raw_difference (planned actual : datetime) : timedelta :=
  match dt_operands (match_awareness planned actual) planned with
  | Ok p => fst p - snd p
  | Raise _ => 0
  end.

(** Clock strings as the feed writes them. *)
Definition two_digits (n : nat) : string :=
  String (ascii_of_nat (48 + n / 10))
    (String (ascii_of_nat (48 + n mod 10)) EmptyString).

Definition clock_hm (h m : nat) : string :=
  two_digits h +:+ ":" +:+ two_digits m.

Definition clock_hms (h m s : nat) : string :=
  two_digits h +:+ ":" +:+ two_digits m +:+ ":" +:+ two_digits s.

Definition clock_hhmm (h m : nat) : string := two_digits h +:+ two_digits m.

Fixpoint count_char (a : ascii) (s : string) : nat :=
  match s with
  | String c s' => (if Ascii.eqb c a then 1 else 0) + count_char a s'
  | EmptyString => 0
  end.

Definition time_in_range (t : time) : Prop :=
  0 <= hour t <= 23 /\ 0 <= minute t <= 59 /\ 0 <= second t <= 59.

(** Two timestamps are read on the same clock when both are naive or both
    carry the same tzinfo. *)
Definition same_clock (a b : datetime) : Prop :=
  match dt_tz a, dt_tz b with
  | None, None => True
  | Some ta, Some tb => same_tz ta tb = true
  | _, _ => False
  end.

(** How far the naive combination lies before [base], in microseconds. *)
Definition gap_before (base naive : datetime) : timedelta :=
  - raw_difference base naive.

Definition is_insert_call (o : store_op) : bool :=
  match o with
  | CallInsertAll _ | CallInsertActual _ => true
  | _ => false
  end.

(** A schedule with its insert calls left out. *)
Definition without_inserts (ops : list store_op) : list store_op :=
  filter (fun o => negb (is_insert_call o)) ops.

(** Bound values stored as they are: the conversion for values that already
    have the storage class of their column. *)
Definition coerce_id (a : affinity) (v : sqlval) : sqlval := v.

Definition clock_const (n : nat) : string := "2025-04-10T09:00:00.000Z".

(** Rows of a table that may not exist yet. *)
Definition table_rows (t : option table) : list srow :=
  match t with
  | Some t => tbl_rows t
  | None => []
  end.

(** The rows stored under the natural key [k]. *)
Definition rows_with_key (sch : table_schema) (rows : list srow)
    (k : list sqlval) : list srow :=
  List.filter (fun r => bool_decide (key_of sch (cells r) = k)) rows.

Definition key_has_null (k : list sqlval) : bool := existsb is_null k.

(** What the ensemble loop obtains from the sub-model [model_name] for the
    row [X_row], starting from predictor state [p]. *)
Definition model_output {X : Type} (joblib_load : string -> res (artifact X))
    (p : WeightedEnsemblePredictor X) (first second model_name : string)
    (X_row : X) : res Q :=
  match _load_pipeline X joblib_load p first second model_name with
  | (_, Ok pipe) =>
      match predict pipe with
      | Some f => f X_row
      | None => Raise AttributeError
      end
  | (_, Raise e) => Raise e
  end.

(** Sum of weight times prediction, and sum of weights, over a weights
    dict and the predictions of its sub-models in the same order. *)
Fixpoint weighted_sum (wdict : list (string * Q)) (preds : list Q) : Q :=
  match wdict, preds with
  | (_, w) :: ws, y :: ys => (w * y + weighted_sum ws ys)%Q
  | _, _ => 0%Q
  end.

Definition total_weight (wdict : list (string * Q)) : Q :=
  fold_right (fun nw acc => (snd nw + acc)%Q) 0%Q wdict.

(** The dispatch policy in the specification's words: a snapshot goes to
    predictions_all when the cache holds nothing for the segment or what it
    holds differs from the current departure time or kind, and to
    predictions_actual when the departure is confirmed and the cache has not
    recorded a saved actual. *)
Definition spec_should_insert_all (c : RecentSegmentCache) (s : segment)
  : bool :=
  match od_get (_od c) (seg_id_of s) with
  | None => true
  | Some e =>
      negb (bool_decide (last_dep_time e = Seg.dep_time_for_prediction s))
      || negb (String.eqb (last_kind e) (Seg.dep_time_kind s))
  end.

Definition spec_should_insert_actual (c : RecentSegmentCache) (s : segment)
  : bool :=
  Seg.has_actual_dep s
  && negb (match od_get (_od c) (seg_id_of s) with
           | Some e => actual_saved e
           | None => false
           end).

(** Side conditions under which the time utilities return rather than raise:
    the clock string has no numeric field beyond a C int, and the service
    date is not the last representable day. *)
Definition clock_ok (t : option string) : Prop := is_ok (parse_hms t) = true.

Definition ssd_ok (d : option string) : Prop :=
  match d with
  | Some s =>
      match Strptime.ymd s with
      | Ok dd => toordinal dd < 3652059
      | Raise _ => True
      end
  | None => True
  end.

Definition row_clocks_ok (r : row) : Prop :=
  forall k, clock_ok (dict_get r k).

Definition route_origin : string := fst (hd ("", "") STATION_PAIRS).

Definition route_destination : string :=
  snd (List.last STATION_PAIRS ("", "")).

Definition seg_pair (s : segment) : string * string :=
  (Seg.first s, Seg.second s).

(** Both stations of a tracked pair have a location in the forecast index. *)
Definition pair_present (by_tpl : gmap string row) (p : string * string)
  : bool :=
  is_some (by_tpl !! fst p) && is_some (by_tpl !! snd p).

(** The wall-clock reading of clock [t] on date [ssd_]; none when either is
    missing or does not parse. *)
Definition spec_timestamp (ssd_ t : option string) : option Z :=
  match ssd_, t with
  | Some d, Some c =>
      match parse_hms (Some c), Strptime.ymd d with
      | Ok (Some tm), Ok dd => Some (wall (datetime_combine dd tm))
      | _, _ => None
      end
  | _, _ => None
  end.

(** A planned arrival that reads more than two hours before the departure
    belongs to the following day. *)
Definition spec_planned_arrival (dep arr : Z) : Z :=
  if timedelta_hours 2 <? dep - arr then arr + timedelta_days 1 else arr.

(** The in-progress condition in the specification's words: the planned
    departure at the first station is at most now plus 5 minutes and the
    planned arrival at the second station is at least now minus 2 minutes;
    a segment without either timestamp is not in progress. *)
Definition spec_in_progress (now_wall : Z) (seg : segment) : bool :=
  match spec_timestamp (Seg.ssd seg) (Seg.planned_dep seg),
        spec_timestamp (Seg.ssd seg) (Seg.planned_arr_second seg) with
  | Some dep, Some arr =>
      (dep <=? now_wall + timedelta_minutes 5)
      && (now_wall - timedelta_minutes 2 <=? spec_planned_arrival dep arr)
  | _, _ => false
  end.

(** [now] can be compared with timestamps built in [tz]: it is naive, or it
    carries the tzinfo [tz]. *)
Definition now_compatible (now : datetime) (tz : option tzinfo) : Prop :=
  match dt_tz now, tz with
  | None, _ => True
  | Some z', Some z => same_tz z z' = true
  | Some _, None => False
  end.

Definition seg_times_ok (seg : segment) : Prop :=
  clock_ok (Seg.planned_dep seg) /\ clock_ok (Seg.planned_arr_second seg)
  /\ ssd_ok (Seg.ssd seg).

(** ** Auxiliary notions and sample data of the proofs *)

Definition returns_time (r : res (option time)) (h m s : Z) : bool :=
  match r with
  | Ok (Some t) => (hour t =? h) && (minute t =? m) && (second t =? s)
  | _ => false
  end.

Definition below (n : nat) : list nat := seq 0 n.

Definition sample_rec : record :=
  list_to_map
    [ ("rid", SText "X1"); ("first", SText "SOTON");
      ("second", SText "SOTPKWY"); ("planned_dep", SText "09:00");
      ("has_actual_dep", SInt 0) ].

Definition unique_keys (sch : table_schema) (rows : list srow) : Prop :=
  forall k, key_has_null k = false ->
    (List.length (rows_with_key sch rows k) <= 1)%nat.

(** What every step keeps true of the two prediction tables. *)
Definition db_unique (db : database) : Prop :=
  unique_keys predictions_schema (table_rows (predictions_all db))
  /\ unique_keys predictions_schema (table_rows (predictions_actual db)).

Definition db_grows (db db' : database) : Prop :=
  table_rows (predictions_all db) `prefix_of` table_rows (predictions_all db')
  /\ table_rows (predictions_actual db)
     `prefix_of` table_rows (predictions_actual db').

Definition db_step (db db' : database) : Prop :=
  db_grows db db' /\ (db_unique db -> db_unique db').

Definition replay_schedule (rec : record) : list store_op :=
  [CallInsertAll rec; CallInsertActual rec; WriterStep; WriterStep;
   CallInsertAll rec; CallInsertActual rec; WriterStep; WriterStep;
   CallClose true; WriterStep].

Definition sample_rec_null_dep : record :=
  list_to_map
    [ ("rid", SText "X1"); ("first", SText "SOTON");
      ("second", SText "SOTPKWY"); ("planned_dep", SNull);
      ("has_actual_dep", SInt 0) ].

(** Column names are distinct and no key column defaults to the clock. *)
Definition schema_ok (sch : table_schema) : bool :=
  bool_decide (NoDup (map col_name (ts_columns sch)))
  && forallb (fun col =>
                negb (bool_decide (col_name col ∈ ts_unique sch))
                || match col_default col with DefNow => false | _ => true end)
       (ts_columns sch).

Definition stored_value (coerce : affinity -> sqlval -> sqlval) (now : string)
    (rec : record) (col : column) : sqlval :=
  match rec !! col_name col with
  | Some v => coerce (col_aff col) v
  | None => eval_default now (col_default col)
  end.

(** The cells that DO UPDATE writes over [m]. *)
Definition set_cells (cs : gmap string sqlval) (cols : list string)
    (m : gmap string sqlval) : gmap string sqlval :=
  fold_right
    (fun c acc => if String.eqb c "id" then acc else <[c := cell cs c]> acc)
    m cols.

(** The enrichment scenario: R1 from WEYMTH to UPWEY, planned 10:05, with
    HSP reporting arrival planned 1012 and actual 1014 at UPW. *)
Definition sample_pred_row (dep : option string) : pred_row :=
  mk_pred_row (Some "R1") (Some "2025-03-01") (Some "WEYMTH") (Some "UPWEY")
    dep (SReal (3 # 2)).

Definition sample_hsp_index : gmap string hsp_row :=
  {[ "UPWEY" :=
       mk_hsp_row
         (list_to_map
            [ ("rid", Some "R1"); ("ssd", Some "2025-03-01");
              ("toc_code", Some "SW"); ("hsp_tpls", Some "UPW");
              ("tpl", Some "UPW"); ("pta", Some "1012");
              ("ata", Some "1014") ])
         (Some 0) ]}.

Definition sample_arrival_rec (dep : option string) : record :=
  match make_actual_arrival_record (sample_pred_row dep) sample_hsp_index
          (Some UTC) with
  | Ok (Some rec) => rec
  | _ => ∅
  end.

Definition upsert_or_same (now : string) (db : database) (rec : record)
  : database :=
  match upsert_actual_arrival coerce_id now db rec with
  | Ok db' => db'
  | Raise _ => db
  end.

(** One sub-model, artifact stored as a dict with a pipeline member, that
    predicts 5/2 for any row. *)
Definition sample_load (path : string) : res (artifact unit) :=
  if String.eqb path "SOTON_SOTPKWY_rf.joblib"
  then Ok (ArtDict {[ "pipeline" := mk_obj (Some (fun _ : unit => Ok (5 # 2))) ]})
  else Raise LoadError.

Definition sample_predictor (w : Q) : WeightedEnsemblePredictor unit :=
  mk_predictor {[ "SOTON_SOTPKWY" := [("rf", w)] ]} ∅.

Definition sample_features : features :=
  mk_features (4 # 1) (4 # 1) 1 "Thursday" 10 9 0 "Spring" 4 0.

Definition sample_build (s : segment) : res (option features) :=
  Ok (Some sample_features).

Definition sample_predict (first second : string) (f : features)
  : res (option Q) :=
  Ok (Some (3 # 2)).

(** A frame for service X1 with a confirmed departure from SOTON at 09:04. *)
Definition sample_forecasts : list row :=
  [ list_to_map [ ("rid", Some "X1"); ("ssd", Some "2025-04-10");
                  ("tpl", Some "SOTON"); ("ptd", Some "09:00");
                  ("atd", Some "09:04") ];
    list_to_map [ ("rid", Some "X1"); ("ssd", Some "2025-04-10");
                  ("tpl", Some "SOTPKWY"); ("pta", Some "09:15") ] ].

(** 2025-04-10 09:05:00 on the wall clock. *)
Definition sample_now : Z := 63879872700000000.

Definition sample_pass (c : RecentSegmentCache) (st : RealTimeSQLiteStore)
  : res (RecentSegmentCache * RealTimeSQLiteStore * list (segment * dispatch)) :=
  on_decoded sample_build sample_predict UTC sample_now c st sample_forecasts
    None.

Definition pass_cache
    (r : res (RecentSegmentCache * RealTimeSQLiteStore
              * list (segment * dispatch))) : RecentSegmentCache :=
  match r with
  | Ok (c, _, _) => c
  | Raise _ => RecentSegmentCache_new 0
  end.

Definition pass_store
    (r : res (RecentSegmentCache * RealTimeSQLiteStore
              * list (segment * dispatch))) : RealTimeSQLiteStore :=
  match r with
  | Ok (_, st, _) => st
  | Raise _ => RealTimeSQLiteStore_new new_database 0
  end.

Definition pass_dispatches
    (r : res (RecentSegmentCache * RealTimeSQLiteStore
              * list (segment * dispatch))) : list (segment * dispatch) :=
  match r with
  | Ok (_, _, ds) => ds
  | Raise _ => []
  end.

Definition sample_schedules (origin dest : string) : option (list row) :=
  Some [ list_to_map [ ("rid", Some "X1"); ("tpl", Some origin);
                       ("type", Some "OR") ];
         list_to_map [ ("rid", Some "X1"); ("tpl", Some dest);
                       ("type", Some "DT") ] ].

Definition clock_match (tz tz' : option tzinfo) : Prop :=
  match tz, tz' with
  | None, None => True
  | Some z, Some z' => same_tz z z' = true
  | _, _ => False
  end.

Definition keep_by_limits (dep_limit arr_limit : Z) (seg : segment) : bool :=
  match spec_timestamp (Seg.ssd seg) (Seg.planned_dep seg),
        spec_timestamp (Seg.ssd seg) (Seg.planned_arr_second seg) with
  | Some dep, Some arr =>
      (dep <=? dep_limit) && (arr_limit <=? spec_planned_arrival dep arr)
  | _, _ => false
  end.

Definition sample_segments : list segment :=
  match extract_segments sample_forecasts None (Some UTC) true with
  | Ok segs => map stash_planned_arr_second segs
  | Raise _ => []
  end.

(** The state that [touch] stores and returns: the departure time and kind of
    the call, the kind forced to "actual" by a confirmed departure, the tick
    of the call, and the [actual_saved] flag of the entry that was there. *)
Definition touched_state (c : RecentSegmentCache) (k : seg_id)
    (dep_time : option string) (kind : string) (has_actual : bool)
  : SegmentState :=
  mk_state dep_time (if has_actual then "actual" else kind)
    (match od_get (_od c) k with
     | Some e => actual_saved e
     | None => false
     end)
    (_tick c + 1).

(** The entries after a [touch] of [k], before eviction: the other keys in
    their order, then [k]. *)
Definition touched_entries (c : RecentSegmentCache) (k : seg_id)
    (st : SegmentState) : list (seg_id * SegmentState) :=
  (od_remove (_od c) k ++ [(k, st)])%list.

(** Queue items that carry a table name and a record. *)
Definition queued (items : list (string * record)) : list item :=
  map (fun p => (Some (fst p), Some (snd p))) items.

(** The writer's statements for [items] run in order on [db], the n-th
    statement reading the clock at n. *)
Fixpoint insert_items (coerce : affinity -> sqlval -> sqlval)
    (clock : nat -> string) (n : nat) (db : database)
    (items : list (string * record)) : res database :=
  match items with
  | [] => Ok db
  | (t, r) :: rest =>
      db' ← _insert_with_conn coerce (clock n) db t r;
      insert_items coerce clock (S n) db' rest
  end.

Definition sample_cache : RecentSegmentCache :=
  mk_cache 2
    [ ((Some "X1", "SOTON", "SOTPKWY", Some "09:00"),
       mk_state (Some "09:01") "estimate" false 1);
      ((Some "X2", "WEYMTH", "UPWEY", Some "10:05"),
       mk_state (Some "10:05") "estimate" false 2) ]
    2.

Definition sample_bad_rec : record :=
  list_to_map [ ("rid", SText "X1"); ("bogus", SText "z") ].

(** The queue respects the bound [m]. *)
Definition q_bounded (st : RealTimeSQLiteStore) (m : Z) : Prop :=
  queue_maxsize st = m /\ Z.of_nat (List.length (_q st)) <= m.

(** ** time_utils.diff_minutes_smart *)

Definition diff_minutes_smart (start end_ : option datetime)
  : res (option Q) :=
  match start, end_ with
  | Some s, Some e =>
      let e := match_awareness s e in
      lt ← dt_lt e s;
      e' ← (if lt : bool then dt_add e (timedelta_days 1) else Ok e);
      td ← dt_sub e' s;
      Ok (Some (minutes_of td))
  | _, _ => Ok None
  end.

(** Midnight that begins the service day [d] on the wall clock. *)
Definition day_start (d : string) : Z :=
  match Strptime.ymd d with
  | Ok dd => (toordinal dd - 1) * US_PER_DAY
  | Raise _ => 0
  end.

(** A string that [str.strip] leaves alone at its left end. *)
Definition starts_clean (s : string) : Prop :=
  match s with
  | String c _ => Py.isspace c = false
  | EmptyString => True
  end.

(** How the departure fields of one extracted record hang together. *)
Definition departure_fields_consistent (s : segment) : Prop :=
  Seg.has_actual_dep s = is_some (Seg.actual_dep_confirmed s)
  /\ (Seg.has_actual_dep s = true <-> Seg.dep_time_kind s = "actual")
  /\ (Seg.has_actual_dep s = true ->
      Seg.dep_time_for_prediction s = Seg.actual_dep_confirmed s)
  /\ (Seg.dep_time_kind s = "missing"
      <-> Seg.dep_time_for_prediction s = None)
  /\ (Seg.dep_time_kind s = "actual" \/ Seg.dep_time_kind s = "estimate"
      \/ Seg.dep_time_kind s = "missing")
  /\ Seg.dep_time_for_prediction s <> Some ""
  /\ Seg.planned_dep s <> Some ""
  /\ Seg.actual_dep_confirmed s <> Some "".

(** The dwell delay of a record: the departure delay at the first station of
    the route, departure minus arrival delay elsewhere. *)
Definition dwell_as_computed (s : segment) : Prop :=
  (Seg.first s = route_origin ->
   Seg.dwell_delay_min s = Seg.departure_delay_min s)
  /\ (Seg.first s <> route_origin ->
      Seg.dwell_delay_min s
      = match Seg.departure_delay_min s, Seg.arrival_delay_min s with
        | Some d, Some a => Some (d - a)%Q
        | _, _ => None
        end).

Definition delays_in_range (s : segment) : Prop :=
  (forall r, Seg.departure_delay_min s = Some r ->
     (-240 < r)%Q /\ (r <= 1200)%Q)
  /\ (forall r, Seg.arrival_delay_min s = Some r ->
        (-1200 <= r)%Q /\ (r <= 1200)%Q).

(** The forecast rows whose [tpl] is [tpl], in feed order. *)
Definition rows_for_tpl (tpl : string) (forecasts : list row) : list row :=
  List.filter (fun r => bool_decide (dict_get r "tpl" = Some tpl)) forecasts.

(** The vote of one tracked pair in the fallback direction check: the
    arrival's minutes of day at the second station minus the departure's at
    the first, moved up by a day when below -720; none when a location or a
    readable time is missing. *)
Definition pair_vote (by_tpl : gmap string row) (p : string * string)
  : option Q :=
  match by_tpl !! fst p, by_tpl !! snd p with
  | Some ra, Some rb =>
      if negb (row_truthy (Some ra)) || negb (row_truthy (Some rb)) then None
      else
        match parse_hms (_first_non_empty ra ["ptd"; "wtd"; "dep_et"; "dep_at"]),
              parse_hms (_first_non_empty rb
                           ["pta"; "wta"; "arr_et"; "arr_wet"; "arr_at"]) with
        | Ok (Some dt), Ok (Some at_) =>
            let delta := (minutes_of_day at_ - minutes_of_day dt)%Q in
            Some (if Qltb delta (- (720 # 1)) then (delta + (1440 # 1))%Q
                  else delta)
        | _, _ => None
        end
  | _, _ => None
  end.

Definition strong_reverse (d : Q) : bool :=
  Qltb d 0 && Qle_bool d (- (10 # 1)).

Definition votes_reverse (d : Q) : bool := Qltb d 0.

Definition count_votes (f : Q -> bool) (vs : list Q) : Z :=
  Z.of_nat (List.length (List.filter f vs)).

(** The outcome of a list of votes: one strong reverse vote decides; failing
    that, at least two votes with strictly more reverse than forward. *)
Definition vote_outcome (vs : list Q) : bool :=
  existsb strong_reverse vs
  || ((2 <=? Z.of_nat (List.length vs))
      && (count_votes (fun d => negb (votes_reverse d)) vs
          <? count_votes votes_reverse vs)).

Definition sample_reverse_forecasts : list row :=
  [ list_to_map [ ("rid", Some "X9"); ("ssd", Some "2025-04-10");
                  ("tpl", Some "SOTON"); ("ptd", Some "09:15") ];
    list_to_map [ ("rid", Some "X9"); ("ssd", Some "2025-04-10");
                  ("tpl", Some "SOTPKWY"); ("pta", Some "09:00") ] ].

(** The near-departure condition: the planned departure lies within the
    window. *)
Definition spec_near_departure (lo hi : Z) (seg : segment) : bool :=
  match spec_timestamp (Seg.ssd seg) (Seg.planned_dep seg) with
  | Some dep => (lo <=? dep) && (dep <=? hi)
  | None => false
  end.

(** ** Dates of timestamps

    [date.fromordinal] as the datetime module computes it: the 400-year
    cycle first, then centuries, four-year groups and single years within
    it, then the month by estimate and correction. *)

Definition DAYS_IN_MONTH (m : Z) : Z :=
  nth (Z.to_nat m) [0; 31; 28; 31; 30; 31; 30; 31; 31; 30; 31; 30; 31] 0.

Definition DAYS_BEFORE_MONTH (m : Z) : Z :=
  nth (Z.to_nat m) [0; 0; 31; 59; 90; 120; 151; 181; 212; 243; 273; 304; 334] 0.

(** Year within the cycle (counted from 1), month and day for a day number
    [n] within the cycle (counted from 0). *)
Definition ord2ymd_in_cycle (n : Z) : Z * Z * Z :=
  let n100 := n / 36524 in
  let n := n mod 36524 in
  let n4 := n / 1461 in
  let n := n mod 1461 in
  let n1 := n / 365 in
  let n := n mod 365 in
  let year := 1 + n100 * 100 + n4 * 4 + n1 in
  if (n1 =? 4) || (n100 =? 4) then (year - 1, 12, 31)
  else
    let leapyear := (n1 =? 3) && (negb (n4 =? 24) || (n100 =? 3)) in
    let month := Z.shiftr (n + 50) 5 in
    let preceding :=
      DAYS_BEFORE_MONTH month + (if (2 <? month) && leapyear then 1 else 0) in
    if n <? preceding then
      let month := month - 1 in
      let preceding :=
        preceding
        - (DAYS_IN_MONTH month + (if (month =? 2) && leapyear then 1 else 0)) in
      (year, month, n - preceding + 1)
    else (year, month, n - preceding + 1).

Definition fromordinal (n : Z) : date :=
  let n := n - 1 in
  let n400 := n / 146097 in
  let '(y, m, d) := ord2ymd_in_cycle (n mod 146097) in
  mk_date (n400 * 400 + y) m d.

#[global] Instance date_eq_dec : EqDecision date.
Proof. solve_decision. Defined.

(** [dt.date()] and [dt.hour] *)
Definition dt_date (dt : datetime) : date :=
  fromordinal (wall dt / US_PER_DAY + 1).

Definition dt_hour (dt : datetime) : Z :=
  (wall dt mod US_PER_DAY) / US_PER_HOUR.

(** [d.weekday()], Monday being 0, and [d.strftime("%A")] in the C locale. *)
Definition weekday (d : date) : Z := (toordinal d + 6) mod 7.

Definition strftime_A (d : date) : string :=
  nth (Z.to_nat (weekday d))
    ["Monday"; "Tuesday"; "Wednesday"; "Thursday"; "Friday"; "Saturday";
     "Sunday"] "".

(** [d.replace(year=y)] *)
Definition date_replace_year (d : date) (y : Z) : res date :=
  date_new y (month d) (day d).

(** [a <= b] on dates *)
Definition date_le (a b : date) : bool :=
  (year a <? year b)
  || ((year a =? year b)
      && ((month a <? month b)
          || ((month a =? month b) && (day a <=? day b)))).

(** ** features/time_features.py *)

Definition Y : Z := 2000.

Definition SEASONS : list (string * (date * date)) :=
  [ ("Winter", (mk_date Y 1 1, mk_date Y 3 20));
    ("Spring", (mk_date Y 3 21, mk_date Y 6 20));
    ("Summer", (mk_date Y 6 21, mk_date Y 9 22));
    ("Autumn", (mk_date Y 9 23, mk_date Y 12 20));
    ("Winter", (mk_date Y 12 21, mk_date Y 12 31)) ].

Fixpoint season_loop (d2 : date) (seasons : list (string * (date * date)))
  : string :=
  match seasons with
  | [] => "Winter"
  | (season, (start, end_)) :: rest =>
      if date_le start d2 && date_le d2 end_ then season
      else season_loop d2 rest
  end.

Definition _get_season (d : date) : res string :=
  d2 ← date_replace_year d Y;
  Ok (season_loop d2 SEASONS).

Module TF.

Record TimeFeatures : Type := mk_time_features {
  peak : Z;
  day_of_week : string;
  day_of_month : Z;
  hour_of_day : Z;
  weekend : Z;
  season : string;
  month : Z;
  holiday : Z
}.

End TF.

(** The extractor holds the holiday calendar, or None when the holidays
    library is missing or rejects the region. *)
Record TimeFeatureExtractor : Type := mk_extractor {
  _holiday_calendar : option (date -> bool)
}.

Definition is_holiday (tx : TimeFeatureExtractor) (d : date) : Z :=
  match _holiday_calendar tx with
  | None => 0
  | Some cal => if cal d then 1 else 0
  end.

Definition weekend_flag (day_of_week : string) : Z :=
  if String.eqb day_of_week "Saturday" || String.eqb day_of_week "Sunday"
  then 1 else 0.

Definition peak_flag (hour_of_day weekend : Z) : Z :=
  if weekend =? 1 then 0
  else if (6 <? hour_of_day) && (hour_of_day <? 10) then 1
  else if (16 <=? hour_of_day) && (hour_of_day <=? 19) then 1
  else 0.

(** The argument of [extract]: a datetime, a date, or the None that
    [build] passes on when the anchor could not be combined. *)
Inductive when : Type :=
| WhenDatetime (dt : datetime)
| WhenDate (d : date)
| WhenNone.

Definition extract (tx : TimeFeatureExtractor) (dt : when)
  : res TF.TimeFeatures :=
  dh ← match dt with
       | WhenDatetime x => Ok (dt_date x, dt_hour x)
       | WhenDate d => Ok (d, 0)
       | WhenNone => Raise AttributeError
       end;
  let d := fst dh in
  let hour := snd dh in
  let day_of_week := strftime_A d in
  let weekend := weekend_flag day_of_week in
  let peak := peak_flag hour weekend in
  season ← _get_season d;
  let holiday := is_holiday tx d in
  Ok (TF.mk_time_features peak day_of_week (day d) hour weekend season
        (month d) holiday).

(** ** features/segment_features.py *)

Record SegmentFeatureBuilder : Type := mk_builder {
  _time_extractor : TimeFeatureExtractor;
  _tz : option tzinfo
}.

Definition build (b : SegmentFeatureBuilder) (segment_ : segment)
  : res (option features) :=
  let ssd := Seg.ssd segment_ in
  let planned_dep := Seg.planned_dep segment_ in
  match ssd with
  | Some d =>
      if negb (truthy ssd) || negb (truthy planned_dep) then Ok None
      else
        dep_anchor_dt ← combine_date_time_smart d planned_dep None (_tz b)
                           default_rollover_threshold;
        tf ← extract (_time_extractor b)
                (match dep_anchor_dt with
                 | Some dt => WhenDatetime dt
                 | None => WhenNone
                 end);
        match Seg.departure_delay_min segment_ with
        | None => Ok None
        | Some dep_delay =>
            let dwell_delay := default 0%Q (Seg.dwell_delay_min segment_) in
            Ok (Some (mk_features dep_delay dwell_delay (TF.peak tf)
                        (TF.day_of_week tf) (TF.day_of_month tf)
                        (TF.hour_of_day tf) (TF.weekend tf) (TF.season tf)
                        (TF.month tf) (TF.holiday tf)))
        end
  | None => Ok None
  end.

(** ** Auxiliary notions of the feature proofs *)

(** The season by month and day of month. *)
Definition season_of (m d : Z) : string :=
  if (m <? 3) || ((m =? 3) && (d <=? 20)) then "Winter"
  else if (m <? 6) || ((m =? 6) && (d <=? 20)) then "Spring"
  else if (m <? 9) || ((m =? 9) && (d <=? 22)) then "Summer"
  else if (m <? 12) || ((m =? 12) && (d <=? 20)) then "Autumn"
  else "Winter".

Definition zrange (lo : Z) (n : nat) : list Z :=
  map (fun i => lo + Z.of_nat i) (seq 0 n).

(** The calendar features of the service date [dd] with the hour of the
    planned departure [tm]. *)
Definition calendar_features (tx : TimeFeatureExtractor) (dd : date)
    (tm : time) (dep_delay dwell_delay : Q) : features :=
  let dow := strftime_A dd in
  mk_features dep_delay dwell_delay (peak_flag (hour tm) (weekend_flag dow))
    dow (day dd) (hour tm) (weekend_flag dow) (season_of (month dd) (day dd))
    (month dd) (is_holiday tx dd).

Definition sample_builder : SegmentFeatureBuilder :=
  mk_builder (mk_extractor None) (Some UTC).

(** A conversion by type affinity keeps NULL and only NULL as NULL. *)
Definition coerce_keeps_null (coerce : affinity -> sqlval -> sqlval) : Prop :=
  forall a v, is_null (coerce a v) = is_null v.

(** The two prediction tables exist. *)
Definition prediction_tables_exist (db : database) : Prop :=
  is_some (predictions_all db) = true
  /\ is_some (predictions_actual db) = true.

Definition sample_two_models (path : string) : res (artifact unit) :=
  if String.eqb path "SOTON_SOTPKWY_rf.joblib"
  then Ok (ArtDict {[ "pipeline" := mk_obj (Some (fun _ : unit => Ok (2 # 1))) ]})
  else if String.eqb path "SOTON_SOTPKWY_xgb.joblib"
  then Ok (ArtObj (mk_obj (Some (fun _ : unit => Ok (6 # 1)))))
  else Raise LoadError.

Definition sample_two_predictor : WeightedEnsemblePredictor unit :=
  mk_predictor {[ "SOTON_SOTPKWY" := [("rf", 1 # 4); ("xgb", 3 # 4)] ]} ∅.

(** ** darwin/station_pairs.py: the route and its lookup dicts *)

Definition PAIR_SET : gset (string * string) := list_to_set STATION_PAIRS.

Definition is_tracked_pair (a b : string) : bool :=
  bool_decide ((a, b) ∈ PAIR_SET).

(** The body of [iter_route_tiploc2s] over the pair list it reads: the first
    pair's origin, then every pair's destination. *)
Definition route_of_pairs (pairs : list (string * string)) : list string :=
  match pairs with
  | [] => []
  | p0 :: _ => fst p0 :: map snd pairs
  end.

Definition iter_route_tiploc2s : list string := route_of_pairs STATION_PAIRS.

Definition TIPLOC2_ROUTE : list string := iter_route_tiploc2s.

(** The four dicts that [route_maps] returns. *)
Record route_dicts : Type := mk_route_dicts {
  tiploc2_to_crs : gmap string (option string);
  tiploc2_to_name : gmap string (option string);
  tiploc2_to_tiploc : gmap string (option string);
  crs_to_tiploc2 : gmap string string
}.

(** One turn of [for t2, crs, name, tp in zip(...)] *)
Definition route_maps_step (m : route_dicts)
    (x : string * (option string * (option string * option string)))
  : route_dicts :=
  let '(t2, (crs, (name, tp))) := x in
  mk_route_dicts
    (<[t2 := crs]> (tiploc2_to_crs m))
    (<[t2 := name]> (tiploc2_to_name m))
    (<[t2 := tp]> (tiploc2_to_tiploc m))
    (match crs with
     | Some c =>
         if truthy crs && negb (bool_decide (is_Some (crs_to_tiploc2 m !! c)))
         then <[c := t2]> (crs_to_tiploc2 m)
         else crs_to_tiploc2 m
     | None => crs_to_tiploc2 m
     end).

Section RouteMaps.

(** The lookups of utils/station_lookup.py into the station table, which is
    read once and then fixed. *)
Variable get_crs_by_tiploc2 : string -> option string.
Variable get_name_by_tiploc2 : string -> option string.
Variable get_tiploc_by_tiploc2 : string -> option string.

Definition route_crss : list (option string) :=
  map get_crs_by_tiploc2 TIPLOC2_ROUTE.

Definition route_names : list (option string) :=
  map get_name_by_tiploc2 TIPLOC2_ROUTE.

Definition route_tiplocs : list (option string) :=
  map get_tiploc_by_tiploc2 TIPLOC2_ROUTE.

Definition route_maps : route_dicts :=
  let crss := route_crss in
  let names := route_names in
  let tiplocs := route_tiplocs in
  fold_left route_maps_step
    (zip TIPLOC2_ROUTE (zip crss (zip names tiplocs)))
    (mk_route_dicts ∅ ∅ ∅ ∅).

Definition CRSS : list (option string) := route_crss.

Definition TIPLOC2_TO_CRS : gmap string (option string) :=
  tiploc2_to_crs route_maps.

Definition TIPLOC2_TO_NAME : gmap string (option string) :=
  tiploc2_to_name route_maps.

Definition TIPLOC2_TO_TIPLOC : gmap string (option string) :=
  tiploc2_to_tiploc route_maps.

Definition CRS_TO_TIPLOC2 : gmap string string :=
  crs_to_tiploc2 route_maps.

End RouteMaps.

(** The first station of a list whose CRS is [c]. *)
Definition first_with_crs (get_crs : string -> option string) (c : string)
    (route : list string) : option string :=
  find (fun t2 => bool_decide (get_crs t2 = Some c)) route.

(** Each pair starts where the one before it ended. *)
Definition chained (pairs : list (string * string)) : Prop :=
  forall i p q, pairs !! i = Some p -> pairs !! S i = Some q -> snd p = fst q.

(** ** hsp/parser.py

    The decoded JSON is modelled as far as the parser looks into it.  Where
    it expects a string it may find None, a str, or any other object, of
    which it uses only what [str()] gives. *)

Module Hsp.

Inductive pyval : Type :=
| PNone
| PStr (s : string)
| POther (str_ : string).

(** An element of the locations list: a dict, or anything else. *)
Inductive location : Type :=
| LocDict (d : gmap string pyval)
| LocOther.

(** What [sad.get("locations")] finds: a list, a falsy object that is not a
    list (None when the key is missing), or a truthy object that is not a
    list. *)
Inductive locations_value : Type :=
| LocsList (l : list location)
| LocsFalsy
| LocsTruthy.

(** What [payload.get("serviceAttributesDetails")] finds: a dict, with its
    entries other than "locations" and its "locations" entry, or anything
    else. *)
Inductive sad_value : Type :=
| SadDict (fields : gmap string pyval) (locations : locations_value)
| SadOther.

(** [d.get(k)] *)
Definition pget (d : gmap string pyval) (k : string) : pyval :=
  default PNone (d !! k).

Definition _clean_str (v : pyval) : option string :=
  match v with
  | PNone => None
  | PStr v =>
      let s := Py.strip v in
      if String.eqb s "" then None else Some s
  | POther str_ =>
      let s := Py.strip str_ in
      if String.eqb s "" then None else Some s
  end.

Definition _pick_time_hhmm (v : pyval) : option string := _clean_str v.

(** Python compares strings by code point. *)
Definition string_le (a b : string) : Prop := String.leb a b = true.

#[global] Instance string_le_dec (a b : string) : Decision (string_le a b).
Proof. unfold string_le. apply _. Defined.

(** [sorted(s)] for a set of strings *)
Definition sorted (s : gset string) : list string :=
  merge_sort string_le (elements s).

Section Parser.

(** [CRS_TO_TIPLOC2] and [CRSS] of darwin/station_pairs.py *)
Variable CRS_TO_TIPLOC2 : gmap string string.
Variable CRSS : list (option string).

Definition _route_crs_set : gset string :=
  list_to_set
    (omap (fun c : option string =>
             match c with
             | Some s => if String.eqb (Py.strip s) "" then None else Some s
             | None => None
             end) CRSS).

(** The first loop over [locs]: the CRS codes seen. *)
Definition seen_crs_loop (locs : list location) (seen_crs : gset string)
  : gset string :=
  fold_left
    (fun seen loc =>
       match loc with
       | LocDict d =>
           match _clean_str (pget d "location") with
           | Some crs => if truthy (Some crs) then {[ crs ]} ∪ seen else seen
           | None => seen
           end
       | LocOther => seen
       end) locs seen_crs.

(** The dict [item] built for one location. *)
Definition make_item (base : row) (loc : gmap string pyval) (tpl : string)
  : row :=
  let item := base in
  let item := <["tpl" := Some tpl]> item in
  let item := <["pta" := _pick_time_hhmm (pget loc "gbtt_pta")]> item in
  let item := <["ptd" := _pick_time_hhmm (pget loc "gbtt_ptd")]> item in
  let item := <["ata" := _pick_time_hhmm (pget loc "actual_ta")]> item in
  let item := <["atd" := _pick_time_hhmm (pget loc "actual_td")]> item in
  let item :=
    <["late_canc_reason" := _clean_str (pget loc "late_canc_reason")]> item in
  let t2 := CRS_TO_TIPLOC2 !! tpl in
  let item := if truthy t2 then <["tiploc2" := t2]> item else item in
  let item := <["hsp_location" := Some tpl]> item in
  let item :=
    <["hsp_gbtt_pta" := _pick_time_hhmm (pget loc "gbtt_pta")]> item in
  let item :=
    <["hsp_gbtt_ptd" := _pick_time_hhmm (pget loc "gbtt_ptd")]> item in
  let item :=
    <["hsp_actual_ta" := _pick_time_hhmm (pget loc "actual_ta")]> item in
  let item :=
    <["hsp_actual_td" := _pick_time_hhmm (pget loc "actual_td")]> item in
  item.

(** The second loop over [locs]: the rows appended to [out]. *)
Definition out_loop (base : row) (is_main_journey : Z)
    (locs : list location) : list hsp_row :=
  omap
    (fun loc =>
       match loc with
       | LocDict d =>
           match _clean_str (pget d "location") with
           | Some tpl =>
               if truthy (Some tpl)
               then Some (mk_hsp_row (make_item base d tpl)
                            (Some is_main_journey))
               else None
           | None => None
           end
       | LocOther => None
       end) locs.

Definition extract_service_locations (payload : gmap string sad_value)
  : list hsp_row :=
  match payload !! "serviceAttributesDetails" with
  | Some (SadDict sad locations) =>
      let rid := _clean_str (pget sad "rid") in
      if negb (truthy rid) then []
      else
        let ssd := _clean_str (pget sad "date_of_service") in
        let toc_code := _clean_str (pget sad "toc_code") in
        match locations with
        | LocsTruthy => []
        | _ =>
            let locs := match locations with
                        | LocsList l => l
                        | _ => []
                        end in
            let route_crs := _route_crs_set in
            let seen_crs := seen_crs_loop locs ∅ in
            let is_main_journey :=
              if negb (bool_decide (route_crs = ∅))
                 && bool_decide (route_crs ⊆ seen_crs)
              then 1 else 0 in
            let hsp_tpls := String.concat "," (sorted seen_crs) in
            let base : row :=
              list_to_map
                [ ("rid", rid); ("ssd", ssd); ("toc_code", toc_code);
                  ("hsp_tpls", Some hsp_tpls) ] in
            out_loop base is_main_journey locs
        end
  | _ => []
  end.

End Parser.

End Hsp.

(** ** dao/actual_arrivals_hsp.py: the HSP index *)

Definition _crs_to_tiploc2 (CRS_TO_TIPLOC2 : gmap string string)
    (crs : option string) : option string :=
  match crs with
  | Some c => if negb (truthy crs) then None else CRS_TO_TIPLOC2 !! c
  | None => None
  end.

Definition build_hsp_index_by_tiploc2 (CRS_TO_TIPLOC2 : gmap string string)
    (hsp_rows : list hsp_row) : gmap string hsp_row :=
  fold_left
    (fun out r =>
       let crs := _clean_str (dict_get (hsp_fields r) "tpl") in
       let t2 := _crs_to_tiploc2 CRS_TO_TIPLOC2 crs in
       match t2 with
       | Some k => if truthy t2 then <[k := r]> out else out
       | None => out
       end) hsp_rows ∅.

(** The station a row of the HSP index is filed under. *)
Definition row_tiploc2 (CRS_TO_TIPLOC2 : gmap string string) (r : hsp_row)
  : option string :=
  _crs_to_tiploc2 CRS_TO_TIPLOC2 (_clean_str (dict_get (hsp_fields r) "tpl")).

(** The CRS code the parser reads off one element of the locations list. *)
Definition location_crs (loc : Hsp.location) : option string :=
  match loc with
  | Hsp.LocDict d => Hsp._clean_str (Hsp.pget d "location")
  | Hsp.LocOther => None
  end.

(** The rows of a list that the index files under station [t2]. *)
Definition rows_filed_under (CRS_TO_TIPLOC2 : gmap string string)
    (t2 : string) (hsp_rows : list hsp_row) : list hsp_row :=
  List.filter (fun r => bool_decide (row_tiploc2 CRS_TO_TIPLOC2 r = Some t2))
    hsp_rows.

(** The HSP answer for service R1, which calls at Weymouth and at Upwey. *)
Definition sample_payload : gmap string Hsp.sad_value :=
  {[ "serviceAttributesDetails" :=
       Hsp.SadDict
         (list_to_map [ ("rid", Hsp.PStr "R1");
                        ("date_of_service", Hsp.PStr "2025-03-01");
                        ("toc_code", Hsp.PStr "SW") ])
         (Hsp.LocsList
            [ Hsp.LocDict (list_to_map
                [ ("location", Hsp.PStr "WEY"); ("gbtt_ptd", Hsp.PStr "1005");
                  ("gbtt_pta", Hsp.PStr ""); ("actual_td", Hsp.PStr "1006");
                  ("actual_ta", Hsp.PStr "") ]);
              Hsp.LocOther;
              Hsp.LocDict (list_to_map
                [ ("location", Hsp.PStr " UPW "); ("gbtt_ptd", Hsp.PStr "1013");
                  ("gbtt_pta", Hsp.PStr "1012"); ("actual_td", Hsp.PStr "1015");
                  ("actual_ta", Hsp.PStr "1014") ]) ]) ]}.

(** A station table that knows the first two stations of the route. *)
Definition sample_get_crs (tiploc2 : string) : option string :=
  if String.eqb tiploc2 "WEYMTH" then Some "WEY"
  else if String.eqb tiploc2 "UPWEY" then Some "UPW"
  else None.

Definition sample_crs_to_tiploc2 : gmap string string :=
  CRS_TO_TIPLOC2 sample_get_crs (fun _ => None) (fun _ => None).

Definition sample_hsp_rows : list hsp_row :=
  Hsp.extract_service_locations sample_crs_to_tiploc2 (CRSS sample_get_crs)
    sample_payload.

(** The value a call returned, if it returned one. *)
Definition res_value {A : Type} (r : res (option A)) : option A :=
  match r with Ok v => v | Raise _ => None end.

Definition sample_enriched_rec : record :=
  match make_actual_arrival_record (sample_pred_row (Some "10:05"))
          (build_hsp_index_by_tiploc2 sample_crs_to_tiploc2 sample_hsp_rows)
          (Some UTC) with
  | Ok (Some rec) => rec
  | _ => ∅
  end.
Example parse_hms_0943 : parse_hms (Some "09:43") = Ok (Some (mk_time 9 43 0)).
Proof. reflexivity. Qed.

Example parse_hms_094730 :
  parse_hms (Some "09:47:30") = Ok (Some (mk_time 9 47 30)).
Proof. reflexivity. Qed.

Example parse_hms_hhmm : parse_hms (Some "0943") = Ok None.
Proof. reflexivity. Qed.

Example parse_hms_big : parse_hms (Some "99999999999:00") = Raise OverflowError.
Proof. reflexivity. Qed.

Example ymd_ok : Strptime.ymd "2025-04-10" = Ok (mk_date 2025 4 10).
Proof. reflexivity. Qed.

Example ymd_short : Strptime.ymd "2025-4-1" = Ok (mk_date 2025 4 1).
Proof. reflexivity. Qed.

Example ymd_feb29 : Strptime.ymd "2025-02-29" = Raise ValueError.
Proof. reflexivity. Qed.

Example ordinal_max : toordinal (mk_date 9999 12 31) = 3652059.
Proof. reflexivity. Qed.

Example ordinal_2025 : toordinal (mk_date 2025 4 10) = 739351.
Proof. reflexivity. Qed.

(** * Properties *)

(** ** Wrap-safe minute differences *)

Lemma Qltb_true (a b : Q) : Qltb a b = true <-> (a < b)%Q.
Proof.
  unfold Qltb. rewrite negb_true_iff. split.
  - intros H. apply Qnot_le_lt. intros Hle.
    apply Qle_bool_iff in Hle. congruence.
  - intros H. destruct (Qle_bool b a) eqn:E; [|reflexivity].
    apply Qle_bool_iff in E. exfalso. apply (Qlt_not_le _ _ H E).
Qed.

Lemma Qltb_false (a b : Q) : Qltb a b = false <-> (b <= a)%Q.
Proof.
  unfold Qltb. rewrite negb_false_iff. apply Qle_bool_iff.
Qed.

Lemma match_awareness_operands (ref x : datetime) :
  exists p, dt_operands (match_awareness ref x) ref = Ok p.
Proof.
  unfold match_awareness, dt_operands, replace_tzinfo.
  destruct ref as [wr [tr|]], x as [wx [tx|]]; simpl; eauto.
  - destruct (same_tz tx tr); eauto.
  - unfold same_tz. rewrite String.eqb_refl. eauto.
Qed.

Lemma dt_sub_matched (p a : datetime) :
  dt_sub (match_awareness p a) p = Ok (raw_difference p a).
Proof.
  unfold dt_sub, raw_difference.
  destruct (match_awareness_operands p a) as [q ->]. reflexivity.
Qed.

Lemma diff_minutes_wrap_eq (p a : datetime) :
  diff_minutes_wrap (Some p) (Some a)
  = Ok (Some (wrap_minutes (minutes_of (raw_difference p a)))).
Proof.
  unfold diff_minutes_wrap. rewrite dt_sub_matched. reflexivity.
Qed.

Lemma wrap_minutes_cases (raw : Q) :
  ((1200 < raw)%Q /\ (wrap_minutes raw == raw - 1440)%Q)
  \/ ((raw < -1200)%Q /\ (wrap_minutes raw == raw + 1440)%Q)
  \/ ((-1200 <= raw)%Q /\ (raw <= 1200)%Q /\ (wrap_minutes raw == raw)%Q).
Proof.
  unfold wrap_minutes.
  destruct (Qltb (1200 # 1) raw) eqn:E1.
  - apply Qltb_true in E1. left. split; [exact E1|].
    destruct (Qltb (raw - (1440 # 1)) (- (1200 # 1))) eqn:E2.
    + apply Qltb_true in E2. exfalso. lra.
    + reflexivity.
  - apply Qltb_false in E1.
    destruct (Qltb raw (- (1200 # 1))) eqn:E2.
    + apply Qltb_true in E2. right. left. split; [lra|reflexivity].
    + apply Qltb_false in E2. right. right. repeat split; try lra.
Qed.

(** C5 (as amended).  [diff_minutes_wrap] always returns: the raw difference
    in minutes, less 1440 when it exceeds 1200 and plus 1440 when it is below
    -1200.  When the raw difference is within 720 minutes in absolute value
    the result is the raw difference, itself within 720; and the result lies
    in the closed interval from -1200 to 1200 exactly when the raw difference
    is within 2640 minutes in absolute value. *)
Theorem diff_minutes_wrap_range (planned actual : datetime) :
  let raw := minutes_of (raw_difference planned actual) in
  exists r,
    diff_minutes_wrap (Some planned) (Some actual) = Ok (Some r)
    /\ ((1200 < raw)%Q -> (r == raw - 1440)%Q)
    /\ ((raw < -1200)%Q -> (r == raw + 1440)%Q)
    /\ ((-1200 <= raw)%Q -> (raw <= 1200)%Q -> (r == raw)%Q)
    /\ ((-720 <= raw)%Q -> (raw <= 720)%Q ->
        (r == raw)%Q /\ (-720 <= r)%Q /\ (r <= 720)%Q)
    /\ (((-1200 <= r)%Q /\ (r <= 1200)%Q)
        <-> ((-2640 <= raw)%Q /\ (raw <= 2640)%Q)).
Proof.
  intros raw. exists (wrap_minutes raw). split.
  - apply diff_minutes_wrap_eq.
  - destruct (wrap_minutes_cases raw) as [[H1 H2]|[[H1 H2]|[H1 [H2 H3]]]];
      repeat split; intros; try lra.
Qed.

(** Planned 2025-04-10 00:00 and an actual 3000 minutes later: the raw
    difference is beyond 720 minutes and the result, 1560, is above 1200.
    Planned 2025-04-10 20:00 and an actual 1200 minutes earlier: the result
    is -1200, not above -1200. *)
Lemma diff_minutes_wrap_leaves_interval :
  let planned := mk_dt 63879840000000000 None in
  let late := mk_dt (63879840000000000 + 3000 * US_PER_MINUTE) None in
  let planned' := mk_dt (63879840000000000 + 1200 * US_PER_MINUTE) None in
  (exists r, diff_minutes_wrap (Some planned) (Some late) = Ok (Some r)
             /\ (r == 1560)%Q /\ ~ (r <= 1200)%Q
             /\ ~ (minutes_of (raw_difference planned late) <= 720)%Q)
  /\ (exists r, diff_minutes_wrap (Some planned') (Some planned) = Ok (Some r)
                /\ (r == -1200)%Q /\ ~ (-1200 < r)%Q
                /\ ~ (-720 <= minutes_of (raw_difference planned' planned))%Q).
Proof.
  split; eexists; (split; [vm_compute; reflexivity|]);
    repeat split; unfold Qeq, Qle, Qlt; vm_compute; try reflexivity;
    try (intros H; discriminate H); intros H; apply H; reflexivity.
Qed.

(** ** The clock parser *)

Lemma split_length (c : ascii) (s : string) :
  List.length (Py.split c s) = S (count_char c s).
Proof.
  induction s as [|a s IH]; simpl; [reflexivity|].
  destruct (Ascii.eqb a c); simpl.
  - now rewrite IH.
  - destruct (Py.split c s) eqn:E; simpl in *; [discriminate|exact IH].
Qed.

Lemma colon_not_space (a : ascii) :
  Ascii.eqb a ":" = true -> Py.isspace a = false.
Proof. intros H. apply Ascii.eqb_eq in H. subst a. reflexivity. Qed.

Lemma count_colon_lstrip (s : string) :
  count_char ":" (Py.lstrip s) = count_char ":" s.
Proof.
  induction s as [|a s IH]; simpl; [reflexivity|].
  destruct (Py.isspace a) eqn:E; [|reflexivity].
  rewrite IH. destruct (Ascii.eqb a ":") eqn:E2; [|reflexivity].
  apply colon_not_space in E2. congruence.
Qed.

Lemma count_colon_rstrip (s : string) :
  count_char ":" (Py.rstrip s) = count_char ":" s.
Proof.
  induction s as [|a s IH]; simpl; [reflexivity|].
  destruct (Py.rstrip s) eqn:E.
  - simpl in IH. rewrite <- IH.
    destruct (Py.isspace a) eqn:E1; simpl.
    + destruct (Ascii.eqb a ":") eqn:E2; [|reflexivity].
      apply colon_not_space in E2. congruence.
    + lia.
  - simpl. simpl in IH. now rewrite IH.
Qed.

Lemma count_colon_strip (s : string) :
  count_char ":" (Py.strip s) = count_char ":" s.
Proof.
  unfold Py.strip. now rewrite count_colon_rstrip, count_colon_lstrip.
Qed.

(** Anything but one or two colons after stripping: not-present. *)
Lemma parse_hms_colon_count (s : string) :
  count_char ":" s <> 1%nat -> count_char ":" s <> 2%nat ->
  parse_hms (Some s) = Ok None.
Proof.
  intros H1 H2. unfold parse_hms.
  destruct (String.eqb s ""); [reflexivity|].
  destruct (String.eqb (Py.strip s) ""); [reflexivity|].
  pose proof (split_length ":" (Py.strip s)) as L.
  rewrite count_colon_strip in L.
  destruct (Py.split ":" (Py.strip s)) as [|a [|b [|c [|d l]]]];
    simpl in L; try reflexivity; lia.
Qed.

Lemma digit_no_colon (a : ascii) :
  Py.is_digit a = true -> Ascii.eqb a ":" = false.
Proof.
  intros H. destruct (Ascii.eqb a ":") eqn:E; [|reflexivity].
  apply Ascii.eqb_eq in E. subst a. discriminate H.
Qed.

Lemma all_digits_no_colon (s : string) :
  Py.all_chars Py.is_digit s = true -> count_char ":" s = 0%nat.
Proof.
  induction s as [|a s IH]; simpl; [reflexivity|].
  intros H. apply andb_true_iff in H as [Ha Hs].
  rewrite (digit_no_colon a Ha). simpl. auto.
Qed.

(** A string of digits only, HHMM included, is not a clock. *)
Lemma parse_hms_digits_only (s : string) :
  Py.all_chars Py.is_digit s = true -> parse_hms (Some s) = Ok None.
Proof.
  intros H. apply parse_hms_colon_count;
    rewrite (all_digits_no_colon s H); discriminate.
Qed.

Lemma is_digit_range (c : ascii) :
  Py.is_digit c = true -> 0 <= Py.digit c <= 9.
Proof.
  unfold Py.is_digit, Py.digit. intros H.
  apply andb_true_iff in H as [H1 H2]. lia.
Qed.

Lemma int_digits_bound (k : nat) :
  forall s acc n v n' rest,
    (String.length s <= k)%nat ->
    Py.int_digits s acc n = Some (v, n', rest) ->
    0 <= acc < 10 ^ Z.of_nat n ->
    0 <= v < 10 ^ (Z.of_nat n + Z.of_nat (String.length s)).
Proof.
  induction k as [|k IH]; intros s acc n v n' rest Hk H Hacc.
  - destruct s; simpl in Hk; [|lia]. simpl in H. inversion H; subst.
    simpl. now rewrite Z.add_0_r.
  - destruct s as [|c s].
    + simpl in H. inversion H; subst. simpl. now rewrite Z.add_0_r.
    + simpl in Hk. simpl in H.
      assert (Hstep : forall d, 0 <= d <= 9 ->
                0 <= 10 * acc + d < 10 ^ Z.of_nat (S n)).
      { intros d Hd. rewrite Nat2Z.inj_succ, Z.pow_succ_r by lia. lia. }
      assert (Hmono : forall a b, 0 <= a <= b -> 10 ^ a <= 10 ^ b).
      { intros a b Hab. apply Z.pow_le_mono_r; lia. }
      destruct (Py.is_digit c) eqn:Ec.
      * pose proof (IH s _ _ _ _ _ ltac:(lia) H
                      (Hstep _ (is_digit_range c Ec))) as B.
        replace (Z.of_nat n + Z.of_nat (String.length (String c s)))
          with (Z.of_nat (S n) + Z.of_nat (String.length s))
          by (simpl String.length; lia).
        exact B.
      * destruct (Ascii.eqb c "_").
        -- destruct s as [|d s]; [discriminate|].
           destruct (Py.is_digit d) eqn:Ed; [|discriminate].
           simpl in Hk.
           pose proof (IH s _ _ _ _ _ ltac:(lia) H
                         (Hstep _ (is_digit_range d Ed))) as B.
           split; [lia|].
           eapply Z.lt_le_trans; [apply B|]. apply Hmono.
           simpl String.length. lia.
        -- inversion H; subst. split; [lia|].
           eapply Z.lt_le_trans; [apply Hacc|]. apply Hmono. lia.
Qed.

Lemma skip_int_space_length (s : string) :
  (String.length (Py.skip_int_space s) <= String.length s)%nat.
Proof.
  induction s as [|c s IH]; simpl; [lia|].
  destruct (Py.int_space c); simpl; lia.
Qed.

(** A literal of [n] characters denotes an integer below [10 ^ n] in
    absolute value. *)
Lemma int_bound (s : string) (v : Z) :
  Py.int s = Ok v -> Z.abs v < 10 ^ Z.of_nat (String.length s).
Proof.
  unfold Py.int. intros H.
  pose proof (skip_int_space_length s) as L.
  set (s1 := Py.skip_int_space s) in *.
  assert (Hmono : forall a b, 0 <= a <= b -> 10 ^ a <= 10 ^ b).
  { intros a b Hab. apply Z.pow_le_mono_r; lia. }
  assert (Core : forall (neg : bool) s2,
    (String.length s2 <= String.length s)%nat ->
    match s2 with
    | String c r =>
        if Py.is_digit c then
          match Py.int_digits r (Py.digit c) 1 with
          | Some (v, n, rest) =>
              if Py.all_chars Py.int_space rest then
                if (Py.int_max_str_digits <? n)%nat then Raise ValueError
                else Ok (if neg then - v else v)
              else Raise ValueError
          | None => Raise ValueError
          end
        else Raise ValueError
    | EmptyString => Raise ValueError
    end = Ok v ->
    Z.abs v < 10 ^ Z.of_nat (String.length s)).
  { intros neg s2 L2 H2. destruct s2 as [|c r]; [discriminate|].
    destruct (Py.is_digit c) eqn:Ec; [|discriminate].
    destruct (Py.int_digits r (Py.digit c) 1) as [[[w n] rest]|] eqn:Ed;
      [|discriminate].
    destruct (Py.all_chars Py.int_space rest); [|discriminate].
    destruct (Py.int_max_str_digits <? n)%nat; [discriminate|].
    pose proof (int_digits_bound _ r _ _ _ _ _ (le_n _) Ed) as B.
    assert (0 <= Py.digit c < 10 ^ Z.of_nat 1) as Hd.
    { pose proof (is_digit_range c Ec). simpl. lia. }
    specialize (B Hd). simpl in L2.
    assert (w < 10 ^ Z.of_nat (String.length s)).
    { eapply Z.lt_le_trans; [apply B|]. apply Hmono. lia. }
    inversion H2; subst. destruct neg; lia. }
  destruct s1 as [|c r] eqn:E1.
  - exact (Core false EmptyString ltac:(simpl; lia) H).
  - simpl in L.
    destruct (Ascii.eqb c "-").
    + exact (Core true r ltac:(lia) H).
    + destruct (Ascii.eqb c "+").
      * exact (Core false r ltac:(lia) H).
      * exact (Core false (String c r) ltac:(simpl; lia) H).
Qed.

Lemma int_raises_ValueError (s : string) (e : exn) :
  Py.int s = Raise e -> e = ValueError.
Proof.
  unfold Py.int.
  destruct (match Py.skip_int_space s with
            | String c r =>
                if Ascii.eqb c "-" then (true, r)
                else if Ascii.eqb c "+" then (false, r)
                else (false, Py.skip_int_space s)
            | EmptyString => (false, Py.skip_int_space s)
            end) as [neg s2].
  destruct s2 as [|c r]; [congruence|].
  destruct (Py.is_digit c); [|congruence].
  destruct (Py.int_digits r (Py.digit c) 1) as [[[w n] rest]|]; [|congruence].
  destruct (Py.all_chars Py.int_space rest); [|congruence].
  destruct (Py.int_max_str_digits <? n)%nat; congruence.
Qed.

Lemma time_new_small (h m s : Z) :
  Z.abs h < 10 ^ 9 -> Z.abs m < 10 ^ 9 -> Z.abs s < 10 ^ 9 ->
  (exists t, time_new h m s = Ok t /\ time_in_range t)
  \/ time_new h m s = Raise ValueError.
Proof.
  intros Hh Hm Hs. unfold time_new, Py.as_c_int, Py.INT_MIN, Py.INT_MAX.
  assert (E : forall z, Z.abs z < 10 ^ 9 ->
            (-2147483648 <=? z) && (z <=? 2147483647) = true).
  { intros z Hz. apply andb_true_iff. split; apply Z.leb_le; lia. }
  rewrite (E h Hh), (E m Hm), (E s Hs). simpl.
  destruct ((0 <=? h) && (h <=? 23) && (0 <=? m) && (m <=? 59)
            && (0 <=? s) && (s <=? 59)) eqn:R; [|right; reflexivity].
  left. eexists. split; [reflexivity|].
  repeat (apply andb_true_iff in R as [R ?]).
  unfold time_in_range. simpl. lia.
Qed.

Lemma lstrip_length (s : string) :
  (String.length (Py.lstrip s) <= String.length s)%nat.
Proof.
  induction s as [|c s IH]; simpl; [lia|].
  destruct (Py.isspace c); simpl; lia.
Qed.

Lemma rstrip_length (s : string) :
  (String.length (Py.rstrip s) <= String.length s)%nat.
Proof.
  induction s as [|c s IH]; simpl; [lia|].
  destruct (Py.rstrip s); [destruct (Py.isspace c)|]; simpl in *; lia.
Qed.

Lemma strip_length (s : string) :
  (String.length (Py.strip s) <= String.length s)%nat.
Proof.
  unfold Py.strip. pose proof (rstrip_length (Py.lstrip s)).
  pose proof (lstrip_length s). lia.
Qed.

Lemma split_total_length (c : ascii) (s : string) :
  (list_sum (map String.length (Py.split c s)) + List.length (Py.split c s)
   = S (String.length s))%nat.
Proof.
  induction s as [|a s IH]; simpl; [reflexivity|].
  destruct (Ascii.eqb a c); simpl.
  - lia.
  - destruct (Py.split c s) as [|p ps]; simpl in *; lia.
Qed.

(** On an input of at most ten characters the parser returns, and a time it
    returns is a time of day. *)
Lemma parse_hms_short (s : string) :
  (String.length s <= 10)%nat ->
  exists r, parse_hms (Some s) = Ok r
            /\ forall t, r = Some t -> time_in_range t.
Proof.
  intros L. unfold parse_hms.
  destruct (String.eqb s ""); [exists None; split; [reflexivity|discriminate]|].
  destruct (String.eqb (Py.strip s) "");
    [exists None; split; [reflexivity|discriminate]|].
  pose proof (split_total_length ":" (Py.strip s)) as T.
  pose proof (strip_length s) as SL.
  assert (P9 : forall x : string, (String.length x <= 9)%nat ->
            forall v, Py.int x = Ok v -> Z.abs v < 10 ^ 9).
  { intros x Hx v Hv. apply int_bound in Hv.
    eapply Z.lt_le_trans; [apply Hv|]. apply Z.pow_le_mono_r; lia. }
  destruct (Py.split ":" (Py.strip s)) as [|hh [|mm [|ss [|x l]]]];
    try (exists None; split; [reflexivity|discriminate]).
  - simpl in T.
    destruct (Py.int hh) as [h|e] eqn:Eh.
    2:{ apply int_raises_ValueError in Eh. subst e.
        exists None; split; [reflexivity|discriminate]. }
    destruct (Py.int mm) as [m|e] eqn:Em.
    2:{ apply int_raises_ValueError in Em. subst e.
        exists None; split; [reflexivity|discriminate]. }
    destruct (time_new_small h m 0) as [[t [Et Rt]]|Et];
      [apply (P9 hh); [lia|exact Eh] | apply (P9 mm); [lia|exact Em]
      | simpl; lia | | ].
    + exists (Some t). cbn. rewrite Et. cbn. split; [reflexivity|].
      intros t' E. inversion E; subst. exact Rt.
    + exists None. cbn. rewrite Et. cbn. split; [reflexivity|discriminate].
  - simpl in T.
    destruct (Py.int hh) as [h|e] eqn:Eh.
    2:{ apply int_raises_ValueError in Eh. subst e.
        exists None; split; [reflexivity|discriminate]. }
    destruct (Py.int mm) as [m|e] eqn:Em.
    2:{ apply int_raises_ValueError in Em. subst e.
        exists None; split; [reflexivity|discriminate]. }
    destruct (Py.int ss) as [sec|e] eqn:Es.
    2:{ apply int_raises_ValueError in Es. subst e.
        exists None; split; [reflexivity|discriminate]. }
    destruct (time_new_small h m sec) as [[t [Et Rt]]|Et];
      [apply (P9 hh); [lia|exact Eh] | apply (P9 mm); [lia|exact Em]
      | apply (P9 ss); [lia|exact Es] | | ].
    + exists (Some t). cbn. rewrite Et. cbn. split; [reflexivity|].
      intros t' E. inversion E; subst. exact Rt.
    + exists None. cbn. rewrite Et. cbn. split; [reflexivity|discriminate].
Qed.

Lemma returns_time_eq (r : res (option time)) (h m s : Z) :
  returns_time r h m s = true -> r = Ok (Some (mk_time h m s)).
Proof.
  destruct r as [[[h' m' s']|]|]; simpl; try discriminate.
  intros H. repeat (apply andb_true_iff in H as [H ?]).
  apply Z.eqb_eq in H. f_equal. f_equal. f_equal; lia.
Qed.

Lemma below_in (n k : nat) : (k < n)%nat -> In k (below n).
Proof. intros H. apply in_seq. lia. Qed.

Lemma parse_hms_hm_table :
  forallb (fun h => forallb (fun m =>
    returns_time (parse_hms (Some (clock_hm h m)))
      (Z.of_nat h) (Z.of_nat m) 0) (below 60)) (below 24) = true.
Proof. vm_compute. reflexivity. Qed.

Lemma parse_hms_hms_table :
  forallb (fun h => forallb (fun m => forallb (fun s =>
    returns_time (parse_hms (Some (clock_hms h m s)))
      (Z.of_nat h) (Z.of_nat m) (Z.of_nat s)) (below 60)) (below 60))
    (below 24) = true.
Proof. vm_compute. reflexivity. Qed.

Lemma parse_hms_out_of_range_table :
  forallb (fun h => forallb (fun m =>
    ((h <? 24)%nat && (m <? 60)%nat)
    || match parse_hms (Some (clock_hm h m)) with
       | Ok None => true
       | _ => false
       end) (below 100)) (below 100) = true.
Proof. vm_compute. reflexivity. Qed.

Lemma parse_hms_hm (h m : nat) :
  (h < 24)%nat -> (m < 60)%nat ->
  parse_hms (Some (clock_hm h m)) = Ok (Some (mk_time (Z.of_nat h) (Z.of_nat m) 0)).
Proof.
  intros Hh Hm. apply returns_time_eq.
  pose proof parse_hms_hm_table as T.
  rewrite forallb_forall in T. specialize (T h (below_in _ _ Hh)).
  rewrite forallb_forall in T. exact (T m (below_in _ _ Hm)).
Qed.

Lemma parse_hms_hms (h m s : nat) :
  (h < 24)%nat -> (m < 60)%nat -> (s < 60)%nat ->
  parse_hms (Some (clock_hms h m s))
  = Ok (Some (mk_time (Z.of_nat h) (Z.of_nat m) (Z.of_nat s))).
Proof.
  intros Hh Hm Hs. apply returns_time_eq.
  pose proof parse_hms_hms_table as T.
  rewrite forallb_forall in T. specialize (T h (below_in _ _ Hh)).
  rewrite forallb_forall in T. specialize (T m (below_in _ _ Hm)).
  rewrite forallb_forall in T. exact (T s (below_in _ _ Hs)).
Qed.

Lemma parse_hms_out_of_range (h m : nat) :
  (h < 100)%nat -> (m < 100)%nat -> (24 <= h \/ 60 <= m)%nat ->
  parse_hms (Some (clock_hm h m)) = Ok None.
Proof.
  intros Hh Hm Hr.
  pose proof parse_hms_out_of_range_table as T.
  rewrite forallb_forall in T. specialize (T h (below_in _ _ Hh)).
  rewrite forallb_forall in T. specialize (T m (below_in _ _ Hm)).
  apply orb_true_iff in T as [T|T].
  - apply andb_true_iff in T as [T1 T2].
    apply Nat.ltb_lt in T1. apply Nat.ltb_lt in T2. lia.
  - destruct (parse_hms (Some (clock_hm h m))) as [[t|]|e];
      try discriminate; reflexivity.
Qed.

Lemma clock_hhmm_digits (h m : nat) :
  (h < 100)%nat -> (m < 100)%nat ->
  Py.all_chars Py.is_digit (clock_hhmm h m) = true.
Proof.
  intros Hh Hm.
  assert (T : forallb (fun h => forallb (fun m =>
            Py.all_chars Py.is_digit (clock_hhmm h m)) (below 100))
            (below 100) = true) by (vm_compute; reflexivity).
  rewrite forallb_forall in T. specialize (T h (below_in _ _ Hh)).
  rewrite forallb_forall in T. exact (T m (below_in _ _ Hm)).
Qed.

(** C4 (as amended).  The clock parser accepts HH:MM and HH:MM:SS and returns
    that time of day.  It returns not-present for None, for the empty string,
    for every string that does not hold exactly one or two colons (every
    HHMM string among them) and for HH:MM with the hour or the minute out of
    range; and on every input of at most ten characters it returns, and what
    it returns is not-present or a time of day. *)
Theorem parse_hms_accepts_colon_forms :
  parse_hms None = Ok None
  /\ parse_hms (Some "") = Ok None
  /\ (forall h m : nat, (h < 24)%nat -> (m < 60)%nat ->
        parse_hms (Some (clock_hm h m))
        = Ok (Some (mk_time (Z.of_nat h) (Z.of_nat m) 0)))
  /\ (forall h m s : nat, (h < 24)%nat -> (m < 60)%nat -> (s < 60)%nat ->
        parse_hms (Some (clock_hms h m s))
        = Ok (Some (mk_time (Z.of_nat h) (Z.of_nat m) (Z.of_nat s))))
  /\ (forall s : string,
        count_char ":" s <> 1%nat -> count_char ":" s <> 2%nat ->
        parse_hms (Some s) = Ok None)
  /\ (forall h m : nat, (h < 100)%nat -> (m < 100)%nat ->
        parse_hms (Some (clock_hhmm h m)) = Ok None)
  /\ (forall h m : nat, (h < 100)%nat -> (m < 100)%nat ->
        (24 <= h \/ 60 <= m)%nat ->
        parse_hms (Some (clock_hm h m)) = Ok None)
  /\ (forall s : string, (String.length s <= 10)%nat ->
        exists r, parse_hms (Some s) = Ok r
                  /\ forall t, r = Some t -> time_in_range t).
Proof.
  split; [reflexivity|]. split; [reflexivity|].
  split; [exact parse_hms_hm|]. split; [exact parse_hms_hms|].
  split; [exact parse_hms_colon_count|].
  split.
  { intros h m Hh Hm. apply parse_hms_digits_only.
    now apply clock_hhmm_digits. }
  split; [exact parse_hms_out_of_range|exact parse_hms_short].
Qed.

(** The valid four-digit string 0943 is not-present, not 09:43. *)
Lemma parse_hms_rejects_hhmm :
  clock_hhmm 9 43 = "0943"
  /\ parse_hms (Some "0943") = Ok None
  /\ parse_hms (Some "0943") <> Ok (Some (mk_time 9 43 0)).
Proof. repeat split; discriminate. Qed.

(** ** Date and clock combination with rollover *)

Lemma dt_operands_swap (a b : datetime) (x y : Z) :
  dt_operands a b = Ok (x, y) -> dt_operands b a = Ok (y, x).
Proof.
  unfold dt_operands, same_tz.
  destruct (dt_tz a) as [ta|], (dt_tz b) as [tb|]; try discriminate.
  - rewrite (String.eqb_sym (tz_key tb) (tz_key ta)).
    destruct (String.eqb (tz_key ta) (tz_key tb)); intros H; inversion H;
      reflexivity.
  - intros H; inversion H; reflexivity.
Qed.

Lemma same_clock_operands (a b : datetime) :
  same_clock a b -> dt_operands a b = Ok (wall a, wall b).
Proof.
  unfold same_clock, dt_operands.
  destruct (dt_tz a), (dt_tz b); try tauto. intros ->. reflexivity.
Qed.

Lemma match_awareness_wall (ref x : datetime) :
  wall (match_awareness ref x) = wall x.
Proof.
  unfold match_awareness, replace_tzinfo.
  destruct ref as [wr [tr|]], x as [wx [tx|]]; reflexivity.
Qed.

Lemma days_before_year_nonneg (y : Z) : 1 <= y -> 0 <= days_before_year y.
Proof.
  unfold days_before_year. intros H. cbv zeta.
  Z.to_euclidean_division_equations. lia.
Qed.

Lemma days_before_month_nonneg (y m : Z) : 0 <= days_before_month y m.
Proof.
  unfold days_before_month.
  assert (0 <= nth (Z.to_nat m)
                 [0; 0; 31; 59; 90; 120; 151; 181; 212; 243; 273; 304; 334] 0).
  { generalize (Z.to_nat m). intros n.
    do 13 (destruct n as [|n]; [simpl; lia|]). simpl. destruct n; lia. }
  destruct ((2 <? m) && is_leap y); lia.
Qed.

Lemma date_new_ordinal (y m d : Z) (dd : date) :
  date_new y m d = Ok dd -> 1 <= toordinal dd.
Proof.
  unfold date_new.
  destruct ((1 <=? y) && (y <=? MAXYEAR) && (1 <=? m) && (m <=? 12)
            && (1 <=? d) && (d <=? days_in_month y m)) eqn:E; [|discriminate].
  intros H. inversion H; subst. unfold toordinal. simpl.
  repeat (apply andb_true_iff in E as [E ?]).
  pose proof (days_before_year_nonneg y ltac:(lia)).
  pose proof (days_before_month_nonneg y m). lia.
Qed.

Lemma ymd_ordinal (s : string) (dd : date) :
  Strptime.ymd s = Ok dd -> 1 <= toordinal dd.
Proof.
  unfold Strptime.ymd.
  destruct s as [|y1 [|y2 [|y3 [|y4 [|dash r]]]]]; try discriminate.
  destruct (Py.is_digit y1 && Py.is_digit y2 && Py.is_digit y3
            && Py.is_digit y4 && Ascii.eqb dash "-"); [|discriminate].
  destruct (Strptime.first_month_day (Strptime.month_alts r))
    as [[[m d] rest]|]; [|discriminate].
  destruct (String.eqb rest ""); [|discriminate].
  apply date_new_ordinal.
Qed.

Lemma parse_hms_Some_range (v : option string) (t : time) :
  parse_hms v = Ok (Some t) -> time_in_range t.
Proof.
  assert (TN : forall h m s t', time_new h m s = Ok t' -> time_in_range t').
  { intros h m s t'. unfold time_new, Py.as_c_int.
    destruct ((Py.INT_MIN <=? h) && (h <=? Py.INT_MAX)); [|discriminate].
    destruct ((Py.INT_MIN <=? m) && (m <=? Py.INT_MAX)); [|discriminate].
    destruct ((Py.INT_MIN <=? s) && (s <=? Py.INT_MAX)); [|discriminate].
    cbn.
    destruct ((0 <=? h) && (h <=? 23) && (0 <=? m) && (m <=? 59)
              && (0 <=? s) && (s <=? 59)) eqn:R; [|discriminate].
    intros H. inversion H; subst.
    repeat (apply andb_true_iff in R as [R ?]).
    unfold time_in_range. simpl. lia. }
  unfold parse_hms. destruct v as [s|]; [|discriminate].
  destruct (String.eqb s ""); [discriminate|].
  destruct (String.eqb (Py.strip s) ""); [discriminate|].
  destruct (Py.split ":" (Py.strip s)) as [|hh [|mm [|ss [|x l]]]];
    try discriminate.
  - destruct (Py.int hh) as [h|[]]; try discriminate.
    destruct (Py.int mm) as [m|[]]; try discriminate.
    cbn. destruct (time_new h m 0) as [t'|[]] eqn:E; try discriminate.
    cbn. intros H. inversion H; subst. eapply TN; eauto.
  - destruct (Py.int hh) as [h|[]]; try discriminate.
    destruct (Py.int mm) as [m|[]]; try discriminate.
    destruct (Py.int ss) as [sec|[]]; try discriminate.
    cbn. destruct (time_new h m sec) as [t'|[]] eqn:E; try discriminate.
    cbn. intros H. inversion H; subst. eapply TN; eauto.
Qed.

(** The naive combination is a reading of the calendar: never negative. *)
Lemma combine_date_time_wall (ssd : string) (t : option string)
    (tz : option tzinfo) (dt : datetime) :
  combine_date_time ssd t tz = Ok (Some dt) -> 0 <= wall dt.
Proof.
  unfold combine_date_time.
  destruct (parse_hms t) as [[tm|]|e] eqn:Et; try discriminate.
  cbn. destruct (Strptime.ymd ssd) as [d|[]] eqn:Ed; try discriminate.
  intros H. inversion H; subst.
  pose proof (ymd_ordinal _ _ Ed).
  destruct (parse_hms_Some_range _ _ Et) as (Hh & Hm & Hs).
  assert (0 <= wall (datetime_combine d tm)).
  { unfold datetime_combine, US_PER_DAY, US_PER_HOUR, US_PER_MINUTE,
      US_PER_SECOND. simpl. nia. }
  destruct (is_some tz); simpl; assumption.
Qed.

Lemma combine_smart_unfold (ssd : string) (t : option string)
    (base naive : datetime) (tz : option tzinfo) (thr : timedelta) :
  combine_date_time ssd t tz = Ok (Some naive) ->
  combine_date_time_smart ssd t (Some base) tz thr
  = (let dt := match_awareness base naive in
     let gap := gap_before base naive in
     if (0 <? gap) && (thr <? gap) then
       dt' ← dt_add dt (timedelta_days 1); Ok (Some dt')
     else Ok (Some dt)).
Proof.
  intros H. unfold combine_date_time_smart. rewrite H. cbn.
  unfold gap_before, raw_difference, dt_lt, dt_sub.
  destruct (match_awareness_operands base naive) as [[x y] Hop].
  rewrite Hop. cbn. rewrite (dt_operands_swap _ _ _ _ Hop). cbn.
  replace (- (x - y)) with (y - x) by lia.
  destruct (x <? y) eqn:E1.
  - apply Z.ltb_lt in E1. replace (0 <? y - x) with true
      by (symmetry; apply Z.ltb_lt; lia). reflexivity.
  - apply Z.ltb_ge in E1. replace (0 <? y - x) with false
      by (symmetry; apply Z.ltb_ge; lia). reflexivity.
Qed.

(** C6 (as amended).  For a date and clock that combine to [naive], with the
    following day still a representable date, the smart combine returns
    [naive] one day later exactly when [naive] is earlier than [base] by more
    than two hours, and [naive] itself otherwise.  Hence, on one clock, the
    result is at or after [base] when [naive] is not earlier than [base] or
    is earlier by more than two hours and at most one day; it is [naive],
    still before [base], when the gap is two hours or less; and it is still
    before [base] when the gap exceeds one day. *)
Theorem combine_date_time_smart_rollover (ssd : string) (t : option string)
    (base : datetime) (tz : option tzinfo) (naive : datetime) :
  combine_date_time ssd t tz = Ok (Some naive) ->
  wall naive + timedelta_days 1 <= MAX_WALL ->
  let dt := match_awareness base naive in
  let gap := gap_before base naive in
  exists r,
    combine_date_time_smart ssd t (Some base) tz default_rollover_threshold
    = Ok (Some r)
    /\ dt_tz r = dt_tz dt
    /\ (timedelta_hours 2 < gap -> wall r = wall naive + timedelta_days 1)
    /\ (gap <= timedelta_hours 2 -> r = dt)
    /\ (same_clock dt base ->
        gap = wall base - wall naive
        /\ (gap <= 0 -> wall base <= wall r)
        /\ (timedelta_hours 2 < gap <= timedelta_days 1 -> wall base <= wall r)
        /\ (0 < gap <= timedelta_hours 2 -> r = dt /\ wall r < wall base)
        /\ (timedelta_days 1 < gap -> wall r < wall base)).
Proof.
  intros H Hmax dt gap.
  pose proof (combine_date_time_wall _ _ _ _ H) as Hw.
  assert (Hgap : same_clock dt base -> gap = wall base - wall naive).
  { intros Hc. unfold gap, gap_before, raw_difference. fold dt.
    rewrite (same_clock_operands _ _ Hc). simpl. unfold dt.
    rewrite match_awareness_wall. lia. }
  rewrite (combine_smart_unfold _ _ _ _ _ _ H). cbv zeta. fold dt gap.
  assert (H2 : 0 < timedelta_hours 2) by (vm_compute; reflexivity).
  assert (Hd : timedelta_hours 2 < timedelta_days 1) by (vm_compute; reflexivity).
  assert (Hwd : wall dt = wall naive) by apply match_awareness_wall.
  unfold default_rollover_threshold.
  destruct ((0 <? gap) && (timedelta_hours 2 <? gap)) eqn:E.
  - apply andb_true_iff in E as [E1 E2].
    apply Z.ltb_lt in E1. apply Z.ltb_lt in E2.
    unfold dt_add. rewrite Hwd.
    replace ((0 <=? wall naive + timedelta_days 1)
             && (wall naive + timedelta_days 1 <=? MAX_WALL)) with true.
    2:{ symmetry. apply andb_true_iff. split; apply Z.leb_le; lia. }
    cbn. eexists. split; [reflexivity|]. simpl.
    split; [reflexivity|]. split; [reflexivity|]. split; [lia|].
    intros Hc. specialize (Hgap Hc). split; [exact Hgap|].
    repeat split; intros; lia.
  - exists dt. split; [reflexivity|]. split; [reflexivity|].
    assert (gap <= timedelta_hours 2).
    { apply andb_false_iff in E as [E|E]; apply Z.ltb_ge in E; lia. }
    split; [lia|]. split; [reflexivity|].
    intros Hc. specialize (Hgap Hc). split; [exact Hgap|].
    rewrite Hwd. repeat split; intros; lia.
Qed.

(** The scenario of a 23:55 planned departure and a 00:04 actual one. *)
Lemma combine_date_time_smart_rollover_witness :
  let base := mk_dt 63879926100000000 None in
  let naive := mk_dt 63879840240000000 None in
  combine_date_time "2025-04-10" (Some "00:04") None = Ok (Some naive)
  /\ wall naive + timedelta_days 1 <= MAX_WALL
  /\ exists r,
       combine_date_time_smart "2025-04-10" (Some "00:04") (Some base) None
         default_rollover_threshold = Ok (Some r)
       /\ wall r = wall naive + timedelta_days 1.
Proof.
  intros base naive.
  assert (H1 : combine_date_time "2025-04-10" (Some "00:04") None
               = Ok (Some naive)) by (vm_compute; reflexivity).
  assert (H2 : wall naive + timedelta_days 1 <= MAX_WALL)
    by (vm_compute; discriminate).
  split; [exact H1|]. split; [exact H2|].
  destruct (combine_date_time_smart_rollover "2025-04-10" (Some "00:04")
              base None naive H1 H2) as (r & Hr & _ & Hadv & _).
  exists r. split; [exact Hr|]. apply Hadv. vm_compute. reflexivity.
Defined.

(** Date 2025-04-10 at 00:00 against a base of 2025-04-12 12:00: the gap is
    sixty hours, the result is 2025-04-11 00:00 and lies before the base. *)
Lemma combine_date_time_smart_before_base :
  let base := mk_dt 63880056000000000 None in
  exists naive r,
    combine_date_time "2025-04-10" (Some "00:00") None = Ok (Some naive)
    /\ combine_date_time_smart "2025-04-10" (Some "00:00") (Some base) None
         default_rollover_threshold = Ok (Some r)
    /\ timedelta_hours 2 < gap_before base naive
    /\ wall r = wall naive + timedelta_days 1
    /\ wall r < wall base.
Proof.
  intros base. eexists. eexists.
  split; [vm_compute; reflexivity|]. split; [vm_compute; reflexivity|].
  repeat split.
Qed.

(** ** The durable writer: calls after close *)

Section StoreFacts.

Variable coerce : affinity -> sqlval -> sqlval.
Variable clock : nat -> string.

Lemma enqueue_closed (st : RealTimeSQLiteStore) (t : string) (rec : record) :
  _closed st = true -> _enqueue st t rec = (st, false).
Proof. intros H. unfold _enqueue. now rewrite H. Qed.

Lemma writer_step_closed (st : RealTimeSQLiteStore) :
  _closed (writer_step coerce clock st) = _closed st.
Proof.
  unfold writer_step, writer_exit.
  destruct (writer_alive st); simpl; [|reflexivity].
  destruct (_q st) as [|[[t|] [r|]] q]; simpl; try reflexivity.
  - destruct (_stop st); reflexivity.
  - destruct (_insert_with_conn coerce (clock (stmts st)) (conn_db st) t r);
      reflexivity.
Qed.

Lemma q_join_closed (n : nat) (st st' : RealTimeSQLiteStore) (b : bool) :
  q_join coerce clock n st = (st', b) -> _closed st' = _closed st.
Proof.
  revert st. induction n as [|n IH]; intros st; simpl.
  - destruct (_q st); [|destruct (writer_alive st)];
      intros H; inversion H; reflexivity.
  - destruct (_q st); [intros H; inversion H; reflexivity|].
    destruct (writer_alive st); [|intros H; inversion H; reflexivity].
    intros H. apply IH in H. now rewrite writer_step_closed in H.
Qed.

(** Whether or not it returns, [close] leaves the store closed. *)
Lemma close_sets_closed (st st' : RealTimeSQLiteStore) (drain b : bool) :
  close coerce clock st drain = (st', b) -> _closed st' = true.
Proof.
  unfold close. destruct (_closed st) eqn:E.
  - intros H. inversion H; subst. exact E.
  - destruct (if drain
              then q_join coerce clock (List.length (_q (set_closed st)))
                     (set_closed st)
              else (set_closed st, true)) as [st2 returned] eqn:J.
    assert (C2 : _closed st2 = true).
    { destruct drain.
      - apply q_join_closed in J. exact J.
      - inversion J; subst. reflexivity. }
    destruct returned; intros H; apply (f_equal fst) in H; simpl in H;
      subst st'; [|exact C2].
    destruct (put_nowait _ _ _); exact C2.
Qed.

Lemma close_closed (st : RealTimeSQLiteStore) (drain : bool) :
  _closed st = true -> close coerce clock st drain = (st, true).
Proof. intros H. unfold close. now rewrite H. Qed.

Lemma run_closed (ops : list store_op) :
  forall st, _closed st = true ->
    Forall (fun b => b = false) (snd (run coerce clock st ops))
    /\ _closed (fst (run coerce clock st ops)) = true
    /\ run coerce clock st (without_inserts ops)
       = (fst (run coerce clock st ops), []).
Proof.
  induction ops as [|o ops IH]; intros st C; simpl.
  - repeat split; [constructor|exact C].
  - destruct o as [rec|rec|drain|]; simpl.
    + unfold insert_all. rewrite (enqueue_closed _ _ _ C).
      destruct (IH st C) as (F & C' & R).
      destruct (run coerce clock st ops) as [st2 bs]. simpl in *.
      repeat split; [constructor; [reflexivity|exact F]|exact C'|exact R].
    + unfold insert_actual. rewrite (enqueue_closed _ _ _ C).
      destruct (IH st C) as (F & C' & R).
      destruct (run coerce clock st ops) as [st2 bs]. simpl in *.
      repeat split; [constructor; [reflexivity|exact F]|exact C'|exact R].
    + rewrite (close_closed _ _ C). exact (IH st C).
    + apply IH. now rewrite writer_step_closed.
Qed.

(** C10.  Once [close] has been called the store is closed; from then on
    every [insert_all] and [insert_actual] returns False and leaves the
    store as it was, and under any later schedule of calls and writer
    iterations every insert returns False and the final state, database
    included, is the one the schedule reaches with its insert calls left
    out. *)
Theorem inserts_after_close_are_dropped (st st1 : RealTimeSQLiteStore)
    (drain returned : bool) :
  close coerce clock st drain = (st1, returned) ->
  _closed st1 = true
  /\ (forall rec, insert_all st1 rec = (st1, false))
  /\ (forall rec, insert_actual st1 rec = (st1, false))
  /\ forall ops,
       Forall (fun b => b = false) (snd (run coerce clock st1 ops))
       /\ run coerce clock st1 (without_inserts ops)
          = (fst (run coerce clock st1 ops), []).
Proof.
  intros H. pose proof (close_sets_closed _ _ _ _ H) as C.
  split; [exact C|].
  split; [intros rec; apply enqueue_closed; exact C|].
  split; [intros rec; apply enqueue_closed; exact C|].
  intros ops. destruct (run_closed ops st1 C) as (F & _ & R).
  split; assumption.
Qed.

End StoreFacts.

(** A store with one queued record is closed with draining; a record
    submitted afterwards is dropped and the table keeps its single row. *)
Lemma inserts_after_close_are_dropped_witness :
  let st0 := RealTimeSQLiteStore_new new_database 4 in
  let st := fst (insert_all st0 sample_rec) in
  let st1 := fst (close coerce_id clock_const st true) in
  close coerce_id clock_const st true = (st1, true)
  /\ insert_all st1 sample_rec = (st1, false)
  /\ run coerce_id clock_const st1 (without_inserts [CallInsertAll sample_rec; WriterStep])
     = (fst (run coerce_id clock_const st1 [CallInsertAll sample_rec; WriterStep]), []).
Proof.
  intros st0 st st1.
  assert (H : close coerce_id clock_const st true = (st1, true))
    by (vm_compute; reflexivity).
  split; [exact H|].
  destruct (inserts_after_close_are_dropped coerce_id clock_const st st1 true
              true H) as (_ & Hall & _ & Hrun).
  split; [apply Hall|]. apply (Hrun [CallInsertAll sample_rec; WriterStep]).
Defined.

(** ** The natural key of the prediction tables *)

Lemma key_conflict_refl (k : list sqlval) :
  key_has_null k = false -> key_conflict k k = true.
Proof.
  intros H. unfold key_conflict. apply andb_true_iff. split.
  - unfold key_has_null in H. induction k as [|v k IH]; simpl in *;
      [reflexivity|].
    apply orb_false_iff in H as [H1 H2]. rewrite H1. simpl. auto.
  - apply bool_decide_eq_true. reflexivity.
Qed.

Lemma find_conflict_None_no_row (sch : table_schema) (rows : list srow)
    (k : list sqlval) :
  key_has_null k = false ->
  find_conflict sch rows k = None ->
  rows_with_key sch rows k = [].
Proof.
  intros Hk. unfold find_conflict, rows_with_key.
  induction rows as [|r rows IH]; simpl; [reflexivity|].
  destruct (key_conflict (key_of sch (cells r)) k) eqn:E; [discriminate|].
  intros H. destruct (bool_decide (key_of sch (cells r) = k)) eqn:B.
  - apply bool_decide_eq_true in B. rewrite B in E.
    rewrite (key_conflict_refl k Hk) in E. discriminate.
  - auto.
Qed.

Lemma rows_with_key_app (sch : table_schema) (a b : list srow)
    (k : list sqlval) :
  rows_with_key sch (a ++ b) k
  = (rows_with_key sch a k ++ rows_with_key sch b k)%list.
Proof. unfold rows_with_key. apply List.filter_app. Qed.

Lemma unique_keys_nil (sch : table_schema) : unique_keys sch [].
Proof. intros k _. simpl. lia. Qed.

Lemma unique_keys_snoc (sch : table_schema) (rows : list srow) (r : srow) :
  unique_keys sch rows ->
  find_conflict sch rows (key_of sch (cells r)) = None ->
  unique_keys sch (rows ++ [r]).
Proof.
  intros U F k Hk. rewrite rows_with_key_app, List.length_app.
  unfold rows_with_key at 2. simpl.
  destruct (bool_decide (key_of sch (cells r) = k)) eqn:B; simpl.
  - apply bool_decide_eq_true in B. subst k.
    rewrite (find_conflict_None_no_row _ _ _ Hk F). simpl. lia.
  - specialize (U k Hk). lia.
Qed.

Section Uniqueness.

Variable coerce : affinity -> sqlval -> sqlval.
Variable clock : nat -> string.

(** An INSERT OR IGNORE leaves the rows alone or appends one row whose key
    collides with none of them. *)
Lemma insert_or_ignore_rows (sch : table_schema) (now : string) (t t' : table)
    (rec : record) :
  insert_or_ignore coerce sch now t rec = Ok t' ->
  tbl_rows t' = tbl_rows t
  \/ exists r, tbl_rows t' = (tbl_rows t ++ [r])%list
               /\ find_conflict sch (tbl_rows t) (key_of sch (cells r)) = None.
Proof.
  unfold insert_or_ignore.
  destruct (bool_decide (rec = ∅) || negb (known_columns sch rec));
    [discriminate|].
  destruct (new_rowid coerce t rec) as [i|e]; [|discriminate]. cbn.
  destruct (notnull_violation sch (new_cells coerce sch now rec)); simpl.
  { intros H; inversion H; left; reflexivity. }
  destruct (rowid_exists (tbl_rows t) i); simpl.
  { intros H; inversion H; left; reflexivity. }
  destruct (find_conflict sch (tbl_rows t)
              (key_of sch (new_cells coerce sch now rec))) eqn:F; simpl.
  { intros H; inversion H; left; reflexivity. }
  intros H; inversion H. right. eexists. split; [reflexivity|exact F].
Qed.

Lemma insert_or_ignore_inv (sch : table_schema) (now : string) (t t' : table)
    (rec : record) :
  insert_or_ignore coerce sch now t rec = Ok t' ->
  tbl_rows t `prefix_of` tbl_rows t'
  /\ (unique_keys sch (tbl_rows t) -> unique_keys sch (tbl_rows t')).
Proof.
  intros H. destruct (insert_or_ignore_rows _ _ _ _ _ H) as [E|(r & E & F)];
    rewrite E.
  - split; [reflexivity|auto].
  - split; [apply prefix_app_r; reflexivity|].
    intros U. now apply unique_keys_snoc.
Qed.

Lemma db_step_refl (db : database) : db_step db db.
Proof. split; [split; reflexivity|auto]. Qed.

Lemma db_step_trans (a b c : database) :
  db_step a b -> db_step b c -> db_step a c.
Proof.
  intros [[G1 G2] U1] [[G3 G4] U2]. repeat split.
  - etransitivity; eauto.
  - etransitivity; eauto.
  - apply U2, U1; assumption.
  - apply U2, U1; assumption.
Qed.

Lemma _insert_with_conn_step (now : string) (db db' : database)
    (table_name : string) (rec : record) :
  _insert_with_conn coerce now db table_name rec = Ok db' -> db_step db db'.
Proof.
  unfold _insert_with_conn.
  destruct (String.eqb table_name "predictions_all").
  { destruct (predictions_all db) as [t|] eqn:T; [|discriminate].
    destruct (insert_or_ignore coerce predictions_schema now t rec) as [t'|e]
      eqn:I; [|discriminate].
    cbn. intros H; inversion H; subst.
    destruct (insert_or_ignore_inv _ _ _ _ _ I) as [P U].
    unfold db_step, db_grows, db_unique. simpl. rewrite T. simpl.
    repeat split; auto; tauto. }
  destruct (String.eqb table_name "predictions_actual").
  { destruct (predictions_actual db) as [t|] eqn:T; [|discriminate].
    destruct (insert_or_ignore coerce predictions_schema now t rec) as [t'|e]
      eqn:I; [|discriminate].
    cbn. intros H; inversion H; subst.
    destruct (insert_or_ignore_inv _ _ _ _ _ I) as [P U].
    unfold db_step, db_grows, db_unique. simpl. rewrite T. simpl.
    repeat split; auto; tauto. }
  destruct (String.eqb table_name "actual_arrivals_hsp"); [|discriminate].
  destruct (actual_arrivals_hsp db) as [t|]; [|discriminate].
  destruct (insert_or_ignore coerce actual_arrivals_hsp_schema now t rec);
    [|discriminate].
  cbn. intros H; inversion H; subst.
  unfold db_step, db_grows, db_unique. simpl. repeat split; auto; tauto.
Qed.

Lemma writer_step_db (st : RealTimeSQLiteStore) :
  db_step (conn_db st) (conn_db (writer_step coerce clock st)).
Proof.
  unfold writer_step, writer_exit.
  destruct (writer_alive st); simpl; [|apply db_step_refl].
  destruct (_q st) as [|[[t|] [r|]] q]; simpl; try apply db_step_refl.
  - destruct (_stop st); apply db_step_refl.
  - destruct (_insert_with_conn coerce (clock (stmts st)) (conn_db st) t r)
      eqn:I; simpl; [|apply db_step_refl].
    eapply _insert_with_conn_step; eauto.
Qed.

Lemma q_join_db (n : nat) :
  forall st, db_step (conn_db st) (conn_db (fst (q_join coerce clock n st))).
Proof.
  induction n as [|n IH]; intros st; simpl.
  - destruct (_q st); [|destruct (writer_alive st)]; apply db_step_refl.
  - destruct (_q st); [apply db_step_refl|].
    destruct (writer_alive st); [|apply db_step_refl].
    eapply db_step_trans; [apply writer_step_db|apply IH].
Qed.

Lemma enqueue_db (st : RealTimeSQLiteStore) (t : string) (rec : record) :
  conn_db (fst (_enqueue st t rec)) = conn_db st.
Proof.
  unfold _enqueue. destruct (_closed st); [reflexivity|].
  destruct (put_nowait _ _ _); reflexivity.
Qed.

Lemma close_db (st : RealTimeSQLiteStore) (drain : bool) :
  db_step (conn_db st) (conn_db (fst (close coerce clock st drain))).
Proof.
  unfold close. destruct (_closed st); [apply db_step_refl|].
  destruct drain.
  - pose proof (q_join_db (List.length (_q (set_closed st))) (set_closed st))
      as J.
    destruct (q_join coerce clock _ (set_closed st)) as [st2 [|]]; simpl in *;
      [|exact J].
    destruct (put_nowait _ _ _); exact J.
  - simpl. destruct (put_nowait _ _ _); apply db_step_refl.
Qed.

Lemma run_db (ops : list store_op) :
  forall st, db_step (conn_db st) (conn_db (fst (run coerce clock st ops))).
Proof.
  induction ops as [|o ops IH]; intros st; simpl; [apply db_step_refl|].
  destruct o as [rec|rec|drain|].
  - unfold insert_all. pose proof (enqueue_db st "predictions_all" rec) as E.
    destruct (_enqueue st "predictions_all" rec) as [st1 b]. simpl in E.
    specialize (IH st1). destruct (run coerce clock st1 ops). simpl in *.
    now rewrite <- E.
  - unfold insert_actual.
    pose proof (enqueue_db st "predictions_actual" rec) as E.
    destruct (_enqueue st "predictions_actual" rec) as [st1 b]. simpl in E.
    specialize (IH st1). destruct (run coerce clock st1 ops). simpl in *.
    now rewrite <- E.
  - pose proof (close_db st drain) as C.
    destruct (close coerce clock st drain) as [st1 [|]]; simpl in *;
      [|exact C].
    eapply db_step_trans; [exact C|apply IH].
  - eapply db_step_trans; [apply writer_step_db|apply IH].
Qed.

Lemma ensure_schema_rows (db : database) :
  table_rows (predictions_all (ensure_schema db))
  = table_rows (predictions_all db)
  /\ table_rows (predictions_actual (ensure_schema db))
     = table_rows (predictions_actual db).
Proof.
  unfold ensure_schema. simpl.
  destruct (predictions_all db), (predictions_actual db); auto.
Qed.

Lemma ensure_schema_step (db : database) : db_step db (ensure_schema db).
Proof.
  destruct (ensure_schema_rows db) as [E1 E2].
  unfold db_step, db_grows, db_unique. rewrite E1, E2.
  split; [split; reflexivity|auto].
Qed.

Lemma process_db (db : database) (p : Z * list store_op) :
  db_step db
    (conn_db (fst (run coerce clock (RealTimeSQLiteStore_new db (fst p)) (snd p)))).
Proof.
  eapply db_step_trans; [apply ensure_schema_step|].
  apply (run_db (snd p) (RealTimeSQLiteStore_new db (fst p))).
Qed.

Lemma run_processes_db (procs : list (Z * list store_op)) :
  forall db, db_step db (run_processes coerce clock db procs).
Proof.
  unfold run_processes.
  induction procs as [|p procs IH]; intros db; simpl; [apply db_step_refl|].
  eapply db_step_trans; [apply process_db|apply IH].
Qed.

(** C1 (as amended).  Across any number of process runs over one database,
    under every schedule of inserts, closes and writer iterations, each of
    predictions_all and predictions_actual holds at most one row per natural
    key (rid, first, second, planned_dep) that contains no NULL; and rows
    once written stay as they are, later runs only appending, so that the
    first persisted snapshot of such a key wins. *)
Theorem predictions_one_row_per_key
    (procs more : list (Z * list store_op)) (k : list sqlval) :
  key_has_null k = false ->
  let db := run_processes coerce clock new_database procs in
  let db' := run_processes coerce clock db more in
  (List.length (rows_with_key predictions_schema
                  (table_rows (predictions_all db)) k) <= 1)%nat
  /\ (List.length (rows_with_key predictions_schema
                     (table_rows (predictions_actual db)) k) <= 1)%nat
  /\ table_rows (predictions_all db) `prefix_of` table_rows (predictions_all db')
  /\ table_rows (predictions_actual db)
     `prefix_of` table_rows (predictions_actual db').
Proof.
  intros Hk db db'.
  destruct (run_processes_db procs new_database) as [_ U].
  destruct (run_processes_db more db) as [[G1 G2] _].
  destruct U as [U1 U2].
  { split; apply unique_keys_nil. }
  repeat split; [apply U1|apply U2|exact G1|exact G2]; exact Hk.
Qed.

End Uniqueness.

(** One stream replayed within a run and again by a second run. *)
Lemma predictions_one_row_per_key_witness :
  let k := [SText "X1"; SText "SOTON"; SText "SOTPKWY"; SText "09:00"] in
  let procs := [(5000, replay_schedule sample_rec)] in
  let db := run_processes coerce_id clock_const new_database procs in
  let db' := run_processes coerce_id clock_const db procs in
  key_has_null k = false
  /\ List.length (rows_with_key predictions_schema
                    (table_rows (predictions_all db')) k) = 1%nat
  /\ (List.length (rows_with_key predictions_schema
                     (table_rows (predictions_all db)) k) <= 1)%nat
  /\ table_rows (predictions_all db) `prefix_of` table_rows (predictions_all db').
Proof.
  intros k procs db db'.
  assert (Hk : key_has_null k = false) by reflexivity.
  split; [exact Hk|]. split; [vm_compute; reflexivity|].
  destruct (predictions_one_row_per_key coerce_id clock_const procs procs k Hk)
    as (H1 & _ & H3 & _).
  split; [exact H1|exact H3].
Defined.

(** A record whose planned_dep is None, written twice: the UNIQUE index
    treats the two NULLs as distinct and both rows land, in each table. *)
Lemma predictions_null_key_duplicates :
  let k := [SText "X1"; SText "SOTON"; SText "SOTPKWY"; SNull] in
  let db := run_processes coerce_id clock_const new_database
              [(5000, replay_schedule sample_rec_null_dep)] in
  List.length (rows_with_key predictions_schema
                 (table_rows (predictions_all db)) k) = 2%nat
  /\ List.length (rows_with_key predictions_schema
                    (table_rows (predictions_actual db)) k) = 2%nat.
Proof. split; vm_compute; reflexivity. Qed.

(** ** Upserts into actual_arrivals_hsp *)

Lemma actual_arrivals_hsp_schema_ok : schema_ok actual_arrivals_hsp_schema = true.
Proof. vm_compute. reflexivity. Qed.

Section Upsert.

Variable coerce : affinity -> sqlval -> sqlval.
Variable sch : table_schema.
Hypothesis sch_ok : schema_ok sch = true.

Lemma sch_nodup : NoDup (map col_name (ts_columns sch)).
Proof.
  unfold schema_ok in sch_ok. apply andb_true_iff in sch_ok as [H _].
  now apply bool_decide_eq_true in H.
Qed.

Lemma new_cells_column (now : string) (rec : record) (col : column) :
  col ∈ ts_columns sch ->
  new_cells coerce sch now rec !! col_name col
  = Some (stored_value coerce now rec col).
Proof.
  intros Hin. unfold new_cells. apply elem_of_list_to_map_1.
  - rewrite <- list_fmap_compose. simpl.
    exact sch_nodup.
  - apply list_elem_of_fmap. exists col. split; [reflexivity|exact Hin].
Qed.

Lemma new_cells_other (now : string) (rec : record) (c : string) :
  c ∉ map col_name (ts_columns sch) ->
  new_cells coerce sch now rec !! c = None.
Proof.
  intros Hn. unfold new_cells. apply not_elem_of_list_to_map_1.
  rewrite <- list_fmap_compose. exact Hn.
Qed.

(** The clock only feeds defaults that are never NULL. *)
Lemma cell_null_now (now1 now2 : string) (rec : record) (c : string) :
  is_null (cell (new_cells coerce sch now1 rec) c)
  = is_null (cell (new_cells coerce sch now2 rec) c).
Proof.
  unfold cell.
  destruct (decide (c ∈ map col_name (ts_columns sch))) as [Hin|Hn].
  - apply list_elem_of_fmap in Hin as (col & -> & Hin).
    rewrite !new_cells_column by exact Hin. simpl. unfold stored_value.
    destruct (rec !! col_name col); [reflexivity|].
    destruct (col_default col); reflexivity.
  - rewrite !new_cells_other by exact Hn. reflexivity.
Qed.

Lemma notnull_violation_now (now1 now2 : string) (rec : record) :
  notnull_violation sch (new_cells coerce sch now1 rec)
  = notnull_violation sch (new_cells coerce sch now2 rec).
Proof.
  unfold notnull_violation.
  induction (ts_columns sch) as [|col cols IH]; simpl; [reflexivity|].
  now rewrite IH, (cell_null_now now1 now2).
Qed.

Lemma key_default_not_now (col : column) :
  col ∈ ts_columns sch -> col_name col ∈ ts_unique sch ->
  col_default col <> DefNow.
Proof.
  intros Hin Hk. unfold schema_ok in sch_ok.
  apply andb_true_iff in sch_ok as [_ H].
  rewrite forallb_forall in H.
  specialize (H col (proj1 (list_elem_of_In _ _) Hin)).
  apply orb_true_iff in H as [H|H].
  - apply negb_true_iff, bool_decide_eq_false in H. contradiction.
  - intros E. rewrite E in H. discriminate.
Qed.

Lemma key_of_now (now1 now2 : string) (rec : record) :
  key_of sch (new_cells coerce sch now1 rec)
  = key_of sch (new_cells coerce sch now2 rec).
Proof.
  unfold key_of. apply map_ext_in. intros c Hc. unfold cell.
  destruct (decide (c ∈ map col_name (ts_columns sch))) as [Hin|Hn].
  - apply list_elem_of_fmap in Hin as (col & -> & Hin).
    rewrite !new_cells_column by exact Hin. simpl. unfold stored_value.
    destruct (rec !! col_name col); [reflexivity|].
    pose proof (key_default_not_now col Hin
                  (proj2 (list_elem_of_In _ _) Hc)) as D.
    destruct (col_default col); try reflexivity. contradiction.
  - rewrite !new_cells_other by exact Hn. reflexivity.
Qed.

(** A value that the record supplies is stored the same at any time. *)
Lemma cell_supplied_now (now1 now2 : string) (rec : record) (c : string) :
  is_Some (rec !! c) ->
  cell (new_cells coerce sch now1 rec) c
  = cell (new_cells coerce sch now2 rec) c.
Proof.
  intros [v Hv]. unfold cell.
  destruct (decide (c ∈ map col_name (ts_columns sch))) as [Hin|Hn].
  - apply list_elem_of_fmap in Hin as (col & -> & Hin).
    rewrite !new_cells_column by exact Hin. simpl. unfold stored_value.
    now rewrite Hv.
  - rewrite !new_cells_other by exact Hn. reflexivity.
Qed.

Lemma update_cols_supplied (rec : record) (c : string) :
  c ∈ update_cols sch rec -> is_Some (rec !! c) /\ c ∉ ts_unique sch.
Proof.
  unfold update_cols. intros H. apply list_elem_of_filter in H as [Hk Hin].
  split; [|exact Hk].
  apply list_elem_of_fmap in Hin as ([c' v] & -> & Hin).
  apply elem_of_map_to_list in Hin. simpl. eauto.
Qed.

Lemma set_cells_lookup (cs : gmap string sqlval) (cols : list string)
    (m : gmap string sqlval) (c : string) :
  set_cells cs cols m !! c
  = if decide (c ∈ cols /\ c <> "id") then Some (cell cs c) else m !! c.
Proof.
  induction cols as [|a cols IH]; simpl.
  - destruct (decide (c ∈ [] /\ c <> "id")) as [[H _]|_];
      [inversion H|reflexivity].
  - destruct (String.eqb a "id") eqn:E.
    + apply String.eqb_eq in E. subst a. rewrite IH.
      destruct (decide (c ∈ cols /\ c <> "id")) as [[H1 H2]|H];
        destruct (decide (c ∈ "id" :: cols /\ c <> "id")) as [[H3 H4]|H'];
        try reflexivity.
      * exfalso. apply H'. split; [now right|exact H2].
      * exfalso. apply H. split; [|exact H4].
        apply elem_of_cons in H3 as [H3|H3]; [contradiction|exact H3].
    + apply String.eqb_neq in E.
      destruct (decide (a = c)) as [->|Hac].
      * rewrite lookup_insert_eq.
        destruct (decide (c ∈ c :: cols /\ c <> "id")) as [_|H];
          [reflexivity|].
        exfalso. apply H. split; [now left|exact E].
      * rewrite lookup_insert_ne by exact Hac. rewrite IH.
        destruct (decide (c ∈ cols /\ c <> "id")) as [[H1 H2]|H];
          destruct (decide (c ∈ a :: cols /\ c <> "id")) as [[H3 H4]|H'];
          try reflexivity.
        -- exfalso. apply H'. split; [now right|exact H2].
        -- exfalso. apply H. split; [|exact H4].
           apply elem_of_cons in H3 as [H3|H3]; [congruence|exact H3].
Qed.

Lemma set_cells_idem (cs : gmap string sqlval) (cols : list string)
    (m : gmap string sqlval) :
  set_cells cs cols (set_cells cs cols m) = set_cells cs cols m.
Proof.
  apply map_eq. intros c. rewrite !set_cells_lookup.
  destruct (decide (c ∈ cols /\ c <> "id")); reflexivity.
Qed.

Lemma set_cells_ext (cs1 cs2 : gmap string sqlval) (cols : list string)
    (m : gmap string sqlval) :
  (forall c, c ∈ cols -> cell cs1 c = cell cs2 c) ->
  set_cells cs1 cols m = set_cells cs2 cols m.
Proof.
  intros H. apply map_eq. intros c. rewrite !set_cells_lookup.
  destruct (decide (c ∈ cols /\ c <> "id")) as [[H1 _]|_]; [|reflexivity]. now rewrite H.
Qed.

Lemma set_cells_self (cs : gmap string sqlval) (cols : list string) :
  (forall c, c ∈ cols -> c <> "id" -> is_Some (cs !! c)) ->
  set_cells cs cols cs = cs.
Proof.
  intros H. apply map_eq. intros c. rewrite set_cells_lookup.
  destruct (decide (c ∈ cols /\ c <> "id")) as [[H1 H2]|_]; [|reflexivity].
  destruct (H c H1 H2) as [v Hv]. unfold cell. now rewrite Hv.
Qed.

Lemma set_cells_key (cs : gmap string sqlval) (cols : list string)
    (m : gmap string sqlval) :
  (forall c, c ∈ cols -> c ∉ ts_unique sch) ->
  key_of sch (set_cells cs cols m) = key_of sch m.
Proof.
  intros H. unfold key_of. apply map_ext_in. intros c Hc. unfold cell.
  rewrite set_cells_lookup.
  destruct (decide (c ∈ cols /\ c <> "id")) as [[H1 _]|_]; [|reflexivity].
  exfalso. apply (H c H1). now apply list_elem_of_In.
Qed.

Lemma updated_row_eq (rec : record) (i : Z) (cs : gmap string sqlval)
    (old : srow) :
  rec !! "id" = None ->
  updated_row sch rec i cs old
  = mk_srow (rowid old) (set_cells cs (update_cols sch rec) (cells old)).
Proof.
  intros Hid. unfold updated_row, set_cells.
  destruct (bool_decide ("id" ∈ update_cols sch rec)) eqn:B; [|reflexivity].
  apply bool_decide_eq_true in B.
  apply update_cols_supplied in B as [[v Hv] _]. congruence.
Qed.

Lemma update_conflict_idem (rows : list srow) (k : list sqlval)
    (f : srow -> srow) :
  (forall r, key_of sch (cells (f r)) = key_of sch (cells r)) ->
  (forall r, f (f r) = f r) ->
  update_conflict sch (update_conflict sch rows k f) k f
  = update_conflict sch rows k f.
Proof.
  intros Hk Hf. induction rows as [|r rows IH]; simpl; [reflexivity|].
  destruct (key_conflict (key_of sch (cells r)) k) eqn:E; simpl.
  - rewrite Hk, E. now rewrite Hf.
  - rewrite E. now rewrite IH.
Qed.

Lemma find_conflict_update (rows : list srow) (k : list sqlval)
    (f : srow -> srow) :
  (forall r, key_of sch (cells (f r)) = key_of sch (cells r)) ->
  find_conflict sch (update_conflict sch rows k f) k
  = f <$> find_conflict sch rows k.
Proof.
  intros Hk. unfold find_conflict.
  induction rows as [|r rows IH]; simpl; [reflexivity|].
  destruct (key_conflict (key_of sch (cells r)) k) eqn:E; simpl.
  - now rewrite Hk, E.
  - now rewrite E, IH.
Qed.

Lemma update_conflict_snoc (rows : list srow) (r : srow) (k : list sqlval)
    (f : srow -> srow) :
  find_conflict sch rows k = None ->
  key_conflict (key_of sch (cells r)) k = true ->
  update_conflict sch (rows ++ [r]) k f = (rows ++ [f r])%list
  /\ find_conflict sch (rows ++ [r]) k = Some r.
Proof.
  unfold find_conflict. intros Hn Hc.
  induction rows as [|a rows IH]; simpl in *.
  - now rewrite Hc.
  - destruct (key_conflict (key_of sch (cells a)) k); [discriminate|].
    destruct (IH Hn) as [-> ->]. split; reflexivity.
Qed.

Lemma update_conflict_ext_f (rows : list srow) (k : list sqlval)
    (g f : srow -> srow) :
  (forall r, g r = f r) ->
  update_conflict sch rows k g = update_conflict sch rows k f.
Proof.
  intros H. induction rows as [|r rows IH]; simpl; [reflexivity|].
  destruct (key_conflict (key_of sch (cells r)) k); [now rewrite H|].
  now rewrite IH.
Qed.

Lemma rowid_exists_update (rows : list srow) (k : list sqlval)
    (f : srow -> srow) (i : Z) :
  (forall r, rowid (f r) = rowid r) ->
  rowid_exists (update_conflict sch rows k f) i = rowid_exists rows i.
Proof.
  intros Hf. unfold rowid_exists.
  induction rows as [|r rows IH]; simpl; [reflexivity|].
  destruct (key_conflict (key_of sch (cells r)) k); simpl.
  - now rewrite Hf.
  - now rewrite IH.
Qed.

Lemma known_columns_spec (rec : record) (c : string) :
  known_columns sch rec = true -> is_Some (rec !! c) ->
  c = "id" \/ c ∈ map col_name (ts_columns sch).
Proof.
  unfold known_columns. intros H [v Hv]. rewrite forallb_forall in H.
  assert (Hin : In c (map fst (map_to_list rec))).
  { apply list_elem_of_In, list_elem_of_fmap. exists (c, v).
    split; [reflexivity|]. now apply elem_of_map_to_list. }
  specialize (H c Hin). apply orb_true_iff in H as [H|H].
  - left. now apply String.eqb_eq.
  - right. apply existsb_exists in H as (col & Hc & He).
    apply String.eqb_eq in He. subst c.
    apply list_elem_of_fmap. exists col. split; [reflexivity|].
    now apply list_elem_of_In.
Qed.

Lemma new_rowid_auto (t : table) (rec : record) :
  rec !! "id" = None ->
  new_rowid coerce t rec
  = Ok (Z.max (tbl_seq t) (max_rowid (tbl_rows t)) + 1).
Proof. intros H. unfold new_rowid. now rewrite H. Qed.

(** A second upsert of a record whose stored key holds no NULL rewrites the
    row the first one left, with the same values. *)
Lemma upsert_twice (now1 now2 : string) (t t1 : table) (rec : record) :
  upsert coerce sch now1 t rec = Ok t1 ->
  rec !! "id" = None ->
  key_has_null (key_of sch (new_cells coerce sch now1 rec)) = false ->
  exists t2, upsert coerce sch now2 t1 rec = Ok t2
             /\ tbl_rows t2 = tbl_rows t1.
Proof.
  intros H Hid Hk. unfold upsert in *.
  destruct (bool_decide (rec = ∅) || negb (known_columns sch rec)
            || bool_decide (update_cols sch rec = [])) eqn:G;
    [discriminate|].
  assert (Kn : known_columns sch rec = true).
  { apply orb_false_iff in G as [G _]. apply orb_false_iff in G as [_ G].
    now apply negb_false_iff in G. }
  rewrite !new_rowid_auto in * by exact Hid.
  cbv beta iota delta [mbind res_bind rbind] in H.
  cbv beta iota delta [mbind res_bind rbind].
  rewrite <- (notnull_violation_now now1 now2).
  rewrite <- (key_of_now now1 now2).
  set (cs1 := new_cells coerce sch now1 rec) in *.
  set (cs2 := new_cells coerce sch now2 rec) in *.
  set (k := key_of sch cs1) in *.
  destruct (notnull_violation sch cs1); [discriminate|].
  set (cols := update_cols sch rec) in *.
  assert (Hcols : forall c, c ∈ cols -> cell cs2 c = cell cs1 c).
  { intros c Hc. apply cell_supplied_now.
    now apply update_cols_supplied in Hc as [Hc _]. }
  assert (Hnk : forall c, c ∈ cols -> c ∉ ts_unique sch).
  { intros c Hc. now apply update_cols_supplied in Hc as [_ Hc]. }
  assert (Hf2 : forall i r,
            updated_row sch rec i cs2 r
            = mk_srow (rowid r) (set_cells cs1 cols (cells r))).
  { intros i r. rewrite updated_row_eq by exact Hid. f_equal.
    apply set_cells_ext. exact Hcols. }
  assert (Hf1 : forall i r,
            updated_row sch rec i cs1 r
            = mk_srow (rowid r) (set_cells cs1 cols (cells r))).
  { intros i r. now rewrite updated_row_eq by exact Hid. }
  set (f := fun r => mk_srow (rowid r) (set_cells cs1 cols (cells r))).
  assert (Fk : forall r, key_of sch (cells (f r)) = key_of sch (cells r)).
  { intros r. apply set_cells_key. exact Hnk. }
  assert (Ff : forall r, f (f r) = f r).
  { intros r. unfold f. simpl. f_equal. apply set_cells_idem. }
  destruct (find_conflict sch (tbl_rows t) k) as [old|] eqn:F.
  - rewrite Hf1 in H. cbn [rowid] in H. rewrite Z.eqb_refl in H.
    cbn [negb andb] in H. inversion H; subst t1; clear H.
    cbn [tbl_rows tbl_seq].
    rewrite (update_conflict_ext_f (tbl_rows t) k _ f)
      by (intros r; apply Hf1).
    rewrite (find_conflict_update _ _ _ Fk), F. cbn [fmap option_fmap option_map].
    rewrite Hf2. cbn [rowid]. unfold f at 1. cbn [rowid].
    rewrite Z.eqb_refl. cbn [negb andb].
    eexists. split; [reflexivity|]. cbn [tbl_rows].
    rewrite (update_conflict_ext_f _ k _ f) by (intros r; apply Hf2).
    apply update_conflict_idem; assumption.
  - destruct (rowid_exists (tbl_rows t) _); [discriminate|].
    inversion H; subst t1; clear H. cbn [tbl_rows tbl_seq].
    set (r0 := mk_srow _ cs1).
    assert (Hc : key_conflict (key_of sch (cells r0)) k = true).
    { apply key_conflict_refl. exact Hk. }
    destruct (update_conflict_snoc _ r0 k f F Hc) as [U1 U2].
    rewrite U2. rewrite Hf2. cbn [rowid]. rewrite Z.eqb_refl.
    cbn [negb andb].
    eexists. split; [reflexivity|]. cbn [tbl_rows].
    rewrite (update_conflict_ext_f _ k _ f) by (intros r; apply Hf2).
    rewrite U1. f_equal. unfold f, r0. cbn [rowid cells]. f_equal. f_equal.
    apply set_cells_self. intros c Hc1 Hc2.
    apply update_cols_supplied in Hc1 as [Hs _].
    destruct (known_columns_spec rec c Kn Hs) as [->|Hin]; [congruence|].
    apply list_elem_of_fmap in Hin as (col & -> & Hin).
    unfold cs1. rewrite new_cells_column by exact Hin. eauto.
Qed.

End Upsert.

Lemma upsert_Ok_notnull (coerce : affinity -> sqlval -> sqlval)
    (sch : table_schema) (now : string) (t t1 : table) (rec : record) :
  upsert coerce sch now t rec = Ok t1 ->
  notnull_violation sch (new_cells coerce sch now rec) = false.
Proof.
  unfold upsert.
  destruct (bool_decide (rec = ∅) || negb (known_columns sch rec)
            || bool_decide (update_cols sch rec = [])); [discriminate|].
  destruct (new_rowid coerce t rec); [|discriminate].
  cbv beta iota delta [mbind res_bind rbind].
  destruct (notnull_violation sch (new_cells coerce sch now rec));
    [discriminate|reflexivity].
Qed.

(** C9 (as amended).  For an actual-arrival record (one that names no id)
    whose stored planned_dep is not NULL, an upsert that succeeds can be
    repeated, at any later time, and the repetition succeeds and leaves in
    actual_arrivals_hsp exactly the rows that the first upsert left; the
    prediction tables are not touched. *)
Theorem upsert_actual_arrival_twice (coerce : affinity -> sqlval -> sqlval)
    (now1 now2 : string) (db db1 : database) (rec : record) :
  upsert_actual_arrival coerce now1 db rec = Ok db1 ->
  rec !! "id" = None ->
  cell (new_cells coerce actual_arrivals_hsp_schema now1 rec) "planned_dep"
  <> SNull ->
  exists db2,
    upsert_actual_arrival coerce now2 db1 rec = Ok db2
    /\ table_rows (actual_arrivals_hsp db2)
       = table_rows (actual_arrivals_hsp db1)
    /\ predictions_all db2 = predictions_all db1
    /\ predictions_actual db2 = predictions_actual db1.
Proof.
  unfold upsert_actual_arrival. intros H Hid Hdep.
  destruct (actual_arrivals_hsp db) as [t|]; [|discriminate].
  destruct (upsert coerce actual_arrivals_hsp_schema now1 t rec) as [t1|e]
    eqn:U; [|discriminate].
  cbv beta iota delta [mbind res_bind rbind] in H.
  inversion H; subst db1; clear H. cbn [actual_arrivals_hsp].
  assert (Hk : key_has_null
                 (key_of actual_arrivals_hsp_schema
                    (new_cells coerce actual_arrivals_hsp_schema now1 rec))
               = false).
  { pose proof (upsert_Ok_notnull _ _ _ _ _ _ U) as N.
    set (cs := new_cells coerce actual_arrivals_hsp_schema now1 rec) in *.
    unfold notnull_violation in N.
    cbn [actual_arrivals_hsp_schema ts_columns existsb col_notnull col_name
         andb orb] in N.
    repeat (apply orb_false_iff in N as [? N]).
    unfold key_has_null, key_of.
    cbn [actual_arrivals_hsp_schema ts_unique NATURAL_KEY map existsb].
    repeat (apply orb_false_iff; split); try assumption; try reflexivity.
    destruct (cell cs "planned_dep"); try reflexivity. contradiction. }
  destruct (upsert_twice coerce actual_arrivals_hsp_schema
              actual_arrivals_hsp_schema_ok now1 now2 t t1 rec U Hid Hk)
    as (t2 & U2 & R).
  rewrite U2. cbv beta iota delta [mbind res_bind rbind].
  eexists. split; [reflexivity|]. simpl. auto.
Qed.

Example sample_arrival_rec_made :
  make_actual_arrival_record (sample_pred_row (Some "10:05")) sample_hsp_index
    (Some UTC)
  = Ok (Some (sample_arrival_rec (Some "10:05")))
  /\ sample_arrival_rec (Some "10:05") !! "planned_arr" = Some (SText "10:12")
  /\ sample_arrival_rec (Some "10:05") !! "actual_arr" = Some (SText "10:14")
  /\ exists q, sample_arrival_rec (Some "10:05") !! "actual_arr_delay"
               = Some (SReal q) /\ (q == 2)%Q.
Proof.
  repeat split; try (vm_compute; reflexivity).
  eexists. split; [vm_compute; reflexivity|]. reflexivity.
Qed.

Lemma upsert_actual_arrival_twice_witness :
  let rec := sample_arrival_rec (Some "10:05") in
  let db := ensure_schema new_database in
  let db1 := upsert_or_same "t1" db rec in
  upsert_actual_arrival coerce_id "t1" db rec = Ok db1
  /\ rec !! "id" = None
  /\ List.length (table_rows (actual_arrivals_hsp db1)) = 1%nat
  /\ exists db2,
       upsert_actual_arrival coerce_id "t2" db1 rec = Ok db2
       /\ table_rows (actual_arrivals_hsp db2)
          = table_rows (actual_arrivals_hsp db1).
Proof.
  intros rec db db1.
  assert (H1 : upsert_actual_arrival coerce_id "t1" db rec = Ok db1)
    by (vm_compute; reflexivity).
  assert (H2 : rec !! "id" = None) by (vm_compute; reflexivity).
  assert (H3 : cell (new_cells coerce_id actual_arrivals_hsp_schema "t1" rec)
                 "planned_dep" <> SNull) by (vm_compute; discriminate).
  split; [exact H1|]. split; [exact H2|]. split; [vm_compute; reflexivity|].
  destruct (upsert_actual_arrival_twice coerce_id "t1" "t2" db db1 rec
              H1 H2 H3) as (db2 & U & R & _).
  exists db2. split; [exact U|exact R].
Defined.

(** The record built for a prediction row whose planned_dep is NULL carries
    a NULL planned_dep; upserted once it gives one row, upserted twice it
    gives two. *)
Lemma upsert_null_planned_dep_appends :
  let rec := sample_arrival_rec None in
  let db := ensure_schema new_database in
  let db1 := upsert_or_same "t1" db rec in
  let db2 := upsert_or_same "t2" db1 rec in
  make_actual_arrival_record (sample_pred_row None) sample_hsp_index (Some UTC)
  = Ok (Some rec)
  /\ rec !! "planned_dep" = Some SNull
  /\ upsert_actual_arrival coerce_id "t1" db rec = Ok db1
  /\ upsert_actual_arrival coerce_id "t2" db1 rec = Ok db2
  /\ List.length (table_rows (actual_arrivals_hsp db1)) = 1%nat
  /\ List.length (table_rows (actual_arrivals_hsp db2)) = 2%nat.
Proof. repeat split; vm_compute; reflexivity. Qed.

(** ** The weighted ensemble *)

Section EnsembleFacts.

Variable X : Type.
Variable joblib_load : string -> res (artifact X).

Lemma load_pipeline_stable (p p1 : WeightedEnsemblePredictor X)
    (first second name name' : string) (r : res (pyobj X)) (X_row : X) :
  _load_pipeline X joblib_load p first second name = (p1, r) ->
  model_output joblib_load p1 first second name' X_row
  = model_output joblib_load p first second name' X_row.
Proof.
  unfold _load_pipeline at 1.
  destruct (_pipe_cache p !! (first, second, name)) as [c|] eqn:C.
  { intros H; inversion H; reflexivity. }
  set (loaded := (art ← joblib_load (model_path first second name);
                  pipe ← match art with
                          | ArtDict d =>
                              match d !! "pipeline" with
                              | Some o => Ok o
                              | None => Raise ValueError
                              end
                          | ArtObj o => Ok o
                          end;
                  if is_some (predict pipe) then Ok pipe else Raise TypeError)).
  destruct loaded as [pipe|e] eqn:L; intros H; inversion H; subst;
    [|reflexivity].
  unfold model_output, _load_pipeline. cbn [_pipe_cache _weights].
  destruct (decide (name' = name)) as [->|Hne].
  - rewrite lookup_insert_eq, C. fold loaded. rewrite L. reflexivity.
  - rewrite lookup_insert_ne by congruence.
    destruct (_pipe_cache p !! (first, second, name')); [reflexivity|].
    destruct (art ← joblib_load (model_path first second name');
              pipe0 ← match art with
                       | ArtDict d =>
                           match d !! "pipeline" with
                           | Some o => Ok o
                           | None => Raise ValueError
                           end
                       | ArtObj o => Ok o
                       end;
              if is_some (predict pipe0) then Ok pipe0 else Raise TypeError);
      reflexivity.
Qed.

Lemma predict_loop_sums (first second : string) (X_row : X)
    (items : list (string * Q)) :
  forall (p : WeightedEnsemblePredictor X) (ys : list Q) (aw at_ : Q),
    Forall2 (fun nw y =>
               model_output joblib_load p first second (fst nw) X_row = Ok y)
      items ys ->
    exists p' wsum tot,
      predict_loop X joblib_load p first second X_row items aw at_
      = (p', Ok (wsum, tot))
      /\ (wsum == aw + weighted_sum items ys)%Q
      /\ (tot == at_ + total_weight items)%Q.
Proof.
  induction items as [|[name w] items IH]; intros p ys aw at_ HF.
  - inversion HF; subst. simpl. exists p, aw, at_.
    split; [reflexivity|]. split; ring.
  - inversion HF as [|? y ? ys' Hy HF']; subst. simpl in Hy.
    cbn [predict_loop].
    unfold model_output in Hy.
    destruct (_load_pipeline X joblib_load p first second name)
      as [p1 [pipe|e]] eqn:L; [|discriminate].
    destruct (predict pipe) as [f|]; [|discriminate].
    rewrite Hy.
    assert (HF1 : Forall2 (fun nw y0 =>
              model_output joblib_load p1 first second (fst nw) X_row = Ok y0)
              items ys').
    { eapply Forall2_impl; [exact HF'|]. intros nw y0 H0. simpl in *.
      now rewrite (load_pipeline_stable _ _ _ _ _ _ _ X_row L). }
    destruct (IH p1 ys' (aw + w * y)%Q (at_ + w)%Q HF1)
      as (p' & wsum & tot & E & Hw & Ht).
    exists p', wsum, tot. split; [exact E|].
    split; [rewrite Hw|rewrite Ht]; simpl; ring.
Qed.

(** C3 (as amended).  With no entry for the key "first_second" in the
    weights map, or an empty one, [predict_one] returns not-present.  With a
    non-empty entry whose sub-models all yield a prediction, it returns the
    weighted sum of the predictions divided by the total weight when the
    total weight is strictly positive, and the weighted sum itself, not
    divided, when the total weight is not strictly positive. *)
Theorem predict_one_weighted (p : WeightedEnsemblePredictor X)
    (first second : string) (X_row : X) :
  (_weights p !! (first +:+ "_" +:+ second) = None ->
   predict_one X joblib_load p first second X_row = (p, Ok None))
  /\ (_weights p !! (first +:+ "_" +:+ second) = Some [] ->
      predict_one X joblib_load p first second X_row = (p, Ok None))
  /\ (forall wdict ys,
        _weights p !! (first +:+ "_" +:+ second) = Some wdict ->
        wdict <> [] ->
        Forall2 (fun nw y =>
                   model_output joblib_load p first second (fst nw) X_row
                   = Ok y) wdict ys ->
        exists p' r,
          predict_one X joblib_load p first second X_row = (p', Ok (Some r))
          /\ ((0 < total_weight wdict)%Q ->
              (r == weighted_sum wdict ys / total_weight wdict)%Q)
          /\ ((total_weight wdict <= 0)%Q ->
              (r == weighted_sum wdict ys)%Q)).
Proof.
  split; [|split].
  - intros H. unfold predict_one. now rewrite H.
  - intros H. unfold predict_one. now rewrite H.
  - intros wdict ys H Hne HF. unfold predict_one. rewrite H.
    destruct wdict as [|nw wdict]; [congruence|].
    destruct (predict_loop_sums first second X_row (nw :: wdict) p ys 0 0 HF)
      as (p' & wsum & tot & E & Hw & Ht).
    rewrite E. rewrite Qplus_0_l in Hw, Ht.
    exists p'. eexists. split; [reflexivity|].
    destruct (Qltb 0 tot) eqn:B.
    + apply Qltb_true in B. split; intros Hp.
      * now rewrite Hw, Ht.
      * rewrite Ht in B. exfalso. lra.
    + apply Qltb_false in B. split; intros Hp.
      * rewrite Ht in B. exfalso. lra.
      * exact Hw.
Qed.

End EnsembleFacts.

Lemma predict_one_weighted_witness :
  let p := sample_predictor (2 # 1) in
  let wdict := [("rf", 2 # 1)] in
  _weights p !! ("SOTON" +:+ "_" +:+ "SOTPKWY") = Some wdict
  /\ (exists p' r,
        predict_one unit sample_load p "SOTON" "SOTPKWY" tt
        = (p', Ok (Some r))
        /\ ((0 < total_weight wdict)%Q ->
            (r == weighted_sum wdict [5 # 2] / total_weight wdict)%Q)
        /\ ((total_weight wdict <= 0)%Q -> (r == weighted_sum wdict [5 # 2])%Q))
  /\ (0 < total_weight wdict)%Q.
Proof.
  intros p wdict.
  assert (H : _weights p !! ("SOTON" +:+ "_" +:+ "SOTPKWY") = Some wdict)
    by (vm_compute; reflexivity).
  split; [exact H|]. split; [|reflexivity].
  destruct (predict_one_weighted unit sample_load p "SOTON" "SOTPKWY" tt)
    as (_ & _ & Hw).
  apply (Hw wdict [5 # 2] H); [discriminate|].
  constructor; [vm_compute; reflexivity|constructor].
Defined.

(** A weights entry whose single weight is zero: the total weight is not
    strictly positive, and a number comes back, not not-present. *)
Lemma predict_one_zero_total_is_present :
  let p := sample_predictor 0 in
  _weights p !! "SOTON_SOTPKWY" = Some [("rf", 0%Q)]
  /\ (total_weight [("rf", 0%Q)] <= 0)%Q
  /\ exists r,
       snd (predict_one unit sample_load p "SOTON" "SOTPKWY" tt)
       = Ok (Some r)
       /\ (r == 0)%Q.
Proof.
  split; [vm_compute; reflexivity|]. split; [vm_compute; discriminate|].
  eexists. split; [vm_compute; reflexivity|reflexivity].
Qed.

(** ** The dispatch policy of the realtime orchestrator *)

Lemma evict_nonneg (od : list (seg_id * SegmentState)) (m : Z) :
  0 <= m -> exists od', evict od m = Ok od'.
Proof.
  intros Hm. induction od as [|x od IH]; simpl.
  - replace (m <? 0) with false by (symmetry; apply Z.ltb_ge; lia). eauto.
  - destruct (m <? Z.of_nat (S (List.length od))); eauto.
Qed.

(** Whatever the cache holds, the body finds no previous state: it asks for
    a snapshot in predictions_all every time and for one in
    predictions_actual whenever the departure is confirmed. *)
Lemma on_decoded_segment_flags (c : RecentSegmentCache)
    (st : RealTimeSQLiteStore) (s : segment) (feat : features) (yhat : Q) :
  0 <= max_size c ->
  exists c' st' d,
    on_decoded_segment c st s feat yhat = Ok (c', st', d)
    /\ should_insert_all d = true
    /\ should_insert_actual d = Seg.has_actual_dep s.
Proof.
  intros Hm. unfold on_decoded_segment.
  change (cache_hasattr "get_last_dep_time") with false.
  change (cache_hasattr "get_last_kind") with false.
  change (cache_hasattr "get_actual_saved") with false.
  cbv beta iota delta [mbind res_bind rbind].
  unfold touch.
  destruct (evict_nonneg
              (od_remove (_od c) (seg_id_of s)
               ++ [(seg_id_of s,
                    let state :=
                      mk_state (Seg.dep_time_for_prediction s)
                        (Seg.dep_time_kind s)
                        (actual_saved
                           (default SegmentState_default
                              (od_get (_od c) (seg_id_of s))))
                        (_tick c + 1) in
                    if Seg.has_actual_dep s
                       && negb (String.eqb (last_kind state) "actual")
                    then mk_state (last_dep_time state) "actual"
                           (actual_saved state) (last_seen_order state)
                    else state)])
              (max_size c) Hm) as [od' E].
  cbv zeta in E. cbv zeta. rewrite E.
  cbv beta iota delta [mbind res_bind rbind]. cbn [fst is_some negb andb orb].
  destruct (insert_all st (make_rec s feat yhat)) as [st1 b1].
  destruct (Seg.has_actual_dep s); cbn [andb negb].
  - destruct (insert_actual st1 (make_rec s feat yhat)) as [st2 b2].
    eexists _, _, _. split; [reflexivity|]. split; reflexivity.
  - eexists _, _, _. split; [reflexivity|]. split; reflexivity.
Qed.

(** C2, on the code.  The same frame is decoded twice.  After the first pass
    the cache holds for the segment the departure time 09:04 and the kind
    actual, with actual_saved set; by the stated policy the second pass
    should enqueue nothing.  The second pass enqueues to predictions_all and
    to predictions_actual again: four records are queued. *)
Theorem on_decoded_replay_enqueues_again :
  let c0 := RecentSegmentCache_new 500 in
  let st0 := RealTimeSQLiteStore_new new_database 5000 in
  let r1 := sample_pass c0 st0 in
  let r2 := sample_pass (pass_cache r1) (pass_store r1) in
  exists s d1 d2,
    pass_dispatches r1 = [(s, d1)]
    /\ pass_dispatches r2 = [(s, d2)]
    /\ od_get (_od (pass_cache r1)) (seg_id_of s)
       = Some (mk_state (Some "09:04") "actual" true 1)
    /\ Seg.dep_time_for_prediction s = Some "09:04"
    /\ Seg.dep_time_kind s = "actual"
    /\ Seg.has_actual_dep s = true
    /\ spec_should_insert_all (pass_cache r1) s = false
    /\ spec_should_insert_actual (pass_cache r1) s = false
    /\ d1 = mk_dispatch true true (Some true) (Some true)
    /\ d2 = mk_dispatch true true (Some true) (Some true)
    /\ List.length (_q (pass_store r1)) = 2%nat
    /\ List.length (_q (pass_store r2)) = 4%nat.
Proof.
  eexists _, _, _.
  split; [vm_compute; reflexivity|].
  repeat split; vm_compute; reflexivity.
Qed.

(** ** The segment extractor and its direction filter *)

Lemma ymd_raises_ValueError (s : string) (e : exn) :
  Strptime.ymd s = Raise e -> e = ValueError.
Proof.
  unfold Strptime.ymd.
  destruct s as [|y1 [|y2 [|y3 [|y4 [|dash r]]]]]; try congruence.
  destruct (Py.is_digit y1 && Py.is_digit y2 && Py.is_digit y3
            && Py.is_digit y4 && Ascii.eqb dash "-"); [|congruence].
  destruct (Strptime.first_month_day (Strptime.month_alts r))
    as [[[m d] rest]|]; [|congruence].
  destruct (String.eqb rest ""); [|congruence].
  unfold date_new. destruct (_ && _); congruence.
Qed.

Lemma datetime_combine_bounds (d : date) (t : time) :
  1 <= toordinal d -> time_in_range t ->
  0 <= wall (datetime_combine d t) < toordinal d * US_PER_DAY.
Proof.
  intros Hd (Hh & Hm & Hs).
  unfold datetime_combine, US_PER_DAY, US_PER_HOUR, US_PER_MINUTE,
    US_PER_SECOND. simpl. nia.
Qed.

Lemma combine_date_time_ok (d : string) (t : option string)
    (tz : option tzinfo) :
  clock_ok t -> ssd_ok (Some d) ->
  exists r, combine_date_time d t tz = Ok r
            /\ forall dt, r = Some dt ->
                 0 <= wall dt /\ wall dt + timedelta_days 1 <= MAX_WALL.
Proof.
  unfold clock_ok, ssd_ok, combine_date_time. intros Hc Hs.
  destruct (parse_hms t) as [[tm|]|e] eqn:Et; try discriminate.
  2:{ exists None. split; [reflexivity|discriminate]. }
  cbv beta iota delta [mbind res_bind rbind].
  destruct (Strptime.ymd d) as [dd|e] eqn:Ed.
  - eexists. split; [reflexivity|]. intros dt H. inversion H; subst.
    pose proof (datetime_combine_bounds dd tm (ymd_ordinal _ _ Ed)
                  (parse_hms_Some_range _ _ Et)) as B.
    assert (W : wall (if is_some tz
                      then replace_tzinfo (datetime_combine dd tm) tz
                      else datetime_combine dd tm)
                = wall (datetime_combine dd tm)).
    { destruct (is_some tz); reflexivity. }
    rewrite W. unfold timedelta_days, MAX_WALL in *.
    assert (0 < US_PER_DAY) by (vm_compute; reflexivity). nia.
  - apply ymd_raises_ValueError in Ed. subst e.
    exists None. split; [reflexivity|discriminate].
Qed.

(** Under the side conditions the smart combine returns. *)
Lemma combine_date_time_smart_ok (d : string) (t : option string)
    (base : option datetime) (tz : option tzinfo) (thr : timedelta) :
  clock_ok t -> ssd_ok (Some d) ->
  exists r, combine_date_time_smart d t base tz thr = Ok r.
Proof.
  intros Hc Hs.
  destruct (combine_date_time_ok d t tz Hc Hs) as (r & E & B).
  destruct r as [naive|].
  2:{ unfold combine_date_time_smart. rewrite E. eauto. }
  destruct base as [b|].
  2:{ unfold combine_date_time_smart. rewrite E. eauto. }
  rewrite (combine_smart_unfold _ _ _ _ _ _ E). cbv zeta.
  destruct ((0 <? gap_before b naive) && (thr <? gap_before b naive));
    [|eauto].
  destruct (B naive eq_refl) as [B1 B2].
  unfold dt_add. rewrite match_awareness_wall.
  replace ((0 <=? wall naive + timedelta_days 1)
           && (wall naive + timedelta_days 1 <=? MAX_WALL)) with true.
  - cbv beta iota delta [mbind res_bind rbind]. eauto.
  - symmetry. apply andb_true_iff.
    assert (0 < timedelta_days 1) by (vm_compute; reflexivity).
    split; apply Z.leb_le; lia.
Qed.

Lemma combine_if_ok (guard : bool) (ssd_ t : option string)
    (base : option datetime) (tz : option tzinfo) :
  clock_ok t -> ssd_ok ssd_ ->
  exists r, combine_if guard ssd_ t base tz = Ok r.
Proof.
  intros Hc Hs. unfold combine_if. destruct ssd_ as [d|]; [|eauto].
  destruct guard; [|eauto]. now apply combine_date_time_smart_ok.
Qed.

Lemma diff_minutes_wrap_ok (a b : option datetime) :
  exists r, diff_minutes_wrap a b = Ok r.
Proof.
  destruct a as [a|], b as [b|]; try (simpl; eauto; fail).
  rewrite diff_minutes_wrap_eq. eauto.
Qed.

Lemma clock_ok_None : clock_ok None.
Proof. reflexivity. Qed.

Lemma first_non_empty_clock_ok (loc : row) (keys : list string) :
  row_clocks_ok loc -> clock_ok (_first_non_empty loc keys).
Proof.
  intros H. induction keys as [|k keys IH]; simpl; [apply clock_ok_None|].
  destruct (truthy (dict_get loc k)); [apply H|exact IH].
Qed.

Lemma py_or_clock_ok (a b : option string) :
  clock_ok a -> clock_ok b -> clock_ok (py_or a b).
Proof. intros Ha Hb. unfold py_or. destruct (truthy a); assumption. Qed.

Ltac res_cases H :=
  cbv beta iota delta [mbind res_bind rbind] in H;
  repeat match type of H with
         | match ?r with _ => _ end = _ =>
             let E := fresh "E" in destruct r eqn:E; [|discriminate H]
         end.

Lemma build_record_pair (rid_ ssd_ : option string) (tz : option tzinfo)
    (first_station : option string) (a_code b_code : string)
    (loc_a loc_b : row) (s : segment) :
  build_record rid_ ssd_ tz first_station a_code b_code loc_a loc_b = Ok s ->
  seg_pair s = (a_code, b_code).
Proof.
  unfold build_record. intros H.
  match type of H with
  | context [let '(_, _) := ?e in _] => destruct e as [dtp kind]
  end.
  res_cases H. inversion H; subst. reflexivity.
Qed.

Lemma build_record_ok (rid_ ssd_ : option string) (tz : option tzinfo)
    (first_station : option string) (a_code b_code : string)
    (loc_a loc_b : row) :
  row_clocks_ok loc_a -> ssd_ok ssd_ ->
  exists s,
    build_record rid_ ssd_ tz first_station a_code b_code loc_a loc_b = Ok s.
Proof.
  intros Hr Hs. unfold build_record.
  match goal with
  | |- context [let '(_, _) := ?e in _] =>
      assert (Hd : clock_ok (fst e));
      [|destruct e as [dtp kind]; simpl in Hd]
  end.
  { destruct (is_some (_pick_confirmed_actual_dep loc_a)); cbn [fst];
      [apply first_non_empty_clock_ok; exact Hr|].
    destruct (truthy (_pick_estimated_dep loc_a)); cbn [fst];
      [apply first_non_empty_clock_ok; exact Hr|].
    destruct (truthy (_pick_working_dep loc_a)); cbn [fst];
      apply first_non_empty_clock_ok; exact Hr. }
  pose proof (first_non_empty_clock_ok loc_a) as F.
  cbv beta iota delta [mbind res_bind rbind].
  repeat
    match goal with
    | |- exists _, match combine_if ?g ?d ?t ?b ?z with _ => _ end = _ =>
        let x := fresh "x" in
        let E := fresh "E" in
        destruct (combine_if_ok g d t b z) as [x E];
        [first [exact Hd | apply F; exact Hr
               | apply py_or_clock_ok; apply F; exact Hr]
        | exact Hs
        | rewrite E]
    | |- exists _, match diff_minutes_wrap ?a ?b with _ => _ end = _ =>
        let x := fresh "x" in
        let E := fresh "E" in
        destruct (diff_minutes_wrap_ok a b) as [x E]; rewrite E
    end.
  eauto.
Qed.

Lemma build_tpl_index_rows (forecasts : list row) (a : string) (r : row) :
  _build_tpl_index forecasts !! a = Some r ->
  r ∈ forecasts /\ r <> ∅.
Proof.
  unfold _build_tpl_index.
  assert (G : forall l (acc : gmap string row),
            (forall a r, acc !! a = Some r -> r ∈ forecasts /\ r <> ∅) ->
            (forall r, r ∈ l -> r ∈ forecasts) ->
            forall a r,
              fold_left
                (fun by_tpl r0 =>
                   match dict_get r0 "tpl" with
                   | Some tpl =>
                       if truthy (Some tpl) then <[tpl := r0]> by_tpl
                       else by_tpl
                   | None => by_tpl
                   end) l acc !! a = Some r ->
              r ∈ forecasts /\ r <> ∅).
  { induction l as [|x l IH]; intros acc Hacc Hl a' r'; simpl; [apply Hacc|].
    apply IH; [|intros r0 H0; apply Hl; now right].
    intros a0 r0. destruct (dict_get x "tpl") as [tpl|] eqn:T; [|apply Hacc].
    match goal with
    | |- context [if ?c then _ else _] => destruct c
    end; [|apply Hacc].
    destruct (decide (tpl = a0)) as [->|Hne].
    - rewrite lookup_insert_eq. intros H; inversion H; subst.
      split; [apply Hl; now left|].
      intros ->. unfold dict_get in T. rewrite lookup_empty in T.
      discriminate.
    - rewrite lookup_insert_ne by exact Hne. apply Hacc. }
  apply G; [|auto]. intros a0 r0. rewrite lookup_empty. discriminate.
Qed.

Section ExtractLoop.

Variables (rid_ ssd_ : option string) (tz : option tzinfo)
  (first_station : option string) (by_tpl : gmap string row).

Hypothesis rows_nonempty : forall a r, by_tpl !! a = Some r -> r <> ∅.

Lemma index_row_truthy (a : string) (r : row) :
  by_tpl !! a = Some r -> row_truthy (Some r) = true.
Proof.
  intros H. unfold row_truthy. apply negb_true_iff, bool_decide_eq_false.
  eapply rows_nonempty; eauto.
Qed.

(** One record per tracked pair with both locations in the index, in route
    order, and no other record. *)
Lemma extract_loop_pairs (pairs : list (string * string)) :
  forall out,
    extract_loop rid_ ssd_ tz first_station by_tpl pairs = Ok out ->
    map seg_pair out = List.filter (pair_present by_tpl) pairs.
Proof.
  induction pairs as [|[a b] pairs IH]; intros out H; simpl in H.
  - inversion H. reflexivity.
  - simpl. unfold pair_present at 1. simpl.
    destruct (by_tpl !! a) as [la|] eqn:Ea; simpl; [|now apply IH].
    destruct (by_tpl !! b) as [lb|] eqn:Eb; simpl; [|now apply IH].
    rewrite (index_row_truthy a la Ea), (index_row_truthy b lb Eb) in H.
    simpl in H.
    destruct (build_record rid_ ssd_ tz first_station a b la lb) as [s|e]
      eqn:B; [|discriminate].
    cbv beta iota delta [mbind res_bind rbind] in H.
    destruct (extract_loop rid_ ssd_ tz first_station by_tpl pairs)
      as [out'|e] eqn:L; [|discriminate].
    inversion H; subst. simpl.
    rewrite (build_record_pair _ _ _ _ _ _ _ _ _ B). f_equal. now apply IH.
Qed.

Lemma extract_loop_ok (pairs : list (string * string)) :
  (forall a r, by_tpl !! a = Some r -> row_clocks_ok r) -> ssd_ok ssd_ ->
  exists out, extract_loop rid_ ssd_ tz first_station by_tpl pairs = Ok out.
Proof.
  intros Hc Hs. induction pairs as [|[a b] pairs IH]; simpl; [eauto|].
  destruct IH as [out' IH].
  destruct (by_tpl !! a) as [la|] eqn:Ea; [|eauto].
  destruct (by_tpl !! b) as [lb|] eqn:Eb; [|eauto].
  destruct (negb (row_truthy (Some la)) || negb (row_truthy (Some lb)));
    [eauto|].
  destruct (build_record_ok rid_ ssd_ tz first_station a b la lb
              (Hc a la Ea) Hs) as [s ->].
  rewrite IH. cbv beta iota delta [mbind res_bind rbind]. eauto.
Qed.

End ExtractLoop.

Lemma schedule_match (schedules : list row) (origin dest : string) :
  _schedule_endpoints schedules = (Some origin, Some dest) ->
  _rid_matches_station_pairs_direction schedules
  = Some (String.eqb origin route_origin
          && String.eqb dest route_destination).
Proof.
  intros H. unfold _rid_matches_station_pairs_direction.
  unfold STATION_PAIRS at 1. rewrite H. reflexivity.
Qed.


Lemma row_clocks_ok_check (r : row) :
  forallb (fun kv => is_ok (parse_hms (snd kv))) (map_to_list r) = true ->
  row_clocks_ok r.
Proof.
  intros H k. unfold clock_ok, dict_get.
  destruct (r !! k) as [v|] eqn:E; [|reflexivity].
  rewrite forallb_forall in H.
  apply (H (k, v)). apply list_elem_of_In. now apply elem_of_map_to_list.
Qed.


Example extract_segments_swapped_endpoints :
  extract_segments sample_forecasts (sample_schedules "WATRLMN" "WEYMTH")
    (Some UTC) true = Ok [].
Proof. vm_compute. reflexivity. Qed.

(** ** The in-progress filter *)

Lemma combine_date_time_spec (d : string) (t : option string)
    (tz : option tzinfo) :
  clock_ok t ->
  combine_date_time d t tz
  = Ok ((fun w => mk_dt w tz) <$> spec_timestamp (Some d) t).
Proof.
  unfold clock_ok, combine_date_time, spec_timestamp. intros Hc.
  destruct t as [c|]; [|reflexivity].
  destruct (parse_hms (Some c)) as [[tm|]|e]; try discriminate;
    [|reflexivity].
  cbv beta iota delta [mbind res_bind rbind].
  destruct (Strptime.ymd d) as [dd|e] eqn:Ed.
  - simpl. destruct tz; reflexivity.
  - apply ymd_raises_ValueError in Ed. subst e. reflexivity.
Qed.

Lemma combine_smart_no_base (d : string) (t : option string)
    (tz : option tzinfo) (thr : timedelta) :
  combine_date_time_smart d t None tz thr = combine_date_time d t tz.
Proof.
  unfold combine_date_time_smart.
  destruct (combine_date_time d t tz) as [[dt|]|e]; reflexivity.
Qed.

Lemma spec_timestamp_falsy (ssd_ t : option string) :
  negb (truthy ssd_) || negb (truthy t) = true ->
  spec_timestamp ssd_ t = None.
Proof.
  unfold spec_timestamp. intros H.
  destruct ssd_ as [d|]; [|reflexivity]. destruct t as [c|]; [|reflexivity].
  apply orb_true_iff in H as [H|H]; apply negb_true_iff in H; simpl in H;
    apply negb_false_iff, String.eqb_eq in H; subst.
  - destruct (parse_hms (Some c)) as [[tm|]|e]; reflexivity.
  - reflexivity.
Qed.

Lemma _planned_dep_dt_spec (seg : segment) (tz : option tzinfo) :
  clock_ok (Seg.planned_dep seg) ->
  _planned_dep_dt seg tz
  = Ok ((fun w => mk_dt w tz)
        <$> spec_timestamp (Seg.ssd seg) (Seg.planned_dep seg)).
Proof.
  intros Hc. unfold _planned_dep_dt.
  destruct (Seg.ssd seg) as [d|] eqn:Es; [|reflexivity].
  destruct (negb (truthy (Some d)) || negb (truthy (Seg.planned_dep seg)))
    eqn:G.
  - now rewrite (spec_timestamp_falsy _ _ G).
  - rewrite combine_smart_no_base. now apply combine_date_time_spec.
Qed.

Lemma spec_timestamp_bounds (d : string) (t : option string) (w : Z) :
  ssd_ok (Some d) -> spec_timestamp (Some d) t = Some w ->
  0 <= w /\ w + timedelta_days 1 <= MAX_WALL.
Proof.
  unfold ssd_ok, spec_timestamp. intros Hs H.
  destruct t as [c|]; [|discriminate].
  destruct (parse_hms (Some c)) as [[tm|]|e] eqn:Et; try discriminate.
  destruct (Strptime.ymd d) as [dd|e] eqn:Ed; [|discriminate].
  inversion H; subst.
  pose proof (datetime_combine_bounds dd tm (ymd_ordinal _ _ Ed)
                (parse_hms_Some_range _ _ Et)) as B.
  unfold timedelta_days, MAX_WALL in *.
  unfold datetime_combine in B. cbn [wall] in B.
  assert (0 < US_PER_DAY) by (vm_compute; reflexivity). nia.
Qed.

Lemma match_awareness_same (a b : Z) (tz : option tzinfo) :
  match_awareness (mk_dt a tz) (mk_dt b tz) = mk_dt b tz.
Proof. destruct tz; reflexivity. Qed.

Lemma gap_before_same (a b : Z) (tz : option tzinfo) :
  gap_before (mk_dt a tz) (mk_dt b tz) = a - b.
Proof.
  unfold gap_before, raw_difference. rewrite match_awareness_same.
  unfold dt_operands, same_tz. destruct tz as [z|]; simpl.
  - rewrite String.eqb_refl. simpl. lia.
  - lia.
Qed.

Lemma _planned_arr_dt_spec (seg : segment) (tz : option tzinfo) (dep : Z) :
  clock_ok (Seg.planned_arr_second seg) -> ssd_ok (Seg.ssd seg) ->
  _planned_arr_dt (set__planned_dep_dt_for_filter (Some (mk_dt dep tz)) seg) tz
  = Ok ((fun a => mk_dt (spec_planned_arrival dep a) tz)
        <$> spec_timestamp (Seg.ssd seg) (Seg.planned_arr_second seg)).
Proof.
  intros Hc Hs. unfold _planned_arr_dt. cbn [set__planned_dep_dt_for_filter
    Seg.ssd Seg.planned_arr_second Seg._planned_dep_dt_for_filter].
  destruct (Seg.ssd seg) as [d|] eqn:Es; [|reflexivity].
  destruct (negb (truthy (Some d))
            || negb (truthy (Seg.planned_arr_second seg))) eqn:G.
  { now rewrite (spec_timestamp_falsy _ _ G). }
  pose proof (combine_date_time_spec d (Seg.planned_arr_second seg) tz Hc)
    as C.
  destruct (spec_timestamp (Some d) (Seg.planned_arr_second seg)) as [a|]
    eqn:T; simpl in C.
  2:{ unfold combine_date_time_smart. now rewrite C. }
  rewrite (combine_smart_unfold _ _ _ _ _ _ C). cbv zeta.
  rewrite match_awareness_same, gap_before_same.
  destruct (spec_timestamp_bounds d _ a Hs T) as [B1 B2].
  unfold spec_planned_arrival, default_rollover_threshold. simpl.
  assert (H2 : 0 < timedelta_hours 2) by (vm_compute; reflexivity).
  destruct (timedelta_hours 2 <? dep - a) eqn:E.
  - apply Z.ltb_lt in E.
    replace (0 <? dep - a) with true by (symmetry; apply Z.ltb_lt; lia).
    simpl. unfold dt_add. simpl.
    replace ((0 <=? a + timedelta_days 1)
             && (a + timedelta_days 1 <=? MAX_WALL)) with true.
    + reflexivity.
    + symmetry. apply andb_true_iff.
      assert (0 < timedelta_days 1) by (vm_compute; reflexivity).
      split; apply Z.leb_le; lia.
  - rewrite andb_false_r. reflexivity.
Qed.

Lemma clock_match_operands (tz tz' : option tzinfo) (a b : Z) :
  clock_match tz tz' ->
  dt_operands (mk_dt a tz) (mk_dt b tz') = Ok (a, b).
Proof.
  unfold clock_match, dt_operands. simpl.
  destruct tz, tz'; try tauto. intros ->. reflexivity.
Qed.

Lemma _to_aware_same (w : Z) (tz : option tzinfo) :
  _to_aware (mk_dt w tz) tz = mk_dt w tz.
Proof. destruct tz; reflexivity. Qed.

Lemma in_progress_loop_spec (tz tz' : option tzinfo) (l1 l2 : Z)
    (segs : list segment) :
  clock_match tz tz' ->
  Forall seg_times_ok segs ->
  in_progress_loop segs tz (mk_dt l1 tz') (mk_dt l2 tz')
  = Ok (map (set__planned_dep_dt_for_filter None)
          (List.filter (keep_by_limits l1 l2) segs)).
Proof.
  intros Hm HF. induction HF as [|seg segs (Hd & Ha & Hs) HF IH];
    [reflexivity|].
  cbn [in_progress_loop List.filter]. unfold keep_by_limits at 1.
  rewrite (_planned_dep_dt_spec seg tz Hd).
  cbv beta iota delta [mbind res_bind rbind].
  destruct (spec_timestamp (Seg.ssd seg) (Seg.planned_dep seg)) as [dep|];
    cbn [fmap option_fmap option_map]; [|exact IH].
  rewrite _to_aware_same.
  rewrite (_planned_arr_dt_spec seg tz dep Ha Hs).
  destruct (spec_timestamp (Seg.ssd seg) (Seg.planned_arr_second seg))
    as [arr|]; cbn [fmap option_fmap option_map]; [|exact IH].
  rewrite _to_aware_same. unfold dt_le, dt_ge.
  rewrite !(clock_match_operands tz tz' _ _ Hm).
  cbv beta iota delta [mbind res_bind rbind]. cbn [fst snd].
  rewrite IH.
  destruct (dep <=? l1); cbn [andb]; [|reflexivity].
  destruct (l2 <=? spec_planned_arrival dep arr); reflexivity.
Qed.

Lemma to_aware_now (now : datetime) (tz : option tzinfo) :
  now_compatible now tz ->
  exists tz', _to_aware now tz = mk_dt (wall now) tz' /\ clock_match tz tz'.
Proof.
  unfold now_compatible, _to_aware, clock_match, replace_tzinfo.
  destruct now as [w [z'|]], tz as [z|]; simpl; intros H.
  - eauto.
  - contradiction.
  - exists (Some z). split; [reflexivity|].
    unfold same_tz. apply String.eqb_refl.
  - eauto.
Qed.



(** ** The recent-segment cache *)

Lemma evict_drop (od : list (seg_id * SegmentState)) (m : Z) :
  0 <= m -> evict od m = Ok (drop (List.length od - Z.to_nat m) od).
Proof.
  intros Hm. induction od as [|x od IH]; cbn [evict].
  - destruct (Z.ltb_spec m 0); [lia|reflexivity].
  - destruct (Z.ltb_spec m (Z.of_nat (List.length (x :: od)))) as [E|E];
      cbn [List.length] in *.
    + rewrite IH.
      destruct ((S (List.length od) - Z.to_nat m)%nat) as [|j] eqn:J; [lia|].
      simpl. do 2 f_equal. lia.
    + replace (S (List.length od) - Z.to_nat m)%nat with 0%nat by lia.
      reflexivity.
Qed.

Lemma evict_negative (od : list (seg_id * SegmentState)) (m : Z) :
  m < 0 -> evict od m = Raise KeyError.
Proof.
  intros Hm. induction od as [|x od IH]; cbn [evict].
  - destruct (Z.ltb_spec m 0); [reflexivity|lia].
  - destruct (Z.ltb_spec m (Z.of_nat (List.length (x :: od)))) as [E|E];
      [exact IH|lia].
Qed.

Lemma touch_unfold (c : RecentSegmentCache) (k : seg_id)
    (dep_time : option string) (kind : string) (has_actual : bool) :
  touch c k dep_time kind has_actual
  = (let st := touched_state c k dep_time kind has_actual in
     od ← evict (touched_entries c k st) (max_size c);
     Ok (mk_cache (max_size c) od (_tick c + 1), st)).
Proof.
  unfold touch, touched_state, touched_entries. cbn [last_kind last_dep_time
    actual_saved last_seen_order].
  assert (E : (if has_actual && negb (String.eqb kind "actual")
               then mk_state dep_time "actual"
                      (actual_saved (default SegmentState_default
                                       (od_get (_od c) k))) (_tick c + 1)
               else mk_state dep_time kind
                      (actual_saved (default SegmentState_default
                                       (od_get (_od c) k))) (_tick c + 1))
              = mk_state dep_time (if has_actual then "actual" else kind)
                  (match od_get (_od c) k with
                   | Some e => actual_saved e
                   | None => false
                   end) (_tick c + 1)).
  { destruct has_actual; simpl.
    - destruct (String.eqb kind "actual") eqn:K; simpl.
      + apply String.eqb_eq in K. subst kind.
        destruct (od_get (_od c) k); reflexivity.
      + destruct (od_get (_od c) k); reflexivity.
    - destruct (od_get (_od c) k); reflexivity. }
  rewrite E. reflexivity.
Qed.

Lemma od_get_remove (od : list (seg_id * SegmentState)) (k : seg_id) :
  od_get (od_remove od k) k = None.
Proof.
  induction od as [|[k' v] od IH]; simpl; [reflexivity|].
  destruct (bool_decide (k' = k)) eqn:E; [exact IH|].
  simpl. rewrite E. exact IH.
Qed.

Lemma od_get_app_None (l1 l2 : list (seg_id * SegmentState)) (k : seg_id) :
  od_get l1 k = None -> od_get (l1 ++ l2) k = od_get l2 k.
Proof.
  induction l1 as [|[k' v] l1 IH]; simpl; [reflexivity|].
  destruct (bool_decide (k' = k)); [discriminate|exact IH].
Qed.

Lemma od_get_drop_None (n : nat) (l : list (seg_id * SegmentState)) (k : seg_id) :
  od_get l k = None -> od_get (drop n l) k = None.
Proof.
  revert l. induction n as [|n IH]; intros [|[k' v] l]; simpl; try reflexivity;
    try (intros H; exact H).
  destruct (bool_decide (k' = k)); [discriminate|]. apply IH.
Qed.

(** X1.  With a non-negative [max_size], [touch] returns, and leaves the cache
    holding the last [max_size] entries of the old entries without the touched
    key followed by the touched key: eviction removes the least recently used
    entries first and the cache never holds more than [max_size] entries. *)
Theorem touch_keeps_most_recent (c : RecentSegmentCache) (k : seg_id)
    (dep_time : option string) (kind : string) (has_actual : bool) :
  0 <= max_size c ->
  let st := touched_state c k dep_time kind has_actual in
  let l := touched_entries c k st in
  exists c',
    touch c k dep_time kind has_actual = Ok (c', st)
    /\ _od c' = drop (List.length l - Z.to_nat (max_size c)) l
    /\ max_size c' = max_size c
    /\ cache_len c' <= max_size c
    /\ cache_len c' = Z.min (max_size c) (Z.of_nat (List.length l)).
Proof.
  intros Hm st l. rewrite touch_unfold. cbv zeta. fold st. fold l.
  rewrite (evict_drop l _ Hm).
  eexists. split; [reflexivity|]. cbn [_od max_size].
  split; [reflexivity|]. split; [reflexivity|].
  unfold cache_len. cbn [_od]. rewrite length_drop. lia.
Qed.

Lemma touch_keeps_most_recent_witness :
  0 <= max_size sample_cache
  /\ exists c',
       touch sample_cache (Some "X3", "POOLE", "PSTONE", Some "11:00")
         (Some "11:02") "estimate" false
       = Ok (c', mk_state (Some "11:02") "estimate" false 3)
       /\ map fst (_od c')
          = [ (Some "X2", "WEYMTH", "UPWEY", Some "10:05");
              (Some "X3", "POOLE", "PSTONE", Some "11:00") ].
Proof.
  split; [vm_compute; discriminate|].
  destruct (touch_keeps_most_recent sample_cache
              (Some "X3", "POOLE", "PSTONE", Some "11:00")
              (Some "11:02") "estimate" false) as (c' & T & O & _).
  { vm_compute; discriminate. }
  exists c'. split; [exact T|]. rewrite O. reflexivity.
Defined.

(** X2.  With [max_size] at least 1, the entry just touched is in the cache
    afterwards, in the most recently used position: looking the key up gives
    the state that [touch] returned, which carries the departure time of the
    call, the kind "actual" for a confirmed departure and the given kind
    otherwise, and the [actual_saved] flag the entry had before. *)
Theorem touch_then_lookup (c : RecentSegmentCache) (k : seg_id)
    (dep_time : option string) (kind : string) (has_actual : bool) :
  1 <= max_size c ->
  exists c' st,
    touch c k dep_time kind has_actual = Ok (c', st)
    /\ od_get (_od c') k = Some st
    /\ last (_od c') = Some (k, st)
    /\ last_dep_time st = dep_time
    /\ last_kind st = (if has_actual then "actual" else kind)
    /\ actual_saved st
       = match od_get (_od c) k with
         | Some e => actual_saved e
         | None => false
         end.
Proof.
  intros Hm.
  set (st := touched_state c k dep_time kind has_actual).
  set (l := touched_entries c k st).
  rewrite touch_unfold. cbv zeta. fold st. fold l.
  rewrite (evict_drop l) by lia.
  eexists _, st. split; [reflexivity|]. cbn [_od].
  assert (D : drop (List.length l - Z.to_nat (max_size c)) l
              = (drop (List.length l - Z.to_nat (max_size c))
                   (od_remove (_od c) k) ++ [(k, st)])%list).
  { unfold l, touched_entries. rewrite drop_app_le; [reflexivity|].
    rewrite length_app. simpl. lia. }
  rewrite D. split.
  - rewrite od_get_app_None.
    + simpl. rewrite bool_decide_eq_true_2; reflexivity.
    + apply od_get_drop_None, od_get_remove.
  - split; [apply last_snoc|]. repeat split; reflexivity.
Qed.

Lemma touch_then_lookup_witness :
  1 <= max_size sample_cache
  /\ exists c' st,
       touch sample_cache (Some "X1", "SOTON", "SOTPKWY", Some "09:00")
         (Some "09:04") "estimate" true = Ok (c', st)
       /\ od_get (_od c') (Some "X1", "SOTON", "SOTPKWY", Some "09:00")
          = Some st
       /\ last_kind st = "actual".
Proof.
  split; [vm_compute; discriminate|].
  destruct (touch_then_lookup sample_cache
              (Some "X1", "SOTON", "SOTPKWY", Some "09:00")
              (Some "09:04") "estimate" true)
    as (c' & st & T & G & _ & _ & K & _).
  { vm_compute; discriminate. }
  exists c', st. repeat split; assumption.
Defined.

(** X3.  With a negative [max_size] every [touch] raises KeyError: the
    eviction loop pops until the dict is empty and then pops once more. *)
Theorem touch_negative_max_size (c : RecentSegmentCache) (k : seg_id)
    (dep_time : option string) (kind : string) (has_actual : bool) :
  max_size c < 0 ->
  touch c k dep_time kind has_actual = Raise KeyError.
Proof.
  intros Hm. rewrite touch_unfold. cbv zeta.
  rewrite evict_negative by exact Hm. reflexivity.
Qed.

Lemma touch_negative_max_size_witness :
  max_size (RecentSegmentCache_new (-1)) < 0
  /\ touch (RecentSegmentCache_new (-1))
       (Some "X1", "SOTON", "SOTPKWY", Some "09:00") (Some "09:04")
       "estimate" false = Raise KeyError.
Proof.
  split; [reflexivity|].
  apply (touch_negative_max_size (RecentSegmentCache_new (-1))). reflexivity.
Defined.

Lemma od_get_update (od : list (seg_id * SegmentState)) (k : seg_id)
    (e v : SegmentState) :
  od_get od k = Some e -> od_get (od_update od k v) k = Some v.
Proof.
  induction od as [|[k' v'] od IH]; simpl; [discriminate|].
  destruct (bool_decide (k' = k)) eqn:E; simpl; rewrite E; [reflexivity|exact IH].
Qed.

Lemma od_update_keys (od : list (seg_id * SegmentState)) (k : seg_id)
    (v : SegmentState) :
  map fst (od_update od k v) = map fst od.
Proof.
  induction od as [|[k' v'] od IH]; simpl; [reflexivity|].
  destruct (bool_decide (k' = k)); simpl; [reflexivity|now rewrite IH].
Qed.

(** X4.  [mark_actual_saved] keeps the keys and their order, and the flag it
    sets survives later touches: touching a marked segment again returns a
    state whose [actual_saved] is still True.  On a key that is not cached
    [mark_actual_saved] changes nothing. *)
Theorem mark_actual_saved_survives_touch (c : RecentSegmentCache) (k : seg_id)
    (dep_time : option string) (kind : string) (has_actual : bool) :
  map fst (_od (mark_actual_saved c k)) = map fst (_od c)
  /\ (od_get (_od c) k = None -> mark_actual_saved c k = c)
  /\ (is_some (od_get (_od c) k) = true -> 0 <= max_size c ->
      exists c' st,
        touch (mark_actual_saved c k) k dep_time kind has_actual = Ok (c', st)
        /\ actual_saved st = true).
Proof.
  unfold mark_actual_saved.
  destruct (od_get (_od c) k) as [e|] eqn:G.
  - split; [cbn [_od]; apply od_update_keys|].
    split; [discriminate|]. intros _ Hm.
    rewrite touch_unfold. cbv zeta. cbn [max_size].
    rewrite evict_drop by exact Hm.
    eexists _, _. split; [reflexivity|].
    unfold touched_state. cbn [actual_saved _od].
    rewrite (od_get_update _ _ e) by exact G. reflexivity.
  - split; [reflexivity|]. split; [reflexivity|]. discriminate.
Qed.

(** ** The durable writer: queue bound, drain and failed statements *)

Section StoreMore.

Variable coerce : affinity -> sqlval -> sqlval.
Variable clock : nat -> string.

Lemma put_nowait_bounded (q q' : list item) (m : Z) (x : item) :
  0 < m -> put_nowait q m x = Some q' ->
  Z.of_nat (List.length q') <= m.
Proof.
  unfold put_nowait. intros Hm.
  destruct ((0 <? m) && (m <=? Z.of_nat (List.length q))) eqn:E;
    [discriminate|].
  intros H. inversion H; subst. rewrite length_app. simpl.
  apply andb_false_iff in E. destruct E as [E|E]; lia.
Qed.

Lemma enqueue_bounded (st : RealTimeSQLiteStore) (t : string) (rec : record)
    (m : Z) :
  0 < m -> q_bounded st m -> q_bounded (fst (_enqueue st t rec)) m.
Proof.
  intros Hm [M L]. unfold _enqueue.
  destruct (_closed st); [split; assumption|].
  destruct (put_nowait _ _ _) as [q|] eqn:P; [|split; assumption].
  split; [exact M|]. cbn [fst set_q _q]. rewrite M in P.
  eapply put_nowait_bounded; eassumption.
Qed.

Lemma writer_step_bounded (st : RealTimeSQLiteStore) (m : Z) :
  q_bounded st m -> q_bounded (writer_step coerce clock st) m.
Proof.
  intros [M L]. unfold writer_step, writer_exit.
  destruct (writer_alive st); [|split; assumption].
  destruct (_q st) as [|[[t|] [r|]] q] eqn:Q; simpl in L.
  - destruct (_stop st); split; simpl; rewrite ?Q; simpl; try assumption; lia.
  - destruct (_insert_with_conn _ _ _ _ _); split; simpl; try assumption; lia.
  - split; simpl; try assumption; lia.
  - split; simpl; try assumption; lia.
  - split; simpl; try assumption; lia.
Qed.

Lemma q_join_bounded (n : nat) (m : Z) :
  forall st, q_bounded st m -> q_bounded (fst (q_join coerce clock n st)) m.
Proof.
  induction n as [|n IH]; intros st B; simpl.
  - destruct (_q st); [exact B|]. destruct (writer_alive st); exact B.
  - destruct (_q st) eqn:Q; [exact B|].
    destruct (writer_alive st) eqn:A; [|exact B].
    apply IH, writer_step_bounded, B.
Qed.

Lemma close_bounded (st : RealTimeSQLiteStore) (drain : bool) (m : Z) :
  0 < m -> q_bounded st m -> q_bounded (fst (close coerce clock st drain)) m.
Proof.
  intros Hm B. unfold close. destruct (_closed st); [exact B|].
  assert (B1 : q_bounded (set_closed st) m) by exact B.
  destruct (if drain
            then q_join coerce clock (List.length (_q (set_closed st)))
                   (set_closed st)
            else (set_closed st, true)) as [st2 returned] eqn:J.
  assert (B2 : q_bounded st2 m).
  { destruct drain.
    - pose proof (q_join_bounded (List.length (_q (set_closed st))) m _ B1) as H.
      rewrite J in H. exact H.
    - inversion J; subst. exact B1. }
  destruct returned; [|exact B2]. cbn [fst].
  destruct B2 as [M L].
  destruct (put_nowait _ _ _) as [q|] eqn:P; [|split; assumption].
  split; [exact M|]. cbn [set_q _q]. cbn [set_stop queue_maxsize] in P.
  rewrite M in P. eapply put_nowait_bounded; eassumption.
Qed.

Lemma run_bounded (ops : list store_op) (m : Z) :
  0 < m ->
  forall st, q_bounded st m -> q_bounded (fst (run coerce clock st ops)) m.
Proof.
  intros Hm.
  induction ops as [|o ops IH]; intros st B; simpl; [exact B|].
  destruct o as [rec|rec|drain|].
  - unfold insert_all.
    pose proof (enqueue_bounded st "predictions_all" rec m Hm B) as B1.
    destruct (_enqueue st "predictions_all" rec) as [st1 b].
    specialize (IH st1 B1).
    destruct (run coerce clock st1 ops) as [st2 bs]. exact IH.
  - unfold insert_actual.
    pose proof (enqueue_bounded st "predictions_actual" rec m Hm B) as B1.
    destruct (_enqueue st "predictions_actual" rec) as [st1 b].
    specialize (IH st1 B1).
    destruct (run coerce clock st1 ops) as [st2 bs]. exact IH.
  - pose proof (close_bounded st drain m Hm B) as B1.
    destruct (close coerce clock st drain) as [st1 returned].
    destruct returned; [apply IH; exact B1|exact B1].
  - apply IH, writer_step_bounded, B.
Qed.

(** X5.  A store created with a positive [queue_maxsize] never holds more
    than that many queued items, under any interleaving of insert calls,
    closes and writer iterations; an insert that finds the queue full is
    dropped rather than queued. *)
Theorem queue_never_exceeds_maxsize (ops : list store_op)
    (st : RealTimeSQLiteStore) :
  0 < queue_maxsize st ->
  Z.of_nat (List.length (_q st)) <= queue_maxsize st ->
  queue_maxsize (fst (run coerce clock st ops)) = queue_maxsize st
  /\ Z.of_nat (List.length (_q (fst (run coerce clock st ops))))
     <= queue_maxsize st.
Proof.
  intros Hm L.
  apply (run_bounded ops (queue_maxsize st) Hm st).
  split; [reflexivity|exact L].
Qed.

Lemma q_join_drains (items : list (string * record)) :
  forall (n : nat) (st : RealTimeSQLiteStore) (db' : database),
    (List.length items <= n)%nat ->
    writer_alive st = true ->
    _q st = queued items ->
    insert_items coerce clock (stmts st) (conn_db st) items = Ok db' ->
    q_join coerce clock n st
    = (mk_store [] (queue_maxsize st) (_stop st) (_closed st) true db'
         (stmts st + List.length items)%nat, true).
Proof.
  induction items as [|[t r] items IH]; intros n st db' Hn A Q I.
  - simpl in I. inversion I; subst.
    destruct n; simpl; rewrite Q; simpl; destruct st; simpl in *; subst;
      rewrite Nat.add_0_r; reflexivity.
  - destruct n as [|n]; [simpl in Hn; lia|].
    simpl. rewrite Q. simpl. rewrite A.
    simpl in I.
    destruct (_insert_with_conn coerce (clock (stmts st)) (conn_db st) t r)
      as [db1|e] eqn:E; [|discriminate].
    change (insert_items coerce clock (S (stmts st)) db1 items = Ok db') in I.
    assert (W : writer_step coerce clock st
                = mk_store (queued items) (queue_maxsize st) (_stop st)
                    (_closed st) true db1 (S (stmts st))).
    { unfold writer_step. rewrite A, Q. simpl. rewrite E. reflexivity. }
    rewrite W. rewrite (IH n _ db'); simpl; try reflexivity; try assumption.
    + do 2 f_equal. lia.
    + simpl in Hn. lia.
Qed.

(** X6.  [close(drain=True)] on an open store whose writer is running and
    whose queued statements all succeed returns after the writer has run
    every queued insert, in queue order: the database is the one obtained by
    running the statements one after the other, the queue then holds only the
    sentinel, and the writer's next iteration ends the thread. *)
Theorem close_drains_queue (st : RealTimeSQLiteStore)
    (items : list (string * record)) (db' : database) :
  _closed st = false ->
  writer_alive st = true ->
  _q st = queued items ->
  insert_items coerce clock (stmts st) (conn_db st) items = Ok db' ->
  exists st',
    close coerce clock st true = (st', true)
    /\ conn_db st' = db'
    /\ _q st' = [_SENTINEL]
    /\ _closed st' = true /\ _stop st' = true
    /\ stmts st' = (stmts st + List.length items)%nat
    /\ writer_alive (writer_step coerce clock st') = false
    /\ conn_db (writer_step coerce clock st') = db'.
Proof.
  intros C A Q I. unfold close. rewrite C.
  rewrite (q_join_drains items _ (set_closed st) db'); try assumption.
  - cbn [set_closed _q queue_maxsize _stop _closed stmts set_stop].
    unfold put_nowait. cbn [List.length].
    replace ((0 <? queue_maxsize st) && (queue_maxsize st <=? Z.of_nat 0))
      with false
      by (destruct (Z.ltb_spec 0 (queue_maxsize st));
          destruct (Z.leb_spec (queue_maxsize st) (Z.of_nat 0));
          simpl in *; try reflexivity; lia).
    eexists. split; [reflexivity|]. cbn.
    repeat split; reflexivity.
  - cbn [set_closed _q]. rewrite Q. unfold queued. rewrite length_map. lia.
Qed.

Lemma q_join_blocks (items : list (string * record)) :
  forall (n : nat) (st : RealTimeSQLiteStore) (db1 : database)
         (t : string) (r : record) (e : exn) (rest : list item),
    (List.length items < n)%nat ->
    writer_alive st = true ->
    _q st = (queued items ++ (Some t, Some r) :: rest)%list ->
    rest <> [] ->
    insert_items coerce clock (stmts st) (conn_db st) items = Ok db1 ->
    _insert_with_conn coerce (clock (stmts st + List.length items)%nat) db1 t r
    = Raise e ->
    q_join coerce clock n st
    = (mk_store rest (queue_maxsize st) (_stop st) (_closed st) false db1
         (stmts st + List.length items)%nat, false).
Proof.
  induction items as [|[t0 r0] items IH];
    intros n st db1 t r e rest Hn A Q R I F.
  - simpl in I. inversion I; subst db1. simpl in Q.
    rewrite Nat.add_0_r in F.
    destruct n as [|n]; [simpl in Hn; lia|].
    simpl. rewrite Q, A.
    assert (W : writer_step coerce clock st
                = mk_store rest (queue_maxsize st) (_stop st) (_closed st)
                    false (conn_db st) (stmts st)).
    { unfold writer_step. rewrite A, Q. rewrite F. reflexivity. }
    rewrite W. rewrite Nat.add_0_r.
    destruct rest as [|x rest]; [congruence|].
    destruct n; reflexivity.
  - destruct n as [|n]; [simpl in Hn; lia|].
    change (_q st = ((Some t0, Some r0)
                     :: (queued items ++ (Some t, Some r) :: rest))%list) in Q.
    cbn [q_join]. rewrite Q, A. simpl in I.
    destruct (_insert_with_conn coerce (clock (stmts st)) (conn_db st) t0 r0)
      as [db0|e0] eqn:E; [|discriminate].
    change (insert_items coerce clock (S (stmts st)) db0 items = Ok db1) in I.
    assert (W : writer_step coerce clock st
                = mk_store (queued items ++ (Some t, Some r) :: rest)
                    (queue_maxsize st) (_stop st) (_closed st) true db0
                    (S (stmts st))).
    { unfold writer_step. rewrite A, Q. simpl. rewrite E. reflexivity. }
    rewrite W.
    rewrite (IH n _ db1 t r e rest); simpl; try reflexivity; try assumption.
    + do 2 f_equal. lia.
    + simpl in Hn. lia.
    + cbn [List.length] in F.
      match goal with
      | |- _insert_with_conn _ (clock ?a) _ _ _ = _ =>
          replace a with (stmts st + S (List.length items))%nat by lia
      end.
      exact F.
Qed.

(** X7.  A queued statement that raises ends the writer thread.  If items
    are still queued behind it, [close(drain=True)] never returns: the
    queue's join waits for items that nobody will take, the database holds
    only what was written before the failing statement, and the items
    behind it are never written. *)
Theorem close_blocks_after_failed_insert (st : RealTimeSQLiteStore)
    (items : list (string * record)) (db1 : database) (t : string)
    (r : record) (e : exn) (rest : list item) :
  _closed st = false ->
  writer_alive st = true ->
  _q st = (queued items ++ (Some t, Some r) :: rest)%list ->
  rest <> [] ->
  insert_items coerce clock (stmts st) (conn_db st) items = Ok db1 ->
  _insert_with_conn coerce (clock (stmts st + List.length items)%nat) db1 t r
  = Raise e ->
  exists st',
    close coerce clock st true = (st', false)
    /\ conn_db st' = db1
    /\ writer_alive st' = false
    /\ _q st' = rest
    /\ forall ops, conn_db (fst (run coerce clock st' ops)) = db1.
Proof.
  intros C A Q R I F. unfold close. rewrite C.
  rewrite (q_join_blocks items _ (set_closed st) db1 t r e rest);
    try assumption.
  - eexists. split; [reflexivity|]. cbn [conn_db writer_alive _q].
    repeat split; try reflexivity.
    intros ops.
    set (st' := mk_store rest (queue_maxsize (set_closed st))
                  (_stop (set_closed st)) (_closed (set_closed st)) false db1
                  (stmts (set_closed st) + List.length items)%nat).
    assert (Inv : writer_alive st' = false /\ _closed st' = true
                  /\ conn_db st' = db1) by (repeat split).
    clearbody st'. revert st' Inv.
    induction ops as [|o ops IH]; intros st' (A' & C' & D'); simpl;
      [exact D'|].
    destruct o as [rec|rec|drain|].
    + unfold insert_all, _enqueue. rewrite C'.
      specialize (IH st' (conj A' (conj C' D'))).
      destruct (run coerce clock st' ops). exact IH.
    + unfold insert_actual, _enqueue. rewrite C'.
      specialize (IH st' (conj A' (conj C' D'))).
      destruct (run coerce clock st' ops). exact IH.
    + unfold close. rewrite C'. apply IH. repeat split; assumption.
    + unfold writer_step. rewrite A'. simpl. apply IH.
      repeat split; assumption.
  - cbn [set_closed _q]. rewrite Q, length_app. unfold queued.
    rewrite length_map. simpl. lia.
Qed.

End StoreMore.

Lemma queue_never_exceeds_maxsize_witness :
  let st := RealTimeSQLiteStore_new new_database 1 in
  0 < queue_maxsize st
  /\ Z.of_nat (List.length (_q st)) <= queue_maxsize st
  /\ Z.of_nat (List.length (_q (fst (run coerce_id clock_const st
                                       [CallInsertAll sample_rec;
                                        CallInsertActual sample_rec]))))
     <= queue_maxsize st
  /\ snd (run coerce_id clock_const st
            [CallInsertAll sample_rec; CallInsertActual sample_rec])
     = [true; false].
Proof.
  split; [reflexivity|]. split; [vm_compute; discriminate|].
  split;
    [apply (queue_never_exceeds_maxsize coerce_id clock_const
              [CallInsertAll sample_rec; CallInsertActual sample_rec]
              (RealTimeSQLiteStore_new new_database 1));
       [reflexivity|vm_compute; discriminate]
    |vm_compute; reflexivity].
Defined.

Lemma close_drains_queue_witness :
  let st := fst (run coerce_id clock_const
                   (RealTimeSQLiteStore_new new_database 5000)
                   [CallInsertAll sample_rec; CallInsertActual sample_rec]) in
  exists st',
    close coerce_id clock_const st true = (st', true)
    /\ List.length (table_rows (predictions_all (conn_db st'))) = 1%nat
    /\ List.length (table_rows (predictions_actual (conn_db st'))) = 1%nat.
Proof.
  cbv zeta.
  set (st := fst (run coerce_id clock_const
                    (RealTimeSQLiteStore_new new_database 5000)
                    [CallInsertAll sample_rec; CallInsertActual sample_rec])).
  assert (I : exists db',
             insert_items coerce_id clock_const (stmts st) (conn_db st)
               [("predictions_all", sample_rec);
                ("predictions_actual", sample_rec)] = Ok db'
             /\ List.length (table_rows (predictions_all db')) = 1%nat
             /\ List.length (table_rows (predictions_actual db')) = 1%nat).
  { eexists. split; [vm_compute; reflexivity|].
    split; vm_compute; reflexivity. }
  destruct I as (db' & I & L1 & L2).
  destruct (close_drains_queue coerce_id clock_const st
              [("predictions_all", sample_rec);
               ("predictions_actual", sample_rec)] db')
    as (st' & Cl & D & _); [reflexivity|reflexivity|reflexivity|exact I|].
  exists st'. split; [exact Cl|]. rewrite D. split; assumption.
Defined.

Lemma close_blocks_after_failed_insert_witness :
  let st := fst (run coerce_id clock_const
                   (RealTimeSQLiteStore_new new_database 5000)
                   [CallInsertAll sample_bad_rec; CallInsertAll sample_rec]) in
  exists st',
    close coerce_id clock_const st true = (st', false)
    /\ table_rows (predictions_all (conn_db st')) = []
    /\ writer_alive st' = false.
Proof.
  cbv zeta.
  set (st := fst (run coerce_id clock_const
                    (RealTimeSQLiteStore_new new_database 5000)
                    [CallInsertAll sample_bad_rec; CallInsertAll sample_rec])).
  destruct (close_blocks_after_failed_insert coerce_id clock_const st []
              (conn_db st) "predictions_all" sample_bad_rec OperationalError
              [(Some "predictions_all", Some sample_rec)])
    as (st' & Cl & D & A & _);
    [reflexivity|reflexivity|reflexivity|discriminate|reflexivity
    |vm_compute; reflexivity|].
  exists st'. split; [exact Cl|]. split; [rewrite D; reflexivity|exact A].
Defined.

(** ** Shapes of the combined timestamps *)

Lemma combine_date_time_shape (d : string) (t : option string)
    (tz : option tzinfo) (dt : datetime) :
  combine_date_time d t tz = Ok (Some dt) ->
  exists w, dt = mk_dt w tz /\ day_start d <= w < day_start d + US_PER_DAY.
Proof.
  unfold combine_date_time. intros H.
  destruct (parse_hms t) as [[tm|]|e] eqn:Et;
    cbv beta iota delta [mbind res_bind rbind] in H; try discriminate.
  destruct (Strptime.ymd d) as [dd|e] eqn:Ed.
  - inversion H; subst. unfold day_start. rewrite Ed.
    pose proof (parse_hms_Some_range _ _ Et) as (Hh & Hm & Hs).
    exists (wall (datetime_combine dd tm)). split.
    + destruct tz; reflexivity.
    + unfold datetime_combine, US_PER_DAY, US_PER_HOUR, US_PER_MINUTE,
        US_PER_SECOND. simpl. lia.
  - destruct e; discriminate.
Qed.

Lemma same_tz_refl (z : tzinfo) : same_tz z z = true.
Proof. unfold same_tz. apply String.eqb_refl. Qed.

Lemma clock_match_refl (tz : option tzinfo) : clock_match tz tz.
Proof. destruct tz; simpl; [apply same_tz_refl|exact I]. Qed.

Lemma combine_smart_shape (d : string) (t : option string)
    (base : option datetime) (tz : option tzinfo) (r : datetime) :
  combine_date_time_smart d t base tz default_rollover_threshold
  = Ok (Some r) ->
  (forall b, base = Some b -> dt_tz b = tz) ->
  exists w,
    day_start d <= w < day_start d + US_PER_DAY
    /\ r = mk_dt (match base with
                  | Some b => if timedelta_hours 2 <? wall b - w
                              then w + timedelta_days 1 else w
                  | None => w
                  end) tz.
Proof.
  intros H Hb.
  destruct (combine_date_time d t tz) as [[naive|]|e] eqn:E.
  - destruct (combine_date_time_shape _ _ _ _ E) as (w & -> & B).
    exists w. split; [exact B|].
    destruct base as [[wb tb]|].
    + specialize (Hb _ eq_refl). simpl in Hb. subst tb.
      rewrite (combine_smart_unfold _ _ _ _ _ _ E) in H. cbv zeta in H.
      rewrite match_awareness_same, gap_before_same in H.
      unfold default_rollover_threshold in H. cbn [wall].
      destruct (Z.ltb_spec (timedelta_hours 2) (wb - w)) as [G|G].
      * replace (0 <? wb - w) with true in H
          by (symmetry; apply Z.ltb_lt;
              assert (0 < timedelta_hours 2) by (vm_compute; reflexivity);
              lia).
        cbn [andb] in H. unfold dt_add in H. cbn [wall dt_tz] in H.
        destruct ((0 <=? w + timedelta_days 1)
                  && (w + timedelta_days 1 <=? MAX_WALL));
          cbv beta iota delta [mbind res_bind rbind] in H;
          [|discriminate].
        inversion H; reflexivity.
      * rewrite andb_false_r in H. inversion H; reflexivity.
    + rewrite combine_smart_no_base, E in H. inversion H; reflexivity.
  - unfold combine_date_time_smart in H. rewrite E in H. discriminate.
  - unfold combine_date_time_smart in H. rewrite E in H. discriminate.
Qed.

Lemma raw_difference_same (p a : Z) (tz : option tzinfo) :
  raw_difference (mk_dt p tz) (mk_dt a tz) = a - p.
Proof.
  unfold raw_difference. rewrite match_awareness_same.
  rewrite (clock_match_operands tz tz a p (clock_match_refl tz)).
  reflexivity.
Qed.

Lemma diff_minutes_wrap_same (p a : Z) (tz : option tzinfo) :
  diff_minutes_wrap (Some (mk_dt p tz)) (Some (mk_dt a tz))
  = Ok (Some (wrap_minutes (minutes_of (a - p)))).
Proof. rewrite diff_minutes_wrap_eq, raw_difference_same. reflexivity. Qed.

Lemma wrap_within_a_day (td : Z) :
  - US_PER_DAY < td < US_PER_DAY ->
  (-1200 <= wrap_minutes (minutes_of td))%Q
  /\ (wrap_minutes (minutes_of td) <= 1200)%Q.
Proof.
  intros [L U].
  assert (QL : (-1440 < minutes_of td)%Q).
  { unfold Qlt, minutes_of. simpl. unfold US_PER_DAY, US_PER_HOUR,
      US_PER_MINUTE, US_PER_SECOND in L. lia. }
  assert (QU : (minutes_of td < 1440)%Q).
  { unfold Qlt, minutes_of. simpl. unfold US_PER_DAY, US_PER_HOUR,
      US_PER_MINUTE, US_PER_SECOND in U. lia. }
  destruct (wrap_minutes_cases (minutes_of td))
    as [[C E]|[[C E]|(C1 & C2 & E)]]; rewrite E; split; lra.
Qed.

Lemma wrap_after_rollover (td : Z) :
  - timedelta_hours 2 <= td < US_PER_DAY ->
  (-240 < wrap_minutes (minutes_of td))%Q
  /\ (wrap_minutes (minutes_of td) <= 1200)%Q.
Proof.
  intros [L U].
  assert (QL : (-120 <= minutes_of td)%Q).
  { unfold Qle, minutes_of. simpl. unfold timedelta_hours, US_PER_HOUR,
      US_PER_MINUTE, US_PER_SECOND in L. lia. }
  assert (QU : (minutes_of td < 1440)%Q).
  { unfold Qlt, minutes_of. simpl. unfold US_PER_DAY, US_PER_HOUR,
      US_PER_MINUTE, US_PER_SECOND in U. lia. }
  destruct (wrap_minutes_cases (minutes_of td))
    as [[C E]|[[C E]|(C1 & C2 & E)]]; rewrite E; split; lra.
Qed.

(** ** diff_minutes_smart *)

(** X8.  For two timestamps read on one clock, [diff_minutes_smart] returns
    end minus start in minutes when end is not before start and that
    difference plus 1440 when it is: the result is non-negative exactly when
    end lies no more than 24 hours before start, and is below 1440 whenever
    the two are less than a day apart. *)
Theorem diff_minutes_smart_next_day (start end_ : datetime) :
  same_clock (match_awareness start end_) start ->
  0 <= wall end_ ->
  wall end_ + timedelta_days 1 <= MAX_WALL ->
  let raw := minutes_of (wall end_ - wall start) in
  exists r,
    diff_minutes_smart (Some start) (Some end_) = Ok (Some r)
    /\ ((0 <= raw)%Q -> (r == raw)%Q)
    /\ ((raw < 0)%Q -> (r == raw + 1440)%Q)
    /\ ((0 <= r)%Q <-> (-1440 <= raw)%Q)
    /\ ((-1440 <= raw)%Q -> (raw < 1440)%Q -> (0 <= r)%Q /\ (r < 1440)%Q).
Proof.
  intros SC H0 HM raw. unfold diff_minutes_smart. cbv zeta.
  unfold dt_lt. rewrite (same_clock_operands _ _ SC).
  cbv beta iota delta [mbind res_bind rbind]. cbn [fst snd].
  rewrite match_awareness_wall.
  assert (D : timedelta_days 1 = 1440 * 60000000) by reflexivity.
  destruct (Z.ltb_spec (wall end_) (wall start)) as [L|L].
  - unfold dt_add. rewrite match_awareness_wall.
    replace ((0 <=? wall end_ + timedelta_days 1)
             && (wall end_ + timedelta_days 1 <=? MAX_WALL)) with true.
    2:{ symmetry. apply andb_true_iff. split; apply Z.leb_le; lia. }
    unfold dt_sub.
    assert (SC' : same_clock
                    (mk_dt (wall end_ + timedelta_days 1)
                       (dt_tz (match_awareness start end_))) start).
    { unfold same_clock in *. exact SC. }
    rewrite (same_clock_operands _ _ SC'). cbn [fst snd wall].
    eexists. split; [reflexivity|].
    assert (R : (minutes_of (wall end_ + timedelta_days 1 - wall start)%Z
                 == raw + 1440)%Q).
    { unfold raw, minutes_of, Qeq, Qplus. simpl. rewrite D. lia. }
    assert (N : (raw < 0)%Q).
    { unfold raw, minutes_of, Qlt. simpl. lia. }
    rewrite R.
    split; [intros; lra|]. split; [intros; lra|].
    split; [split; intros; lra|]. intros; split; lra.
  - unfold dt_sub. rewrite (same_clock_operands _ _ SC).
    cbn [fst snd]. rewrite match_awareness_wall.
    eexists. split; [reflexivity|]. cbn [fst snd]. fold raw.
    assert (N : (0 <= raw)%Q).
    { unfold raw, minutes_of, Qle. simpl. lia. }
    split; [intros; lra|]. split; [intros; lra|].
    split; [split; intros; lra|]. intros; split; lra.
Qed.

Lemma diff_minutes_smart_next_day_witness :
  let start := mk_dt (63879840000000000 + 1430 * US_PER_MINUTE) None in
  let end_ := mk_dt (63879840000000000 + 10 * US_PER_MINUTE) None in
  same_clock (match_awareness start end_) start
  /\ exists r, diff_minutes_smart (Some start) (Some end_) = Ok (Some r)
               /\ (r == 20)%Q.
Proof.
  cbv zeta. split; [exact I|].
  destruct (diff_minutes_smart_next_day
              (mk_dt (63879840000000000 + 1430 * US_PER_MINUTE) None)
              (mk_dt (63879840000000000 + 10 * US_PER_MINUTE) None))
    as (r & E & _ & R & _); [exact I|vm_compute; discriminate
                            |vm_compute; discriminate|].
  exists r. split; [exact E|]. rewrite R; [reflexivity|].
  unfold Qlt. vm_compute. reflexivity.
Defined.

(** ** dao/actual_arrivals_hsp.py: the arrival delay *)

(** X9.  Whatever [compute_actual_arrival_delay_min] returns lies within
    [-1200, +1200] minutes: the planned arrival is rolled over against the
    planned departure, the actual arrival against the planned arrival, so the
    two are less than a day apart and one wrap brings the difference into the
    interval. *)
Theorem actual_arrival_delay_range (ssd_ planned_arr_hhmm actual_arr_hhmm
    base_hhmm : option string) (tz : option tzinfo) (r : Q) :
  compute_actual_arrival_delay_min ssd_ planned_arr_hhmm actual_arr_hhmm
    base_hhmm tz = Ok (Some r) ->
  (-1200 <= r)%Q /\ (r <= 1200)%Q.
Proof.
  unfold compute_actual_arrival_delay_min. intros H.
  destruct ssd_ as [d|]; [|discriminate].
  destruct (negb (truthy (Some d)) || negb (truthy planned_arr_hhmm)
            || negb (truthy actual_arr_hhmm)); [discriminate|].
  destruct (negb (truthy (_hhmm_to_hh_colon_mm planned_arr_hhmm))
            || negb (truthy (_hhmm_to_hh_colon_mm actual_arr_hhmm)));
    [discriminate|].
  set (base_s := if truthy base_hhmm then _hhmm_to_hh_colon_mm base_hhmm
                 else None) in H.
  cbv beta iota delta [mbind res_bind rbind] in H.
  destruct (if truthy base_s
            then combine_date_time_smart d base_s None tz
                   default_rollover_threshold
            else Ok None) as [base_dt|e] eqn:EB; [|discriminate].
  assert (HB : forall b, base_dt = Some b -> dt_tz b = tz).
  { intros b ->. destruct (truthy base_s); [|discriminate].
    destruct (combine_smart_shape _ _ _ _ _ EB) as (w & _ & ->);
      [discriminate|reflexivity]. }
  destruct (combine_date_time_smart d (_hhmm_to_hh_colon_mm planned_arr_hhmm)
              base_dt tz default_rollover_threshold)
    as [[planned_dt|]|e] eqn:EP; try discriminate.
  2:{ destruct (combine_date_time_smart d
                  (_hhmm_to_hh_colon_mm actual_arr_hhmm) None tz
                  default_rollover_threshold) as [[x|]|e];
        simpl in H; discriminate. }
  destruct (combine_smart_shape _ _ _ _ _ EP HB) as (wp & BP & SP).
  destruct (combine_date_time_smart d (_hhmm_to_hh_colon_mm actual_arr_hhmm)
              (Some planned_dt) tz default_rollover_threshold)
    as [[actual_dt|]|e] eqn:EA; try discriminate.
  destruct (combine_smart_shape _ _ _ _ _ EA) as (wa & BA & SA).
  { intros b Hb. inversion Hb; subst b. rewrite SP. reflexivity. }
  rewrite SA in H. rewrite SP in H at 1.
  rewrite diff_minutes_wrap_same in H. injection H as Hr. subst r.
  apply wrap_within_a_day.
  change (Z.pos (2 * (60 * (60 * 1000000)))) with (timedelta_hours 2).
  assert (D : timedelta_days 1 = US_PER_DAY) by reflexivity.
  assert (P2 : day_start d <= wall planned_dt
               < day_start d + 2 * US_PER_DAY).
  { rewrite SP. cbn [wall]. destruct base_dt as [b|];
      [destruct (timedelta_hours 2 <? wall b - wp)|]; lia. }
  assert (T : timedelta_hours 2 = 7200000000) by reflexivity.
  assert (U : US_PER_DAY = 86400000000) by reflexivity.
  replace (match base_dt with
           | Some b => if timedelta_hours 2 <? wall b - wp
                       then wp + timedelta_days 1 else wp
           | None => wp
           end) with (wall planned_dt) by (rewrite SP; reflexivity).
  destruct (Z.ltb_spec (timedelta_hours 2) (wall planned_dt - wa)); lia.
Qed.

Lemma actual_arrival_delay_range_witness :
  exists r,
    compute_actual_arrival_delay_min (Some "2025-03-01") (Some "0010")
      (Some "2358") (Some "2350") (Some UTC) = Ok (Some r)
    /\ (r == -12)%Q /\ (-1200 <= r)%Q /\ (r <= 1200)%Q.
Proof.
  assert (E : exists r,
             compute_actual_arrival_delay_min (Some "2025-03-01")
               (Some "0010") (Some "2358") (Some "2350") (Some UTC)
             = Ok (Some r) /\ (r == -12)%Q).
  { eexists. split; [vm_compute; reflexivity|]. vm_compute. reflexivity. }
  destruct E as (r & E & V). exists r. split; [exact E|]. split; [exact V|].
  exact (actual_arrival_delay_range _ _ _ _ _ _ E).
Defined.

(** ** The HSP clock normaliser *)

Lemma lstrip_starts_clean (s : string) : starts_clean (Py.lstrip s).
Proof.
  induction s as [|c s IH]; simpl; [exact I|].
  destruct (Py.isspace c) eqn:E; [exact IH|exact E].
Qed.

Lemma lstrip_clean (s : string) : starts_clean s -> Py.lstrip s = s.
Proof. destruct s as [|c s]; simpl; [reflexivity|]. now intros ->. Qed.

Lemma rstrip_starts_clean (s : string) :
  starts_clean s -> starts_clean (Py.rstrip s).
Proof.
  destruct s as [|c s]; simpl; [exact id|]. intros E.
  destruct (Py.rstrip s); [rewrite E|]; exact E.
Qed.

Lemma rstrip_idem (s : string) : Py.rstrip (Py.rstrip s) = Py.rstrip s.
Proof.
  induction s as [|c s IH]; simpl; [reflexivity|].
  destruct (Py.rstrip s) as [|d r] eqn:R.
  - destruct (Py.isspace c) eqn:E; simpl; [reflexivity|now rewrite E].
  - change (Py.rstrip (String c (String d r))) with
      (match Py.rstrip (String d r) with
       | EmptyString => if Py.isspace c then EmptyString
                        else String c EmptyString
       | r0 => String c r0
       end).
    rewrite IH. reflexivity.
Qed.

Lemma strip_idem (s : string) : Py.strip (Py.strip s) = Py.strip s.
Proof.
  unfold Py.strip.
  rewrite (lstrip_clean (Py.rstrip (Py.lstrip s))).
  - apply rstrip_idem.
  - apply rstrip_starts_clean, lstrip_starts_clean.
Qed.

Lemma clean_str_idem (v : option string) :
  _clean_str (_clean_str v) = _clean_str v.
Proof.
  destruct v as [s|]; simpl; [|reflexivity].
  destruct (String.eqb (Py.strip s) "") eqn:E; [reflexivity|].
  simpl. rewrite strip_idem, E. reflexivity.
Qed.

Lemma clean_str_fixed (v : option string) (s : string) :
  _clean_str v = Some s -> _clean_str (Some s) = Some s.
Proof. intros H. rewrite <- H. apply clean_str_idem. Qed.

Lemma isdigit_not_space (c : ascii) :
  py_isdigit_char c = true -> Py.isspace c = false.
Proof.
  destruct c as [[] [] [] [] [] [] [] []]; vm_compute; congruence.
Qed.

Lemma isdigit_not_colon (c : ascii) :
  py_isdigit_char c = true -> Ascii.eqb c ":" = false.
Proof.
  destruct c as [[] [] [] [] [] [] [] []]; vm_compute; congruence.
Qed.

Lemma hhmm_table :
  forallb (fun h => forallb (fun m =>
    bool_decide (_hhmm_to_hh_colon_mm (Some (clock_hhmm h m))
                 = Some (clock_hm h m))) (below 100)) (below 100) = true.
Proof. vm_compute. reflexivity. Qed.

Lemma hhmm_clock (h m : nat) :
  (h < 100)%nat -> (m < 100)%nat ->
  _hhmm_to_hh_colon_mm (Some (clock_hhmm h m)) = Some (clock_hm h m).
Proof.
  intros Hh Hm. pose proof hhmm_table as T.
  rewrite forallb_forall in T. specialize (T h (below_in _ _ Hh)).
  rewrite forallb_forall in T. specialize (T m (below_in _ _ Hm)).
  now apply bool_decide_eq_true in T.
Qed.

(** X10.  The HSP clock form is made readable by the normaliser: a
    four-digit HHMM string becomes HH:MM, which [parse_hms] reads as that
    time of day when hour and minute are in range and as not-present when
    they are not; None and the empty string give None. *)
Theorem hhmm_normalised_then_parsed :
  _hhmm_to_hh_colon_mm None = None
  /\ _hhmm_to_hh_colon_mm (Some "") = None
  /\ (forall h m : nat, (h < 100)%nat -> (m < 100)%nat ->
        _hhmm_to_hh_colon_mm (Some (clock_hhmm h m)) = Some (clock_hm h m))
  /\ (forall h m : nat, (h < 24)%nat -> (m < 60)%nat ->
        parse_hms (_hhmm_to_hh_colon_mm (Some (clock_hhmm h m)))
        = Ok (Some (mk_time (Z.of_nat h) (Z.of_nat m) 0)))
  /\ (forall h m : nat, (h < 100)%nat -> (m < 100)%nat ->
        (24 <= h \/ 60 <= m)%nat ->
        parse_hms (_hhmm_to_hh_colon_mm (Some (clock_hhmm h m))) = Ok None).
Proof.
  split; [reflexivity|]. split; [reflexivity|].
  split; [exact hhmm_clock|]. split.
  - intros h m Hh Hm. rewrite hhmm_clock by lia. now apply parse_hms_hm.
  - intros h m Hh Hm R. rewrite hhmm_clock by lia.
    now apply parse_hms_out_of_range.
Qed.

Lemma contains_count (s : string) :
  contains_char ":" s = negb (count_char ":" s =? 0)%nat.
Proof.
  induction s as [|c s IH]; simpl; [reflexivity|].
  destruct (Ascii.eqb c ":"); simpl; [reflexivity|exact IH].
Qed.

Lemma contains_colon_strip (s : string) :
  contains_char ":" (Py.strip s) = contains_char ":" s.
Proof. now rewrite !contains_count, count_colon_strip. Qed.

(** X11.  Normalising a clock string twice is normalising it once; whatever
    the normaliser returns holds a colon, so the Darwin parser is only ever
    handed a colon form; and a string that already holds a colon comes back
    stripped of surrounding whitespace and otherwise unchanged. *)
Theorem hhmm_normaliser_idempotent (v : option string) :
  _hhmm_to_hh_colon_mm (_hhmm_to_hh_colon_mm v) = _hhmm_to_hh_colon_mm v
  /\ (forall s, _hhmm_to_hh_colon_mm v = Some s ->
        contains_char ":" s = true /\ s <> "")
  /\ (forall s, v = Some s -> contains_char ":" s = true ->
        _hhmm_to_hh_colon_mm v = Some (Py.strip s)).
Proof.
  assert (Fix : forall s, _hhmm_to_hh_colon_mm v = Some s ->
                  contains_char ":" s = true /\ s <> ""
                  /\ _clean_str (Some s) = Some s).
  { intros s. unfold _hhmm_to_hh_colon_mm.
    destruct (_clean_str v) as [s0|] eqn:C; [|discriminate].
    destruct (contains_char ":" s0) eqn:K.
    - intros H. inversion H; subst s0. split; [exact K|]. split.
      + intros ->. discriminate.
      + exact (clean_str_fixed _ _ C).
    - destruct s0 as [|a [|b [|c [|d [|x y]]]]]; try discriminate.
      destruct (Py.all_chars py_isdigit_char
                  (String a (String b (String c (String d ""))))) eqn:A;
        [|discriminate].
      intros H. inversion H; subst s. clear H.
      simpl in A. apply andb_true_iff in A. destruct A as [Da A].
      apply andb_true_iff in A. destruct A as [Db A].
      apply andb_true_iff in A. destruct A as [Dc A].
      apply andb_true_iff in A. destruct A as [Dd _].
      split; [|split; [discriminate|]].
      + simpl. rewrite (isdigit_not_colon a Da), (isdigit_not_colon b Db).
        reflexivity.
      + unfold _clean_str, Py.strip. cbn [Py.lstrip].
        rewrite (isdigit_not_space a Da). cbn [Py.rstrip].
        rewrite (isdigit_not_space d Dd). reflexivity. }
  split; [|split].
  - destruct (_hhmm_to_hh_colon_mm v) as [s|] eqn:E; [|reflexivity].
    destruct (Fix s eq_refl) as (K & _ & C).
    unfold _hhmm_to_hh_colon_mm at 1. rewrite C, K. reflexivity.
  - intros s E. destruct (Fix s E) as (K & N & _). split; assumption.
  - intros s -> K. unfold _hhmm_to_hh_colon_mm, _clean_str.
    destruct (String.eqb (Py.strip s) "") eqn:E.
    + apply String.eqb_eq in E.
      rewrite <- contains_colon_strip, E in K. discriminate.
    + rewrite contains_colon_strip, K. reflexivity.
Qed.

(** ** Records of the segment extractor *)

Lemma first_non_empty_truthy (loc : row) (keys : list string) :
  truthy (_first_non_empty loc keys) = is_some (_first_non_empty loc keys).
Proof.
  induction keys as [|k keys IH]; simpl; [reflexivity|].
  destruct (truthy (dict_get loc k)) eqn:T; [|exact IH].
  rewrite T. destruct (dict_get loc k); [reflexivity|discriminate].
Qed.

Lemma first_non_empty_nonblank (loc : row) (keys : list string) :
  _first_non_empty loc keys <> Some "".
Proof.
  intros H. pose proof (first_non_empty_truthy loc keys) as T.
  rewrite H in T. discriminate.
Qed.

Lemma combine_if_shape (guard : bool) (ssd_ t : option string)
    (base : option datetime) (tz : option tzinfo) (r : datetime) :
  combine_if guard ssd_ t base tz = Ok (Some r) ->
  (forall b, base = Some b -> dt_tz b = tz) ->
  exists d w,
    ssd_ = Some d
    /\ day_start d <= w < day_start d + US_PER_DAY
    /\ r = mk_dt (match base with
                  | Some b => if timedelta_hours 2 <? wall b - w
                              then w + timedelta_days 1 else w
                  | None => w
                  end) tz.
Proof.
  unfold combine_if. intros H Hb.
  destruct ssd_ as [d|]; [|discriminate].
  destruct guard; [|discriminate].
  destruct (combine_smart_shape _ _ _ _ _ H Hb) as (w & B & E).
  exists d, w. repeat split; try apply B. exact E.
Qed.

Lemma diff_minutes_wrap_Some (a b : option datetime) (r : Q) :
  diff_minutes_wrap a b = Ok (Some r) ->
  exists x y, a = Some x /\ b = Some y.
Proof.
  destruct a as [x|], b as [y|]; simpl; try discriminate. eauto.
Qed.

Lemma departure_delay_bound (g1 g2 : bool) (ssd_ t1 t2 : option string)
    (tz : option tzinfo) (p x : option datetime) (r : Q) :
  combine_if g1 ssd_ t1 None tz = Ok p ->
  combine_if g2 ssd_ t2 p tz = Ok x ->
  diff_minutes_wrap p x = Ok (Some r) ->
  (-240 < r)%Q /\ (r <= 1200)%Q.
Proof.
  intros EP EX ED.
  destruct (diff_minutes_wrap_Some _ _ _ ED) as (pd & xd & -> & ->).
  destruct (combine_if_shape _ _ _ _ _ _ EP) as (d & wp & Sd & BP & SP);
    [discriminate|].
  destruct (combine_if_shape _ _ _ _ _ _ EX) as (d' & wx & Sd' & BX & SX).
  { intros b Hb. inversion Hb; subst b. rewrite SP. reflexivity. }
  rewrite Sd in Sd'. inversion Sd'; subst d'. clear Sd'.
  rewrite SX, SP in ED. rewrite diff_minutes_wrap_same in ED.
  injection ED as Hr. subst r. apply wrap_after_rollover.
  change (Z.pos (2 * (60 * (60 * 1000000)))) with (timedelta_hours 2).
  cbn [wall].
  assert (D : timedelta_days 1 = US_PER_DAY) by reflexivity.
  assert (T : timedelta_hours 2 = 7200000000) by reflexivity.
  assert (U : US_PER_DAY = 86400000000) by reflexivity.
  destruct (Z.ltb_spec (timedelta_hours 2) (wp - wx)); lia.
Qed.

Lemma arrival_delay_bound (g0 g1 g2 : bool) (ssd_ t0 t1 t2 : option string)
    (tz : option tzinfo) (p x y : option datetime) (r : Q) :
  combine_if g0 ssd_ t0 None tz = Ok p ->
  combine_if g1 ssd_ t1 p tz = Ok x ->
  combine_if g2 ssd_ t2 p tz = Ok y ->
  diff_minutes_wrap x y = Ok (Some r) ->
  (-1200 <= r)%Q /\ (r <= 1200)%Q.
Proof.
  intros EP EX EY ED.
  destruct (diff_minutes_wrap_Some _ _ _ ED) as (xd & yd & -> & ->).
  assert (HP : forall b, p = Some b ->
                 dt_tz b = tz
                 /\ forall d, ssd_ = Some d ->
                      day_start d <= wall b < day_start d + US_PER_DAY).
  { intros b ->.
    destruct (combine_if_shape _ _ _ _ _ _ EP) as (d & wp & Sd & BP & SP);
      [discriminate|].
    rewrite SP. split; [reflexivity|]. intros d' Hd. rewrite Sd in Hd.
    inversion Hd; subst d'. exact BP. }
  destruct (combine_if_shape _ _ _ _ _ _ EX) as (d & wx & Sd & BX & SX);
    [intros b Hb; apply HP, Hb|].
  destruct (combine_if_shape _ _ _ _ _ _ EY) as (d' & wy & Sd' & BY & SY);
    [intros b Hb; apply HP, Hb|].
  rewrite Sd in Sd'. inversion Sd'; subst d'. clear Sd'.
  rewrite SX, SY in ED. rewrite diff_minutes_wrap_same in ED.
  injection ED as Hr. subst r. apply wrap_within_a_day.
  change (Z.pos (2 * (60 * (60 * 1000000)))) with (timedelta_hours 2).
  assert (D : timedelta_days 1 = US_PER_DAY) by reflexivity.
  assert (T : timedelta_hours 2 = 7200000000) by reflexivity.
  assert (U : US_PER_DAY = 86400000000) by reflexivity.
  destruct p as [b|].
  - destruct (HP b eq_refl) as [_ BB]. specialize (BB d Sd).
    destruct (Z.ltb_spec (timedelta_hours 2) (wall b - wx));
      destruct (Z.ltb_spec (timedelta_hours 2) (wall b - wy)); lia.
  - lia.
Qed.

Lemma build_record_fields (rid_ ssd_ : option string) (tz : option tzinfo)
    (first_station : option string) (a_code b_code : string)
    (loc_a loc_b : row) (s : segment) :
  build_record rid_ ssd_ tz first_station a_code b_code loc_a loc_b = Ok s ->
  departure_fields_consistent s
  /\ Seg.rid s = rid_ /\ Seg.ssd s = ssd_
  /\ Seg.loc_first s = loc_a /\ Seg.loc_second s = loc_b
  /\ Seg.planned_arr_second s = None
  /\ (Seg.dwell_delay_min s
      = if bool_decide (Some a_code = first_station)
        then Seg.departure_delay_min s
        else match Seg.departure_delay_min s, Seg.arrival_delay_min s with
             | Some d, Some a => Some (d - a)%Q
             | _, _ => None
             end).
Proof.
  unfold build_record. intros H.
  pose proof (first_non_empty_truthy loc_a ["atd"; "dep_at"]) as Ta.
  pose proof (first_non_empty_truthy loc_a ["etd"; "dep_et"]) as Te.
  pose proof (first_non_empty_truthy loc_a ["wtd"]) as Tw.
  pose proof (first_non_empty_truthy loc_a ["ptd"]) as Tp.
  pose proof (first_non_empty_nonblank loc_a ["atd"; "dep_at"]) as Na.
  pose proof (first_non_empty_nonblank loc_a ["etd"; "dep_et"]) as Ne.
  pose proof (first_non_empty_nonblank loc_a ["wtd"]) as Nw.
  pose proof (first_non_empty_nonblank loc_a ["ptd"]) as Np.
  pose proof (first_non_empty_nonblank loc_a ["ptd"; "wtd"]) as Npd.
  unfold _pick_confirmed_actual_dep, _pick_estimated_dep, _pick_working_dep,
    _pick_planned_dep in H.
  set (adc := _first_non_empty loc_a ["atd"; "dep_at"]) in *.
  set (est := _first_non_empty loc_a ["etd"; "dep_et"]) in *.
  set (wrk := _first_non_empty loc_a ["wtd"]) in *.
  set (pln := _first_non_empty loc_a ["ptd"]) in *.
  assert (K : exists dtp kind,
             (if is_some adc then (adc, "actual")
              else if truthy est then (est, "estimate")
              else if truthy wrk then (wrk, "estimate")
              else (pln, if truthy pln then "estimate" else "missing"))
             = (dtp, kind)
             /\ (is_some adc = true <-> kind = "actual")
             /\ (is_some adc = true -> dtp = adc)
             /\ (kind = "missing" <-> dtp = None)
             /\ (kind = "actual" \/ kind = "estimate" \/ kind = "missing")
             /\ dtp <> Some "").
  { destruct (is_some adc) eqn:A.
    - exists adc, "actual". split; [reflexivity|].
      split; [tauto|]. split; [reflexivity|]. split.
      + split; [discriminate|]. intros ->. discriminate.
      + split; [now left|exact Na].
    - destruct (truthy est) eqn:E.
      + exists est, "estimate". split; [reflexivity|].
        split; [split; discriminate|]. split; [discriminate|]. split.
        * split; [discriminate|]. intros N. rewrite N in E. discriminate.
        * split; [right; now left|exact Ne].
      + destruct (truthy wrk) eqn:W.
        * exists wrk, "estimate". split; [reflexivity|].
          split; [split; discriminate|]. split; [discriminate|]. split.
          -- split; [discriminate|]. intros N. rewrite N in W. discriminate.
          -- split; [right; now left|exact Nw].
        * destruct (truthy pln) eqn:P.
          -- exists pln, "estimate". split; [reflexivity|].
             split; [split; discriminate|]. split; [discriminate|]. split.
             ++ split; [discriminate|]. intros N. rewrite N in P.
                discriminate.
             ++ split; [right; now left|exact Np].
          -- exists pln, "missing". split; [reflexivity|].
             split; [split; discriminate|]. split; [discriminate|]. split.
             ++ split; [|reflexivity]. intros _. rewrite Tp in P.
                destruct pln; [discriminate|reflexivity].
             ++ split; [right; now right|exact Np]. }
  destruct K as (dtp & kind & EK & K1 & K2 & K3 & K4 & K5).
  rewrite EK in H. res_cases H. inversion H; subst s. clear H.
  cbn [Seg.has_actual_dep Seg.actual_dep_confirmed Seg.dep_time_kind
       Seg.dep_time_for_prediction Seg.planned_dep Seg.rid Seg.ssd
       Seg.loc_first Seg.loc_second Seg.planned_arr_second
       Seg.dwell_delay_min Seg.departure_delay_min Seg.arrival_delay_min].
  unfold departure_fields_consistent.
  cbn [Seg.has_actual_dep Seg.actual_dep_confirmed Seg.dep_time_kind
       Seg.dep_time_for_prediction Seg.planned_dep].
  repeat split; try reflexivity; try tauto; try assumption;
    try (apply K1); try (apply K3).
Qed.

Lemma build_record_delays (rid_ ssd_ : option string) (tz : option tzinfo)
    (first_station : option string) (a_code b_code : string)
    (loc_a loc_b : row) (s : segment) :
  build_record rid_ ssd_ tz first_station a_code b_code loc_a loc_b = Ok s ->
  delays_in_range s.
Proof.
  unfold build_record. intros H.
  match type of H with
  | context [let '(_, _) := ?e in _] => destruct e as [dtp kind]
  end.
  res_cases H. inversion H; subst s. clear H. unfold delays_in_range.
  cbn [Seg.departure_delay_min Seg.arrival_delay_min].
  split; intros r ->.
  - match goal with
    | Hd : diff_minutes_wrap ?p ?x = Ok (Some r),
      Hp : combine_if _ _ _ None _ = Ok ?p,
      Hx : combine_if _ _ _ ?p _ = Ok ?x |- _ =>
        exact (departure_delay_bound _ _ _ _ _ _ _ _ _ Hp Hx Hd)
    end.
  - match goal with
    | Hd : diff_minutes_wrap ?x ?y = Ok (Some r),
      Hp : combine_if _ _ _ None _ = Ok ?p,
      Hx : combine_if _ _ _ ?p _ = Ok ?x,
      Hy : combine_if _ _ _ ?p _ = Ok ?y |- _ =>
        exact (arrival_delay_bound _ _ _ _ _ _ _ _ _ _ _ _ Hp Hx Hy Hd)
    end.
Qed.

Section ExtractMore.

Variables (rid_ ssd_ : option string) (tz : option tzinfo)
          (first_station : option string) (by_tpl : gmap string row).

Lemma extract_loop_records (pairs : list (string * string)) :
  forall out,
    extract_loop rid_ ssd_ tz first_station by_tpl pairs = Ok out ->
    Forall (fun s =>
              departure_fields_consistent s /\ delays_in_range s
              /\ Seg.rid s = rid_ /\ Seg.ssd s = ssd_
              /\ by_tpl !! Seg.first s = Some (Seg.loc_first s)
              /\ by_tpl !! Seg.second s = Some (Seg.loc_second s)
              /\ Seg.planned_arr_second s = None
              /\ (Seg.dwell_delay_min s
                  = if bool_decide (Some (Seg.first s) = first_station)
                    then Seg.departure_delay_min s
                    else match Seg.departure_delay_min s,
                               Seg.arrival_delay_min s with
                         | Some d, Some a => Some (d - a)%Q
                         | _, _ => None
                         end)) out.
Proof.
  induction pairs as [|[a b] pairs IH]; intros out H; simpl in H.
  - inversion H. constructor.
  - destruct (by_tpl !! a) as [la|] eqn:A; [|now apply IH].
    destruct (by_tpl !! b) as [lb|] eqn:B; [|now apply IH].
    destruct (negb (row_truthy (Some la)) || negb (row_truthy (Some lb)));
      [now apply IH|].
    cbv beta iota delta [mbind res_bind rbind] in H.
    destruct (build_record rid_ ssd_ tz first_station a b la lb)
      as [s|e] eqn:R; [|discriminate].
    destruct (extract_loop rid_ ssd_ tz first_station by_tpl pairs)
      as [out'|e] eqn:L; [|discriminate].
    inversion H; subst out. constructor; [|now apply IH].
    pose proof (build_record_pair _ _ _ _ _ _ _ _ _ R) as P.
    unfold seg_pair in P. inversion P as [[P1 P2]].
    destruct (build_record_fields _ _ _ _ _ _ _ _ _ R)
      as (F1 & F2 & F3 & F4 & F5 & F6 & F7).
    pose proof (build_record_delays _ _ _ _ _ _ _ _ _ R) as D.
    rewrite P1, P2, F4, F5.
    split; [exact F1|]. split; [exact D|]. split; [exact F2|].
    split; [exact F3|]. split; [exact A|]. split; [exact B|].
    split; [exact F6|exact F7].
Qed.

End ExtractMore.

Lemma extract_segments_loop (forecasts : list row)
    (schedules : option (list row)) (tz : option tzinfo) (drop : bool)
    (out : list segment) (f0 : row) :
  extract_segments forecasts schedules tz drop = Ok out ->
  head forecasts = Some f0 ->
  out = []
  \/ extract_loop (dict_get f0 "rid") (dict_get f0 "ssd") tz
       (Some route_origin) (_build_tpl_index forecasts) STATION_PAIRS
     = Ok out.
Proof.
  unfold extract_segments. intros H Hh.
  destruct forecasts as [|f forecasts]; [discriminate|].
  inversion Hh; subst f0.
  cbv beta iota delta [mbind res_bind rbind] in H.
  match type of H with
  | match ?r with _ => _ end = _ => destruct r as [[]|e]; [| |discriminate]
  end.
  - left. inversion H. reflexivity.
  - right. exact H.
Qed.

(** X12.  In every record that [extract_segments] returns the departure
    fields agree with each other: [has_actual_dep] holds exactly when a
    confirmed departure (atd or dep_at) is present, exactly then the kind is
    "actual" and the time used for prediction is the confirmed one; the kind
    is "missing" exactly when there is no departure time at all, and is
    otherwise "estimate"; none of the time fields is an empty string.  All
    records carry the rid and ssd of the first forecast row, and the dwell
    delay is the departure delay at the first station of the route and
    departure minus arrival delay elsewhere. *)
Theorem extract_segments_fields_consistent (forecasts : list row)
    (schedules : option (list row)) (tz : option tzinfo) (drop : bool)
    (out : list segment) (f0 : row) :
  extract_segments forecasts schedules tz drop = Ok out ->
  head forecasts = Some f0 ->
  Forall (fun s =>
            departure_fields_consistent s
            /\ Seg.rid s = dict_get f0 "rid"
            /\ Seg.ssd s = dict_get f0 "ssd"
            /\ _build_tpl_index forecasts !! Seg.first s
               = Some (Seg.loc_first s)
            /\ _build_tpl_index forecasts !! Seg.second s
               = Some (Seg.loc_second s)
            /\ dwell_as_computed s) out.
Proof.
  intros H Hh.
  destruct (extract_segments_loop _ _ _ _ _ _ H Hh) as [->|L];
    [constructor|].
  apply extract_loop_records in L.
  eapply Forall_impl; [exact L|]. cbv beta.
  intros s (F & _ & R & S & A & B & _ & W).
  split; [exact F|]. split; [exact R|]. split; [exact S|].
  split; [exact A|]. split; [exact B|]. split.
  - intros E. rewrite W, E. rewrite bool_decide_eq_true_2; reflexivity.
  - intros E. rewrite W. rewrite bool_decide_eq_false_2; [reflexivity|].
    intros X. inversion X. contradiction.
Qed.

Lemma extract_segments_fields_consistent_witness :
  exists out s,
    extract_segments sample_forecasts None (Some UTC) true = Ok out
    /\ out = [s]
    /\ departure_fields_consistent s
    /\ Seg.has_actual_dep s = true
    /\ Seg.dep_time_for_prediction s = Some "09:04".
Proof.
  assert (E : exists out s,
             extract_segments sample_forecasts None (Some UTC) true = Ok out
             /\ out = [s]
             /\ Seg.has_actual_dep s = true
             /\ Seg.dep_time_for_prediction s = Some "09:04").
  { eexists _, _. split; [vm_compute; reflexivity|].
    split; [reflexivity|]. split; reflexivity. }
  destruct E as (out & s & E & O & A & D).
  exists out, s. split; [exact E|]. split; [exact O|].
  pose proof (extract_segments_fields_consistent _ _ _ _ _ _ E eq_refl) as F.
  rewrite O in F. inversion F as [|x l Fx Fl]; subst.
  split; [apply Fx|]. split; assumption.
Defined.

(** X13.  Every departure delay that [extract_segments] returns lies in
    (-240, +1200] minutes and every arrival delay in [-1200, +1200]: a
    departure reading more than two hours before the planned one is taken on
    the next day, so the difference is at least -120 before the wrap and an
    early departure can only show as a delay above -240. *)
Theorem extract_segments_delays_in_range (forecasts : list row)
    (schedules : option (list row)) (tz : option tzinfo) (drop : bool)
    (out : list segment) :
  extract_segments forecasts schedules tz drop = Ok out ->
  Forall delays_in_range out.
Proof.
  intros H. destruct (head forecasts) as [f0|] eqn:Ef.
  - destruct (extract_segments_loop _ _ _ _ _ f0 H Ef) as [->|L];
      [constructor|].
    apply extract_loop_records in L.
    eapply Forall_impl; [exact L|]. cbv beta. tauto.
  - destruct forecasts; [|discriminate]. inversion H. constructor.
Qed.

Lemma extract_segments_delays_in_range_witness :
  exists out s r,
    extract_segments sample_forecasts None (Some UTC) true = Ok out
    /\ out = [s]
    /\ Seg.departure_delay_min s = Some r /\ (r == 4)%Q
    /\ delays_in_range s.
Proof.
  assert (E : exists out s r,
             extract_segments sample_forecasts None (Some UTC) true = Ok out
             /\ out = [s]
             /\ Seg.departure_delay_min s = Some r /\ (r == 4)%Q).
  { eexists _, _, _. split; [vm_compute; reflexivity|].
    split; [reflexivity|]. split; [reflexivity|]. vm_compute. reflexivity. }
  destruct E as (out & s & r & E & O & D & V).
  exists out, s, r. split; [exact E|]. split; [exact O|].
  split; [exact D|]. split; [exact V|].
  pose proof (extract_segments_delays_in_range _ _ _ _ _ E) as F.
  rewrite O in F. inversion F; assumption.
Defined.

(** ** The forecast index *)

Lemma build_tpl_index_fold (tpl : string) (l : list row) :
  forall acc : gmap string row,
    fold_left
      (fun by_tpl r =>
         match dict_get r "tpl" with
         | Some tpl => if truthy (Some tpl) then <[tpl := r]> by_tpl
                       else by_tpl
         | None => by_tpl
         end) l acc !! tpl
    = if String.eqb tpl "" then acc !! tpl
      else match last (rows_for_tpl tpl l) with
           | Some r => Some r
           | None => acc !! tpl
           end.
Proof.
  induction l as [|x l IH]; intros acc.
  - simpl. destruct (String.eqb tpl ""); reflexivity.
  - cbn [fold_left]. rewrite IH. clear IH.
    destruct (String.eqb tpl "") eqn:E0.
    + apply String.eqb_eq in E0. subst tpl.
      destruct (dict_get x "tpl") as [t|]; [|reflexivity].
      destruct (truthy (Some t)) eqn:T; [|reflexivity].
      rewrite lookup_insert_ne; [reflexivity|].
      intros ->. discriminate.
    + unfold rows_for_tpl. cbn [List.filter].
      destruct (dict_get x "tpl") as [t|] eqn:Dx.
      * destruct (decide (t = tpl)) as [->|Hne].
        -- rewrite bool_decide_eq_true_2 by reflexivity.
           replace (truthy (Some tpl)) with true
             by (simpl; now rewrite E0).
           rewrite last_cons, lookup_insert_eq.
           destruct (last _); reflexivity.
        -- rewrite bool_decide_eq_false_2 by congruence.
           destruct (truthy (Some t)); [|reflexivity].
           rewrite lookup_insert_ne by exact Hne. reflexivity.
      * rewrite bool_decide_eq_false_2 by congruence. reflexivity.
Qed.

(** X14.  The forecast index maps a location code to the last forecast row
    carrying that code (later rows of a frame override earlier ones); a code
    that no row carries, and the empty code, have no entry. *)
Theorem build_tpl_index_last_wins (forecasts : list row) (tpl : string) :
  _build_tpl_index forecasts !! tpl
  = if String.eqb tpl "" then None else last (rows_for_tpl tpl forecasts).
Proof.
  unfold _build_tpl_index. rewrite build_tpl_index_fold.
  rewrite lookup_empty. destruct (String.eqb tpl ""); [reflexivity|].
  destruct (last _); reflexivity.
Qed.

(** ** The direction vote *)

Section Vote.

Variable by_tpl : gmap string row.
Hypothesis rows_ok : forall a r, by_tpl !! a = Some r -> row_clocks_ok r.

Lemma vote_loop_step (p : string * string) (rest : list (string * string))
    (f r : Z) :
  _is_reverse_by_vote_loop by_tpl (p :: rest) f r
  = match pair_vote by_tpl p with
    | None => _is_reverse_by_vote_loop by_tpl rest f r
    | Some d =>
        if strong_reverse d then Ok true
        else if votes_reverse d
             then _is_reverse_by_vote_loop by_tpl rest f (r + 1)
             else _is_reverse_by_vote_loop by_tpl rest (f + 1) r
    end.
Proof.
  destruct p as [a b]. cbn [_is_reverse_by_vote_loop]. unfold pair_vote.
  cbn [fst snd].
  destruct (by_tpl !! a) as [ra|] eqn:A; [|reflexivity].
  destruct (by_tpl !! b) as [rb|] eqn:B; [|reflexivity].
  destruct (negb (row_truthy (Some ra)) || negb (row_truthy (Some rb)));
    [reflexivity|].
  pose proof (first_non_empty_clock_ok ra ["ptd"; "wtd"; "dep_et"; "dep_at"]
                (rows_ok _ _ A)) as Ca.
  pose proof (first_non_empty_clock_ok rb
                ["pta"; "wta"; "arr_et"; "arr_wet"; "arr_at"]
                (rows_ok _ _ B)) as Cb.
  unfold clock_ok in Ca, Cb.
  destruct (parse_hms (_first_non_empty ra _)) as [dt|e]; [|discriminate].
  destruct (parse_hms (_first_non_empty rb _)) as [at_|e]; [|discriminate].
  cbv beta iota delta [mbind res_bind rbind].
  destruct dt as [dt|]; [|reflexivity].
  destruct at_ as [at_|]; [|reflexivity].
  cbv zeta. unfold strong_reverse, votes_reverse.
  destruct (Qltb _ 0); [|reflexivity].
  cbn [andb]. destruct (Qle_bool _ _); reflexivity.
Qed.

Lemma outcome_ext (s : bool) (n n' x x' y y' : Z) :
  n = n' -> x = x' -> y = y' ->
  Ok (s || ((2 <=? n) && (x <? y))) = Ok (s || ((2 <=? n') && (x' <? y'))).
Proof. congruence. Qed.

Lemma vote_loop_outcome (pairs : list (string * string)) :
  forall f r : Z,
    let vs := omap (pair_vote by_tpl) pairs in
    _is_reverse_by_vote_loop by_tpl pairs f r
    = Ok (existsb strong_reverse vs
          || ((2 <=? f + r + Z.of_nat (List.length vs))
              && (f + count_votes (fun d => negb (votes_reverse d)) vs
                  <? r + count_votes votes_reverse vs))).
Proof.
  induction pairs as [|p pairs IH]; intros f r.
  - cbn. unfold count_votes. cbn. now rewrite !Z.add_0_r.
  - cbv zeta. rewrite vote_loop_step. cbn [omap list_omap].
    destruct (pair_vote by_tpl p) as [d|]; [|apply IH].
    cbn [existsb]. destruct (strong_reverse d) eqn:S; [reflexivity|].
    cbn [orb]. unfold count_votes. cbn [List.filter].
    destruct (votes_reverse d) eqn:V; cbn [negb List.length]; rewrite IH;
      cbv zeta; unfold count_votes; apply outcome_ext; lia.
Qed.

End Vote.

Lemma strong_reverse_le (d : Q) :
  strong_reverse d = true <-> (d <= -10)%Q.
Proof.
  unfold strong_reverse. rewrite andb_true_iff, Qltb_true, Qle_bool_iff.
  split; [tauto|]. intros H. split; [lra|exact H].
Qed.


Lemma sample_rows_clocks_ok (forecasts : list row) :
  forallb (fun r => forallb (fun kv => is_ok (parse_hms (snd kv)))
                      (map_to_list r)) forecasts = true ->
  forall a r, _build_tpl_index forecasts !! a = Some r -> row_clocks_ok r.
Proof.
  intros H a r L. apply build_tpl_index_rows in L. destruct L as [L _].
  rewrite forallb_forall in H. apply row_clocks_ok_check, H.
  now apply list_elem_of_In.
Qed.


(** ** The near-departure filter *)

Lemma clock_match_sym (tz tz' : option tzinfo) :
  clock_match tz tz' -> clock_match tz' tz.
Proof.
  destruct tz as [z|], tz' as [z'|]; simpl; try tauto.
  unfold same_tz. intros H. apply String.eqb_eq in H. rewrite H.
  apply String.eqb_refl.
Qed.

Lemma near_departure_loop_spec (tz tz' : option tzinfo) (lo hi : Z)
    (segs : list segment) :
  clock_match tz tz' ->
  Forall (fun s => clock_ok (Seg.planned_dep s)) segs ->
  near_departure_loop segs tz (mk_dt lo tz') (mk_dt hi tz')
  = Ok (List.filter (spec_near_departure lo hi) segs).
Proof.
  intros M F. induction F as [|seg segs Hc F IH]; [reflexivity|].
  cbn [near_departure_loop List.filter].
  rewrite (_planned_dep_dt_spec seg tz Hc).
  cbv beta iota delta [mbind res_bind rbind].
  unfold spec_near_departure at 1.
  destruct (spec_timestamp (Seg.ssd seg) (Seg.planned_dep seg)) as [w|];
    cbn [fmap option_fmap option_map]; [|exact IH].
  rewrite _to_aware_same. unfold dt_le.
  rewrite (clock_match_operands tz' tz lo w (clock_match_sym _ _ M)).
  cbv beta iota delta [mbind res_bind rbind]. cbn [fst snd].
  destruct (lo <=? w); cbn [andb].
  - rewrite (clock_match_operands tz tz' w hi M).
    cbv beta iota delta [mbind res_bind rbind]. cbn [fst snd].
    rewrite IH. destruct (w <=? hi); reflexivity.
  - rewrite IH. reflexivity.
Qed.



(** ** Dates and ordinals *)

Lemma zrange_in (lo : Z) (n : nat) (z : Z) :
  lo <= z < lo + Z.of_nat n -> In z (zrange lo n).
Proof.
  intros H. unfold zrange. apply in_map_iff.
  exists (Z.to_nat (z - lo)). split; [lia|]. apply in_seq. lia.
Qed.

Lemma season_table :
  forallb (fun m => forallb (fun d =>
    negb (d <=? days_in_month Y m)
    || match _get_season (mk_date 1 m d) with
       | Ok s => String.eqb s (season_of m d)
       | Raise _ => false
       end) (zrange 1 31)) (zrange 1 12) = true.
Proof. vm_compute. reflexivity. Qed.

Lemma days_in_month_leap (y m : Z) : days_in_month y m <= days_in_month Y m.
Proof.
  unfold days_in_month. change (is_leap Y) with true.
  destruct (m =? 2); [destruct (is_leap y); lia|].
  destruct ((m =? 4) || (m =? 6) || (m =? 9) || (m =? 11)); lia.
Qed.

Lemma days_in_month_le_31 (y m : Z) : days_in_month y m <= 31.
Proof.
  unfold days_in_month.
  destruct (m =? 2); [destruct (is_leap y); lia|].
  destruct ((m =? 4) || (m =? 6) || (m =? 9) || (m =? 11)); lia.
Qed.

Lemma date_new_inv (y m d : Z) (dd : date) :
  date_new y m d = Ok dd ->
  dd = mk_date y m d /\ 1 <= y <= MAXYEAR /\ 1 <= m <= 12
  /\ 1 <= d <= days_in_month y m.
Proof.
  unfold date_new.
  destruct ((1 <=? y) && (y <=? MAXYEAR) && (1 <=? m) && (m <=? 12)
            && (1 <=? d) && (d <=? days_in_month y m)) eqn:E;
    [|discriminate].
  intros H. inversion H; subst.
  repeat (apply andb_true_iff in E; destruct E as [E ?]).
  repeat split; lia.
Qed.

Lemma get_season_year (y m d : Z) :
  _get_season (mk_date y m d) = _get_season (mk_date 1 m d).
Proof. reflexivity. Qed.

Lemma get_season_by_month_and_day_aux (y m d : Z) (dd : date) :
  date_new y m d = Ok dd ->
  _get_season dd = Ok (season_of m d)
  /\ season_of m d = season_of (month dd) (day dd).
Proof.
  intros H. apply date_new_inv in H. destruct H as (-> & Hy & Hm & Hd).
  pose proof (days_in_month_leap y m) as L.
  pose proof (days_in_month_le_31 y m) as L31.
  pose proof season_table as T.
  rewrite forallb_forall in T.
  specialize (T m (zrange_in 1 12 m ltac:(lia))).
  rewrite forallb_forall in T.
  specialize (T d (zrange_in 1 31 d ltac:(lia))).
  replace (d <=? days_in_month Y m) with true in T
    by (symmetry; apply Z.leb_le; lia).
  cbn [negb orb] in T. rewrite get_season_year.
  destruct (_get_season (mk_date 1 m d)) as [s|e]; [|discriminate].
  apply String.eqb_eq in T. subst s. split; reflexivity.
Qed.

(** X17.  For every valid date [_get_season] returns, never raises, and its
    answer depends on month and day only: Winter up to 20 March and from 21
    December, Spring from 21 March to 20 June, Summer from 21 June to 22
    September, Autumn from 23 September to 20 December.  The five ranges
    cover the whole year, so the final fallback is never what decides. *)
Theorem get_season_by_month_and_day (y m d : Z) (dd : date) :
  date_new y m d = Ok dd ->
  _get_season dd = Ok (season_of m d)
  /\ (season_of m d = "Winter" \/ season_of m d = "Spring"
      \/ season_of m d = "Summer" \/ season_of m d = "Autumn")
  /\ existsb (fun s => date_le (fst (snd s)) (mk_date Y m d)
                       && date_le (mk_date Y m d) (snd (snd s))) SEASONS
     = true.
Proof.
  intros H.
  split; [exact (proj1 (get_season_by_month_and_day_aux _ _ _ _ H))|].
  apply date_new_inv in H. destruct H as (-> & Hy & Hm & Hd).
  pose proof (days_in_month_le_31 y m) as L31.
  split.
  - unfold season_of.
    repeat match goal with
           | |- context [if ?c then _ else _] => destruct c
           end; auto.
  - assert (Hm' : In m (zrange 1 12)) by (apply zrange_in; lia).
    assert (Hd' : In d (zrange 1 31)) by (apply zrange_in; lia).
    revert Hd. generalize (days_in_month y m). intros dim Hd.
    clear - Hm' Hd'. cbv in Hm'. cbv in Hd'.
    repeat (destruct Hm' as [<-|Hm']; [
      repeat (destruct Hd' as [<-|Hd']; [vm_compute; reflexivity|]);
      destruct Hd'|]).
    destruct Hm'.
Qed.

Lemma get_season_by_month_and_day_witness :
  date_new 2025 4 10 = Ok (mk_date 2025 4 10)
  /\ _get_season (mk_date 2025 4 10) = Ok "Spring"
  /\ _get_season (mk_date 2024 2 29) = Ok "Winter".
Proof.
  split; [reflexivity|]. split.
  - apply (get_season_by_month_and_day 2025 4 10 (mk_date 2025 4 10)).
    reflexivity.
  - reflexivity.
Defined.

Lemma is_leap_shift (y k : Z) : is_leap (y + 400 * k) = is_leap y.
Proof.
  unfold is_leap.
  replace ((y + 400 * k) mod 4) with (y mod 4)
    by (Z.to_euclidean_division_equations; lia).
  replace ((y + 400 * k) mod 100) with (y mod 100)
    by (Z.to_euclidean_division_equations; lia).
  replace ((y + 400 * k) mod 400) with (y mod 400)
    by (Z.to_euclidean_division_equations; lia).
  reflexivity.
Qed.

Lemma days_before_year_shift (y k : Z) :
  days_before_year (y + 400 * k) = days_before_year y + 146097 * k.
Proof.
  unfold days_before_year. cbv zeta.
  Z.to_euclidean_division_equations. lia.
Qed.

Lemma toordinal_shift (y m d k : Z) :
  toordinal (mk_date (y + 400 * k) m d)
  = toordinal (mk_date y m d) + 146097 * k.
Proof.
  unfold toordinal, days_before_month. cbn [year month day].
  rewrite days_before_year_shift, is_leap_shift. lia.
Qed.

Lemma fromordinal_shift (n k : Z) :
  1 <= n <= 146097 ->
  fromordinal (n + 146097 * k)
  = mk_date (year (fromordinal n) + 400 * k) (month (fromordinal n))
      (day (fromordinal n)).
Proof.
  intros Hn. unfold fromordinal. cbv zeta.
  replace ((n + 146097 * k - 1) mod 146097) with (n - 1)
    by (Z.to_euclidean_division_equations; lia).
  replace ((n + 146097 * k - 1) / 146097) with k
    by (Z.to_euclidean_division_equations; lia).
  replace ((n - 1) mod 146097) with (n - 1)
    by (Z.to_euclidean_division_equations; lia).
  replace ((n - 1) / 146097) with 0
    by (Z.to_euclidean_division_equations; lia).
  destruct (ord2ymd_in_cycle (n - 1)) as [[y m] d]. cbn [year month day].
  f_equal. lia.
Qed.

Lemma ordinal_table :
  forallb (fun y => forallb (fun m => forallb (fun d =>
    negb (d <=? days_in_month y m)
    || (let n := toordinal (mk_date y m d) in
        (1 <=? n) && (n <=? 146097)
        && bool_decide (fromordinal n = mk_date y m d)))
    (zrange 1 31)) (zrange 1 12)) (zrange 1 400) = true.
Proof. vm_compute. reflexivity. Qed.

(** [date.fromordinal] undoes [date.toordinal] on every valid date. *)
Lemma fromordinal_toordinal (y m d : Z) (dd : date) :
  date_new y m d = Ok dd -> fromordinal (toordinal dd) = dd.
Proof.
  intros H. apply date_new_inv in H. destruct H as (-> & Hy & Hm & Hd).
  pose proof (days_in_month_le_31 y m) as L31.
  set (k := (y - 1) / 400). set (y0 := (y - 1) mod 400 + 1).
  assert (Ey : y = y0 + 400 * k)
    by (unfold y0, k; Z.to_euclidean_division_equations; lia).
  assert (Hy0 : 1 <= y0 <= 400)
    by (unfold y0; Z.to_euclidean_division_equations; lia).
  assert (Dim : days_in_month y m = days_in_month y0 m).
  { unfold days_in_month. rewrite Ey, is_leap_shift. reflexivity. }
  pose proof ordinal_table as T.
  rewrite forallb_forall in T.
  specialize (T y0 (zrange_in 1 400 y0 ltac:(lia))).
  rewrite forallb_forall in T.
  specialize (T m (zrange_in 1 12 m ltac:(lia))).
  rewrite forallb_forall in T.
  specialize (T d (zrange_in 1 31 d ltac:(lia))).
  replace (d <=? days_in_month y0 m) with true in T
    by (symmetry; apply Z.leb_le; lia).
  cbn [negb orb] in T. cbv zeta in T.
  apply andb_true_iff in T. destruct T as [T Tf].
  apply andb_true_iff in T. destruct T as [T1 T2].
  apply bool_decide_eq_true in Tf.
  rewrite Ey at 1. rewrite toordinal_shift.
  rewrite fromordinal_shift by lia. rewrite Tf. cbn [year month day].
  now rewrite <- Ey.
Qed.

Lemma datetime_combine_date (dd : date) (tm : time) (tz : option tzinfo) :
  1 <= toordinal dd -> time_in_range tm ->
  wall (datetime_combine dd tm) / US_PER_DAY + 1 = toordinal dd
  /\ (wall (datetime_combine dd tm) mod US_PER_DAY) / US_PER_HOUR = hour tm.
Proof.
  intros Ho (Hh & Hm & Hs).
  unfold datetime_combine, US_PER_DAY, US_PER_HOUR, US_PER_MINUTE,
    US_PER_SECOND. cbn [wall].
  split; Z.to_euclidean_division_equations; lia.
Qed.

Lemma ymd_valid (s : string) (dd : date) :
  Strptime.ymd s = Ok dd -> exists y m d, date_new y m d = Ok dd.
Proof.
  unfold Strptime.ymd.
  destruct s as [|y1 [|y2 [|y3 [|y4 [|dash r]]]]]; try discriminate.
  destruct (Py.is_digit y1 && Py.is_digit y2 && Py.is_digit y3
            && Py.is_digit y4 && Ascii.eqb dash "-"); [|discriminate].
  destruct (Strptime.first_month_day (Strptime.month_alts r))
    as [[[m d] rest]|]; [|discriminate].
  destruct (String.eqb rest ""); [|discriminate]. eauto.
Qed.

(** ** SegmentFeatureBuilder.build *)

Lemma combine_anchor (d : string) (t : option string) (tz : option tzinfo)
    (dd : date) (tm : time) :
  Strptime.ymd d = Ok dd -> parse_hms t = Ok (Some tm) ->
  exists dt,
    combine_date_time_smart d t None tz default_rollover_threshold
    = Ok (Some dt)
    /\ dt_date dt = dd /\ dt_hour dt = hour tm.
Proof.
  intros Ed Et. rewrite combine_smart_no_base. unfold combine_date_time.
  rewrite Et. cbv beta iota delta [mbind res_bind rbind]. rewrite Ed.
  eexists. split; [reflexivity|].
  destruct (ymd_valid _ _ Ed) as (y & m & dy & V).
  destruct (datetime_combine_date dd tm tz (ymd_ordinal _ _ Ed)
              (parse_hms_Some_range _ _ Et)) as [D H].
  assert (W : wall (if is_some tz
                    then replace_tzinfo (datetime_combine dd tm) tz
                    else datetime_combine dd tm)
              = wall (datetime_combine dd tm))
    by (destruct (is_some tz); reflexivity).
  unfold dt_date, dt_hour. rewrite W, D, H. split; [|reflexivity].
  exact (fromordinal_toordinal _ _ _ _ V).
Qed.

Lemma extract_datetime (tx : TimeFeatureExtractor) (dt : datetime)
    (y m d : Z) :
  date_new y m d = Ok (dt_date dt) ->
  extract tx (WhenDatetime dt)
  = Ok (let dd := dt_date dt in
        let dow := strftime_A dd in
        TF.mk_time_features (peak_flag (dt_hour dt) (weekend_flag dow)) dow
          (day dd) (dt_hour dt) (weekend_flag dow)
          (season_of (month dd) (day dd)) (month dd) (is_holiday tx dd)).
Proof.
  intros V. unfold extract.
  cbv beta iota delta [mbind res_bind rbind]. cbn [fst snd].
  destruct (get_season_by_month_and_day_aux y m d (dt_date dt) V) as [S E].
  rewrite S. rewrite E. reflexivity.
Qed.

Lemma weekday_range (d : date) : 0 <= weekday d <= 6.
Proof. unfold weekday. Z.to_euclidean_division_equations. lia. Qed.

Lemma weekend_flag_weekday (d : date) :
  weekend_flag (strftime_A d) = (if 5 <=? weekday d then 1 else 0)
  /\ In (strftime_A d)
       ["Monday"; "Tuesday"; "Wednesday"; "Thursday"; "Friday"; "Saturday";
        "Sunday"].
Proof.
  pose proof (weekday_range d) as R. unfold strftime_A.
  assert (C : weekday d = 0 \/ weekday d = 1 \/ weekday d = 2
              \/ weekday d = 3 \/ weekday d = 4 \/ weekday d = 5
              \/ weekday d = 6) by lia.
  destruct C as [C|[C|[C|[C|[C|[C|C]]]]]]; rewrite C; split;
    try reflexivity; cbn; tauto.
Qed.

Lemma build_readable (b : SegmentFeatureBuilder) (seg : segment)
    (d : string) (t : option string) (dd : date) (tm : time) :
  Seg.ssd seg = Some d -> Seg.planned_dep seg = t ->
  Strptime.ymd d = Ok dd -> parse_hms t = Ok (Some tm) ->
  build b seg
  = Ok (match Seg.departure_delay_min seg with
        | Some x =>
            Some (calendar_features (_time_extractor b) dd tm x
                    (default 0%Q (Seg.dwell_delay_min seg)))
        | None => None
        end).
Proof.
  intros Es Et Ed Ep. unfold build. cbv zeta. rewrite Es, Et.
  assert (Td : truthy (Some d) = true).
  { destruct d; [discriminate Ed|reflexivity]. }
  assert (Tt : truthy t = true).
  { destruct t as [[|c s]|]; [discriminate Ep|reflexivity|discriminate Ep]. }
  rewrite Td, Tt. cbn [negb orb].
  destruct (combine_anchor d t (_tz b) dd tm Ed Ep) as (dt & C & D & H).
  rewrite C. cbv beta iota delta [mbind res_bind rbind].
  destruct (ymd_valid _ _ Ed) as (y & m & dy & V).
  rewrite <- D in V. rewrite (extract_datetime _ _ _ _ _ V).
  cbv zeta. rewrite D, H.
  destruct (Seg.departure_delay_min seg); reflexivity.
Qed.

(** X18.  For a segment whose service date and planned departure are
    readable, [build] returns a feature dict exactly when the departure delay
    is present (None otherwise), and the calendar features in it are those of
    the service date itself: its day of month, month, weekday name and
    season, the hour of the planned departure, weekend 1 exactly on Saturday
    and Sunday, peak 1 exactly on other days at hours 7-9 and 16-19; a
    missing dwell delay becomes 0.  The time zone plays no part. *)
Theorem build_features_of_service_date (b : SegmentFeatureBuilder)
    (seg : segment) (d t : string) (dd : date) (tm : time) :
  Seg.ssd seg = Some d ->
  Seg.planned_dep seg = Some t ->
  Strptime.ymd d = Ok dd ->
  parse_hms (Some t) = Ok (Some tm) ->
  build b seg
  = Ok (match Seg.departure_delay_min seg with
        | Some x =>
            Some (calendar_features (_time_extractor b) dd tm x
                    (default 0%Q (Seg.dwell_delay_min seg)))
        | None => None
        end)
  /\ 0 <= hour tm <= 23
  /\ weekend_flag (strftime_A dd) = (if 5 <=? weekday dd then 1 else 0)
  /\ (peak_flag (hour tm) (weekend_flag (strftime_A dd)) = 1
      <-> weekday dd < 5
          /\ (7 <= hour tm <= 9 \/ 16 <= hour tm <= 19)).
Proof.
  intros Es Et Ed Ep.
  split; [exact (build_readable b seg d (Some t) dd tm Es Et Ed Ep)|].
  pose proof (parse_hms_Some_range _ _ Ep) as (Hh & _ & _).
  split; [exact Hh|].
  destruct (weekend_flag_weekday dd) as [W _].
  split; [exact W|]. rewrite W. unfold peak_flag.
  destruct (Z.leb_spec 5 (weekday dd)) as [L|L]; cbn [Z.eqb].
  - split; [discriminate|lia].
  - change (0 =? 1) with false. cbv iota.
    destruct (Z.ltb_spec 6 (hour tm)); destruct (Z.ltb_spec (hour tm) 10);
      destruct (Z.leb_spec 16 (hour tm)); destruct (Z.leb_spec (hour tm) 19);
      cbn [andb]; split; try discriminate; try lia; intros; reflexivity.
Qed.

Lemma build_features_of_service_date_witness :
  exists seg f,
    head sample_segments = Some seg
    /\ build sample_builder seg = Ok (Some f)
    /\ (departure_delay f == 4)%Q
    /\ day_of_week f = "Thursday" /\ day_of_month f = 10
    /\ hour_of_day f = 9 /\ peak f = 1 /\ weekend f = 0
    /\ season f = "Spring" /\ month_ f = 4 /\ holiday f = 0.
Proof.
  assert (E : exists seg x,
             head sample_segments = Some seg
             /\ Seg.ssd seg = Some "2025-04-10"
             /\ Seg.planned_dep seg = Some "09:00"
             /\ Seg.departure_delay_min seg = Some x /\ (x == 4)%Q).
  { eexists _, _. split; [vm_compute; reflexivity|].
    split; [reflexivity|]. split; [reflexivity|].
    split; [reflexivity|]. vm_compute. reflexivity. }
  destruct E as (seg & x & Hh & Es & Et & Dd & V).
  destruct (build_features_of_service_date sample_builder seg "2025-04-10"
              "09:00" (mk_date 2025 4 10) (mk_time 9 0 0) Es Et
              eq_refl eq_refl) as (B & _).
  rewrite Dd in B.
  eexists seg, _. split; [exact Hh|]. split; [exact B|].
  split; [exact V|]. repeat split; reflexivity.
Defined.

(** X19.  [build] returns None when the service date or the planned
    departure is missing or empty.  When both are present but do not combine
    to a timestamp (the clock string is not a colon form, or the service date
    is not a date) it does not return None: the extractor is handed None and
    the call raises AttributeError, whether or not a departure delay is
    there. *)
Theorem build_unreadable_anchor_raises (b : SegmentFeatureBuilder)
    (seg : segment) :
  (negb (truthy (Seg.ssd seg)) || negb (truthy (Seg.planned_dep seg)) = true ->
   build b seg = Ok None)
  /\ (forall d,
        Seg.ssd seg = Some d -> d <> "" ->
        truthy (Seg.planned_dep seg) = true ->
        clock_ok (Seg.planned_dep seg) ->
        parse_hms (Seg.planned_dep seg) = Ok None
        \/ is_ok (Strptime.ymd d) = false ->
        build b seg = Raise AttributeError)
  /\ (forall s, Seg.ssd s = Some "2025-04-10" ->
        Seg.planned_dep s = Some "0943" ->
        build b s = Raise AttributeError).
Proof.
  assert (G : forall s d,
            Seg.ssd s = Some d -> d <> "" ->
            truthy (Seg.planned_dep s) = true ->
            clock_ok (Seg.planned_dep s) ->
            parse_hms (Seg.planned_dep s) = Ok None
            \/ is_ok (Strptime.ymd d) = false ->
            build b s = Raise AttributeError).
  { intros s d Es Nd Tt Ck H. unfold build. cbv zeta. rewrite Es, Tt.
    replace (truthy (Some d)) with true
      by (destruct d; [contradiction|reflexivity]).
    cbn [negb orb]. rewrite combine_smart_no_base. unfold combine_date_time.
    unfold clock_ok in Ck.
    destruct (parse_hms (Seg.planned_dep s)) as [[tm|]|e] eqn:P;
      [|reflexivity|discriminate].
    destruct H as [H|H]; [discriminate|].
    cbv beta iota delta [mbind res_bind rbind].
    destruct (Strptime.ymd d) as [dd|e] eqn:Ey; [discriminate|].
    apply ymd_raises_ValueError in Ey. subst e. reflexivity. }
  split; [|split].
  - intros H. unfold build. cbv zeta.
    destruct (Seg.ssd seg) as [d|]; [|reflexivity]. now rewrite H.
  - exact (G seg).
  - intros s Es Et. apply (G s "2025-04-10" Es); rewrite ?Et;
      [discriminate|reflexivity|reflexivity|left; reflexivity].
Qed.

(** ** Features of the segments that pass the in-progress filter *)

Lemma planned_dep_dt_Some (seg : segment) (tz : option tzinfo)
    (dep : datetime) :
  _planned_dep_dt seg tz = Ok (Some dep) ->
  exists d dd tm,
    Seg.ssd seg = Some d /\ Strptime.ymd d = Ok dd
    /\ parse_hms (Seg.planned_dep seg) = Ok (Some tm).
Proof.
  unfold _planned_dep_dt. cbv zeta.
  destruct (Seg.ssd seg) as [d|]; [|discriminate].
  destruct (negb (truthy (Some d)) || negb (truthy (Seg.planned_dep seg)));
    [discriminate|].
  rewrite combine_smart_no_base. unfold combine_date_time.
  destruct (parse_hms (Seg.planned_dep seg)) as [[tm|]|e];
    cbv beta iota delta [mbind res_bind rbind]; try discriminate.
  destruct (Strptime.ymd d) as [dd|e] eqn:Ey.
  - intros _. exists d, dd, tm. repeat split. exact Ey.
  - destruct e; discriminate.
Qed.

Lemma in_progress_loop_kept (tz : option tzinfo) (dep_limit arr_limit : datetime)
    (segs : list segment) :
  forall out,
    in_progress_loop segs tz dep_limit arr_limit = Ok out ->
    Forall (fun s => exists s0 dep,
              s0 ∈ segs
              /\ s = set__planned_dep_dt_for_filter None s0
              /\ _planned_dep_dt s0 tz = Ok (Some dep)) out.
Proof.
  induction segs as [|seg segs IH]; intros out H; simpl in H.
  - inversion H. constructor.
  - assert (Step : forall out',
              in_progress_loop segs tz dep_limit arr_limit = Ok out' ->
              Forall (fun s => exists s0 dep,
                        s0 ∈ seg :: segs
                        /\ s = set__planned_dep_dt_for_filter None s0
                        /\ _planned_dep_dt s0 tz = Ok (Some dep)) out').
    { intros out' H'. eapply Forall_impl; [exact (IH _ H')|].
      intros s (s0 & dep & I & E & P). exists s0, dep.
      split; [now right|]. split; assumption. }
    destruct (_planned_dep_dt seg tz) as [[dep|]|e] eqn:P;
      cbv beta iota delta [mbind res_bind rbind] in H;
      [|now apply Step|discriminate].
    destruct (_planned_arr_dt _ tz) as [[arr|]|e] eqn:A;
      [|now apply Step|discriminate].
    destruct (dt_le _ dep_limit) as [c1|e]; [|discriminate].
    match type of H with
    | match ?r with _ => _ end = _ => destruct r as [c2|e]; [|discriminate]
    end.
    destruct (in_progress_loop segs tz dep_limit arr_limit) as [out'|e];
      [|discriminate].
    inversion H; subst out. clear H.
    destruct c2; [|now apply Step].
    constructor; [|now apply Step].
    exists seg, dep. split; [now left|]. split; [reflexivity|exact P].
Qed.

(** X20.  Every segment that the in-progress filter lets through can be
    given features: on it [build], with the same time zone, returns without
    raising, and returns a feature dict unless the departure delay is
    missing.  (The filter keeps only segments whose service date and planned
    departure combine to a timestamp, which is what [build] needs.) *)
Theorem build_after_in_progress_filter (b : SegmentFeatureBuilder)
    (segments out : list segment) (now : datetime)
    (before_mins after_mins dep_grace arr_grace : Z) :
  filter_segments_by_now segments now (_tz b) "in_progress" before_mins
    after_mins dep_grace arr_grace = Ok out ->
  Forall (fun s =>
            exists d dd tm,
              Seg.ssd s = Some d /\ Strptime.ymd d = Ok dd
              /\ parse_hms (Seg.planned_dep s) = Ok (Some tm)
              /\ build b s
                 = Ok (match Seg.departure_delay_min s with
                       | Some x =>
                           Some (calendar_features (_time_extractor b) dd tm
                                   x (default 0%Q (Seg.dwell_delay_min s)))
                       | None => None
                       end)) out.
Proof.
  unfold filter_segments_by_now. cbv zeta.
  cbn [String.eqb Ascii.eqb Bool.eqb orb negb].
  intros H. cbv beta iota delta [mbind res_bind rbind] in H.
  destruct (dt_add _ (timedelta_minutes dep_grace)) as [dl|e];
    [|discriminate].
  destruct (dt_add _ (- timedelta_minutes arr_grace)) as [al|e];
    [|discriminate].
  apply in_progress_loop_kept in H.
  eapply Forall_impl; [exact H|]. cbv beta.
  intros s (s0 & dep & _ & -> & P).
  destruct (planned_dep_dt_Some _ _ _ P) as (d & dd & tm & Es & Ey & Ep).
  exists d, dd, tm. split; [exact Es|]. split; [exact Ey|].
  split; [exact Ep|].
  exact (build_readable b (set__planned_dep_dt_for_filter None s0) d
           (Seg.planned_dep s0) dd tm Es eq_refl Ey Ep).
Qed.

Lemma build_after_in_progress_filter_witness :
  exists out s,
    filter_segments_by_now sample_segments (mk_dt sample_now (Some UTC))
      (_tz sample_builder) "in_progress" 30 180 5 2 = Ok out
    /\ out = [s]
    /\ exists f, build sample_builder s = Ok (Some f)
                 /\ day_of_week f = "Thursday" /\ hour_of_day f = 9.
Proof.
  assert (E : exists out s x,
             filter_segments_by_now sample_segments
               (mk_dt sample_now (Some UTC)) (_tz sample_builder)
               "in_progress" 30 180 5 2 = Ok out
             /\ out = [s]
             /\ Seg.departure_delay_min s = Some x
             /\ Seg.ssd s = Some "2025-04-10"
             /\ Seg.planned_dep s = Some "09:00").
  { eexists _, _, _. split; [vm_compute; reflexivity|].
    split; [reflexivity|]. repeat split; reflexivity. }
  destruct E as (out & s & x & E & O & Dd & Es & Et).
  exists out, s. split; [exact E|]. split; [exact O|].
  pose proof (build_after_in_progress_filter sample_builder _ _ _ _ _ _ _ E)
    as F.
  rewrite O in F. inversion F as [|x0 l Fx Fl]; subst x0 l.
  destruct Fx as (d & dd & tm & Es' & Ey & Ep & B).
  rewrite Es in Es'. inversion Es'; subst d.
  rewrite Et in Ep. inversion Ey; subst dd. inversion Ep; subst tm.
  rewrite Dd in B. eexists. split; [exact B|]. split; reflexivity.
Defined.

(** ** The weighted ensemble: bounds and caching *)

Lemma weighted_sum_bounds (lo hi : Q) (wdict : list (string * Q)) :
  forall ys : list Q,
    List.length ys = List.length wdict ->
    Forall (fun nw => (0 <= snd nw)%Q) wdict ->
    Forall (fun y => (lo <= y)%Q /\ (y <= hi)%Q) ys ->
    (lo * total_weight wdict <= weighted_sum wdict ys)%Q
    /\ (weighted_sum wdict ys <= hi * total_weight wdict)%Q.
Proof.
  induction wdict as [|[n w] wdict IH]; intros ys L W B.
  - destruct ys; simpl; split; lra.
  - destruct ys as [|y ys]; [discriminate|].
    inversion W as [|? ? W1 W2]; subst. inversion B as [|? ? B1 B2]; subst.
    simpl in W1. destruct B1 as [B1 B1'].
    destruct (IH ys ltac:(simpl in L; lia) W2 B2) as [I1 I2].
    cbn [weighted_sum total_weight fold_right snd].
    fold (total_weight wdict).
    split; nra.
Qed.

Section EnsembleMore.

Variable X : Type.
Variable joblib_load : string -> res (artifact X).


(** X22.  A pipeline is read from disk at most once per (first, second,
    model): after a successful load the same call returns the cached object
    and leaves the predictor unchanged whatever joblib.load would now give,
    and a cache hit never consults joblib.load.  A failed load is not cached:
    the predictor is left as it was, so the next call tries again. *)
Theorem load_pipeline_reads_once (p p1 : WeightedEnsemblePredictor X)
    (first second model_name : string) (r : res (pyobj X)) :
  _load_pipeline X joblib_load p first second model_name = (p1, r) ->
  match r with
  | Ok pipe =>
      is_some (predict pipe) = true
      /\ _pipe_cache p1 !! (first, second, model_name) = Some pipe
         \/ _pipe_cache p !! (first, second, model_name) = Some pipe
  | Raise e => p1 = p
  end
  /\ (forall pipe, r = Ok pipe ->
      forall load' : string -> res (artifact X),
        _load_pipeline X load' p1 first second model_name = (p1, Ok pipe))
  /\ (forall k, is_Some (_pipe_cache p !! k) -> is_Some (_pipe_cache p1 !! k))
  /\ _weights p1 = _weights p.
Proof.
  unfold _load_pipeline at 1.
  destruct (_pipe_cache p !! (first, second, model_name)) as [c|] eqn:C.
  - intros H. inversion H; subst. split; [now right|]. split.
    + intros pipe E load'. inversion E; subst.
      unfold _load_pipeline. now rewrite C.
    + split; [auto|reflexivity].
  - set (loaded := (art ← joblib_load (model_path first second model_name);
                    pipe ← match art with
                            | ArtDict d =>
                                match d !! "pipeline" with
                                | Some o => Ok o
                                | None => Raise ValueError
                                end
                            | ArtObj o => Ok o
                            end;
                    if is_some (predict pipe) then Ok pipe
                    else Raise TypeError)).
    destruct loaded as [pipe|e] eqn:L; intros H; inversion H; subst.
    + assert (P : is_some (predict pipe) = true).
      { unfold loaded in L.
        cbv beta iota delta [mbind res_bind rbind] in L.
        destruct (joblib_load _) as [art|e]; [|discriminate].
        destruct (match art with
                  | ArtDict d => match d !! "pipeline" with
                                 | Some o => Ok o
                                 | None => Raise ValueError
                                 end
                  | ArtObj o => Ok o
                  end) as [o|e]; [|discriminate].
        destruct (is_some (predict o)) eqn:Po; [|discriminate].
        inversion L; subst. exact Po. }
      split.
      * left. split; [exact P|]. cbn [_pipe_cache]. apply lookup_insert_eq.
      * split.
        -- intros pipe' E load'. inversion E; subst pipe'.
           unfold _load_pipeline. cbn [_pipe_cache].
           rewrite lookup_insert_eq. reflexivity.
        -- split; [|reflexivity]. intros k [v Hk]. cbn [_pipe_cache].
           destruct (decide ((first, second, model_name) = k)) as [<-|Hne].
           ++ rewrite lookup_insert_eq. eauto.
           ++ rewrite lookup_insert_ne by exact Hne. eauto.
    + split; [reflexivity|]. split; [discriminate|].
      split; [auto|reflexivity].
Qed.

End EnsembleMore.


Lemma load_pipeline_reads_once_witness :
  exists p1 pipe,
    _load_pipeline unit sample_two_models sample_two_predictor "SOTON"
      "SOTPKWY" "rf" = (p1, Ok pipe)
    /\ _load_pipeline unit (fun _ => Raise LoadError) p1 "SOTON" "SOTPKWY"
         "rf" = (p1, Ok pipe).
Proof.
  destruct (_load_pipeline unit sample_two_models sample_two_predictor
              "SOTON" "SOTPKWY" "rf") as [p1 r] eqn:E.
  assert (R : is_ok r = true).
  { apply (f_equal snd) in E. cbn [snd] in E. rewrite <- E.
    vm_compute. reflexivity. }
  destruct r as [pipe|e]; [|discriminate].
  exists p1, pipe. split; [reflexivity|].
  destruct (load_pipeline_reads_once unit sample_two_models _ _ _ _ _ _ E)
    as (_ & Again & _).
  exact (Again pipe eq_refl (fun _ => Raise LoadError)).
Defined.

(** ** Records of the orchestrator and the writer *)

Lemma make_rec_keys (s : segment) (feat : features) (yhat : Q) :
  map fst (map_to_list (make_rec s feat yhat))
  ≡ₚ [ "rid"; "ssd"; "first"; "second"; "planned_dep"; "dep_time";
       "dep_time_kind"; "has_actual_dep"; "actual_dep_confirmed";
       "departure_delay"; "dwell_delay"; "peak"; "day_of_week";
       "day_of_month"; "hour_of_day"; "weekend"; "season"; "month";
       "holiday"; "predicted_delay" ].
Proof.
  unfold make_rec.
  rewrite map_to_list_to_map
    by (apply (bool_decide_unpack _); vm_compute; exact I).
  reflexivity.
Qed.

Lemma make_rec_lookup (s : segment) (feat : features) (yhat : Q) :
  make_rec s feat yhat !! "rid" = Some (sql_text (Seg.rid s))
  /\ make_rec s feat yhat !! "id" = None.
Proof.
  unfold make_rec. split.
  - apply elem_of_list_to_map_1.
    + apply (bool_decide_unpack _). vm_compute. exact I.
    + apply list_elem_of_here.
  - apply not_elem_of_list_to_map_1. cbn [fmap list_fmap fst].
    rewrite !elem_of_cons, elem_of_nil. intuition congruence.
Qed.

Lemma make_rec_known (s : segment) (feat : features) (yhat : Q) :
  known_columns predictions_schema (make_rec s feat yhat) = true.
Proof.
  unfold known_columns. apply forallb_forall. intros c Hin.
  apply list_elem_of_In in Hin. rewrite (make_rec_keys s feat yhat) in Hin.
  rewrite !elem_of_cons, elem_of_nil in Hin.
  repeat (destruct Hin as [->|Hin]; [vm_compute; reflexivity|]).
  destruct Hin.
Qed.

Lemma predictions_schema_ok : schema_ok predictions_schema = true.
Proof. vm_compute. reflexivity. Qed.

Section RecordsAccepted.

Variable coerce : affinity -> sqlval -> sqlval.
Variable clock : nat -> string.

Lemma insert_make_rec (now : string) (t : table) (s : segment)
    (feat : features) (yhat : Q) :
  exists t',
    insert_or_ignore coerce predictions_schema now t (make_rec s feat yhat)
    = Ok t'
    /\ (coerce_keeps_null coerce -> Seg.rid s = None ->
        tbl_rows t' = tbl_rows t).
Proof.
  destruct (make_rec_lookup s feat yhat) as [Hrid Hid].
  unfold insert_or_ignore.
  assert (Ne : bool_decide (make_rec s feat yhat = ∅) = false).
  { apply bool_decide_eq_false. intros E. rewrite E in Hrid.
    rewrite lookup_empty in Hrid. discriminate. }
  rewrite Ne, make_rec_known. cbn [negb orb].
  rewrite (new_rowid_auto coerce t _ Hid).
  cbv beta iota delta [mbind res_bind rbind].
  match goal with
  | |- exists t', (if ?b then _ else _) = _ /\ _ => destruct b eqn:B
  end.
  - eexists. split; [reflexivity|]. intros _ _. reflexivity.
  - eexists. split; [reflexivity|]. intros K R. exfalso.
    apply orb_false_iff in B as [B _]. apply orb_false_iff in B as [B _].
    assert (V : notnull_violation predictions_schema
                  (new_cells coerce predictions_schema now
                     (make_rec s feat yhat)) = true).
    { unfold notnull_violation. apply existsb_exists.
      exists (mk_col "rid" AffText true DefNull). split.
      - simpl. tauto.
      - cbn [col_notnull col_name andb]. unfold cell.
        rewrite (new_cells_column coerce predictions_schema
                   predictions_schema_ok now _
                   (mk_col "rid" AffText true DefNull))
          by (apply list_elem_of_In; simpl; tauto).
        unfold stored_value. cbn [col_name col_aff default].
        rewrite Hrid, R. cbn [sql_text]. unfold id. rewrite K. reflexivity. }
    rewrite V in B. discriminate.
Qed.

(** X23.  The writer thread survives every record the orchestrator builds:
    with the two prediction tables in place, the statement run for a queued
    on_decoded record never raises, whatever the segment, the features and
    the prediction are, so the item is consumed, the statement counted and
    the thread left alive.  A record whose rid is None is accepted and stored
    nowhere: the NOT NULL column turns the INSERT OR IGNORE into a no-op. *)
Theorem writer_accepts_orchestrator_records (st : RealTimeSQLiteStore)
    (table_name : string) (s : segment) (feat : features) (yhat : Q)
    (q' : list item) :
  prediction_tables_exist (conn_db st) ->
  writer_alive st = true ->
  table_name = "predictions_all" \/ table_name = "predictions_actual" ->
  _q st = (Some table_name, Some (make_rec s feat yhat)) :: q' ->
  writer_alive (writer_step coerce clock st) = true
  /\ _q (writer_step coerce clock st) = q'
  /\ stmts (writer_step coerce clock st) = S (stmts st)
  /\ prediction_tables_exist (conn_db (writer_step coerce clock st))
  /\ (coerce_keeps_null coerce -> Seg.rid s = None ->
      tbl_rows <$> predictions_all (conn_db (writer_step coerce clock st))
      = tbl_rows <$> predictions_all (conn_db st)
      /\ tbl_rows <$> predictions_actual (conn_db (writer_step coerce clock st))
         = tbl_rows <$> predictions_actual (conn_db st)).
Proof.
  intros [Ta Tb] A Ht Q. unfold writer_step. rewrite A, Q. cbn [negb].
  destruct (predictions_all (conn_db st)) as [ta|] eqn:Ea; [|discriminate].
  destruct (predictions_actual (conn_db st)) as [tb|] eqn:Eb; [|discriminate].
  destruct Ht as [-> | ->].
  - destruct (insert_make_rec (clock (stmts st)) ta s feat yhat)
      as (t' & E & N).
    unfold _insert_with_conn. cbn [String.eqb Ascii.eqb Bool.eqb].
    rewrite Ea, E. cbv beta iota delta [mbind res_bind rbind].
    cbn [writer_alive _q stmts conn_db predictions_all predictions_actual].
    rewrite Eb. repeat split; try reflexivity.
    cbn [fmap option_fmap option_map]. f_equal. apply N; assumption.
  - destruct (insert_make_rec (clock (stmts st)) tb s feat yhat)
      as (t' & E & N).
    unfold _insert_with_conn.
    change (String.eqb "predictions_actual" "predictions_all") with false.
    change (String.eqb "predictions_actual" "predictions_actual") with true.
    cbv iota.
    rewrite Eb, E. cbv beta iota delta [mbind res_bind rbind].
    cbn [writer_alive _q stmts conn_db predictions_all predictions_actual].
    rewrite Ea. repeat split; try reflexivity.
    cbn [fmap option_fmap option_map]. f_equal. apply N; assumption.
Qed.

End RecordsAccepted.

Lemma writer_accepts_orchestrator_records_witness :
  sample_segments <> []
  /\ Forall (fun s =>
       writer_alive
         (writer_step coerce_id (fun _ => "2025-04-10 09:05:00")
            (set_q (RealTimeSQLiteStore_new new_database 10)
               [(Some "predictions_all",
                 Some (make_rec s sample_features (3 # 2)))])) = true)
       sample_segments.
Proof.
  split; [vm_compute; discriminate|].
  apply Forall_forall. intros s _.
  apply (writer_accepts_orchestrator_records coerce_id
           (fun _ => "2025-04-10 09:05:00")
           (set_q (RealTimeSQLiteStore_new new_database 10)
              [(Some "predictions_all",
                Some (make_rec s sample_features (3 # 2)))])
           "predictions_all" s sample_features (3 # 2) []).
  - split; reflexivity.
  - reflexivity.
  - left; reflexivity.
  - reflexivity.
Defined.

(** ** The route of station_pairs.py *)

Lemma route_of_pairs_zip (pairs : list (string * string)) :
  chained pairs ->
  zip (route_of_pairs pairs) (tail (route_of_pairs pairs)) = pairs.
Proof.
  destruct pairs as [|p0 pairs]; [reflexivity|].
  unfold route_of_pairs. cbn [tail]. revert p0.
  induction pairs as [|p1 pairs IH]; intros p0 C.
  - destruct p0; reflexivity.
  - cbn [map zip zip_with].
    assert (E : snd p0 = fst p1) by exact (C 0%nat p0 p1 eq_refl eq_refl).
    rewrite E.
    assert (C' : chained (p1 :: pairs)).
    { intros i p q Hp Hq. exact (C (S i) p q Hp Hq). }
    specialize (IH p1 C'). cbn [map zip zip_with] in IH.
    f_equal; [destruct p0; simpl in *; now subst|].
    exact IH.
Qed.

Lemma station_pairs_chained : chained STATION_PAIRS.
Proof.
  intros i p q Hp Hq.
  do 19 (destruct i as [|i];
         [vm_compute in Hp, Hq; try discriminate;
          inversion Hp; inversion Hq; reflexivity|]).
  vm_compute in Hp. discriminate.
Qed.

Lemma station_pairs_one_way :
  forallb (fun p => negb (bool_decide ((snd p, fst p) ∈ STATION_PAIRS)))
    STATION_PAIRS = true.
Proof. vm_compute. reflexivity. Qed.

(** X24.  A pair is tracked exactly when its two stations are neighbours on
    the route, in journey order; the route lists each of its twenty stations
    once, and no tracked pair is tracked in the reverse direction. *)
Theorem tracked_pairs_are_route_neighbours (a b : string) :
  (is_tracked_pair a b = true
   <-> exists i : nat, TIPLOC2_ROUTE !! i = Some a
                       /\ TIPLOC2_ROUTE !! S i = Some b)
  /\ (is_tracked_pair a b = true -> is_tracked_pair b a = false)
  /\ NoDup TIPLOC2_ROUTE
  /\ List.length TIPLOC2_ROUTE = S (List.length STATION_PAIRS).
Proof.
  assert (T : forall x y, is_tracked_pair x y = true
                          <-> (x, y) ∈ STATION_PAIRS).
  { intros x y. unfold is_tracked_pair, PAIR_SET.
    rewrite bool_decide_eq_true, elem_of_list_to_set. reflexivity. }
  split; [|split; [|split]].
  - rewrite T.
    rewrite <- (route_of_pairs_zip STATION_PAIRS station_pairs_chained) at 1.
    fold iter_route_tiploc2s. fold TIPLOC2_ROUTE.
    rewrite list_elem_of_lookup. split.
    + intros [i Hi]. exists i.
      apply lookup_zip_with_Some in Hi as (x & y & E & Hx & Hy).
      inversion E; subst x y. rewrite lookup_tail in Hy. split; assumption.
    + intros (i & Hx & Hy). exists i.
      apply lookup_zip_with_Some. exists a, b.
      rewrite lookup_tail. repeat split; assumption.
  - rewrite T. intros Hin.
    pose proof station_pairs_one_way as W. rewrite forallb_forall in W.
    specialize (W (a, b) (proj1 (list_elem_of_In _ _) Hin)).
    cbn [fst snd] in W. apply negb_true_iff, bool_decide_eq_false in W.
    destruct (is_tracked_pair b a) eqn:R; [|reflexivity].
    apply T in R. contradiction.
  - apply (bool_decide_unpack _). vm_compute. exact I.
  - reflexivity.
Qed.

(** ** The lookup dicts of route_maps *)

Section RouteMapsFacts.

Variable get_crs get_name get_tiploc : string -> option string.

Lemma route_maps_loop_spec (route : list string) :
  forall m0 : route_dicts,
    let m := fold_left route_maps_step
               (zip route (zip (map get_crs route)
                             (zip (map get_name route)
                                (map get_tiploc route)))) m0 in
    (forall t2,
        tiploc2_to_crs m !! t2
        = if bool_decide (t2 ∈ route) then Some (get_crs t2)
          else tiploc2_to_crs m0 !! t2)
    /\ (forall t2,
        tiploc2_to_name m !! t2
        = if bool_decide (t2 ∈ route) then Some (get_name t2)
          else tiploc2_to_name m0 !! t2)
    /\ (forall t2,
        tiploc2_to_tiploc m !! t2
        = if bool_decide (t2 ∈ route) then Some (get_tiploc t2)
          else tiploc2_to_tiploc m0 !! t2)
    /\ (forall c,
        crs_to_tiploc2 m !! c
        = match crs_to_tiploc2 m0 !! c with
          | Some t2 => Some t2
          | None => if String.eqb c "" then None
                    else first_with_crs get_crs c route
          end).
Proof.
  induction route as [|a route IH]; intros m0; cbv zeta.
  - simpl. repeat split; intros; try reflexivity.
    destruct (crs_to_tiploc2 m0 !! c); [reflexivity|].
    now destruct (String.eqb c "").
  - cbn [map zip zip_with fold_left].
    destruct (IH (route_maps_step m0
                    (a, (get_crs a, (get_name a, get_tiploc a)))))
      as (I1 & I2 & I3 & I4).
    cbv zeta in I1, I2, I3, I4.
    assert (Up : forall (f : string -> option string)
                   (d d0 : gmap string (option string)) t2,
               d !! t2 = (if bool_decide (t2 ∈ route) then Some (f t2)
                          else <[a := f a]> d0 !! t2) ->
               d !! t2 = if bool_decide (t2 ∈ a :: route) then Some (f t2)
                         else d0 !! t2).
    { intros f d d0 t2 ->.
      destruct (decide (t2 ∈ route)) as [Hin|Hn].
      - rewrite !bool_decide_eq_true_2; [reflexivity| |exact Hin].
        now apply list_elem_of_further.
      - rewrite (bool_decide_eq_false_2 _ Hn).
        destruct (decide (t2 = a)) as [->|Hne].
        + rewrite lookup_insert_eq, bool_decide_eq_true_2;
            [reflexivity|apply list_elem_of_here].
        + rewrite lookup_insert_ne by congruence.
          rewrite bool_decide_eq_false_2; [reflexivity|].
          rewrite elem_of_cons. tauto. }
    split; [|split; [|split]].
    + intros t2. apply Up. rewrite I1. reflexivity.
    + intros t2. apply Up. rewrite I2. reflexivity.
    + intros t2. apply Up. rewrite I3. reflexivity.
    + intros c. rewrite I4. cbn [route_maps_step crs_to_tiploc2].
      unfold first_with_crs. cbn [find].
      destruct (get_crs a) as [ca|] eqn:Ca.
      * destruct (crs_to_tiploc2 m0 !! c) as [t0|] eqn:M0.
        -- destruct (truthy (Some ca)
                     && negb (bool_decide (is_Some (crs_to_tiploc2 m0 !! ca))))
             eqn:G.
           ++ destruct (decide (ca = c)) as [->|Hne].
              ** apply andb_true_iff in G as [_ G].
                 apply negb_true_iff, bool_decide_eq_false in G.
                 exfalso. apply G. rewrite M0. eauto.
              ** rewrite lookup_insert_ne by exact Hne. now rewrite M0.
           ++ now rewrite M0.
        -- destruct (decide (ca = c)) as [->|Hne].
           ++ rewrite (bool_decide_eq_true_2 (Some c = Some c)) by reflexivity.
              rewrite M0. unfold truthy.
              replace (bool_decide (is_Some (@None string))) with false
                by (symmetry; apply bool_decide_eq_false; intros [? ?];
                    discriminate).
              cbn [negb]. rewrite andb_true_r.
              destruct (String.eqb c "") eqn:Ec; cbn [negb].
              ** rewrite M0. reflexivity.
              ** rewrite lookup_insert_eq. reflexivity.
           ++ rewrite (bool_decide_eq_false_2 (Some ca = Some c))
                by congruence.
              destruct (truthy (Some ca)
                        && negb (bool_decide
                                   (is_Some (crs_to_tiploc2 m0 !! ca)))).
              ** rewrite lookup_insert_ne by exact Hne. now rewrite M0.
              ** now rewrite M0.
      * rewrite (bool_decide_eq_false_2 (None = Some c)) by congruence.
        reflexivity.
Qed.

Lemma tiploc2_to_crs_spec (t2 : string) :
  TIPLOC2_TO_CRS get_crs get_name get_tiploc !! t2
  = (if bool_decide (t2 ∈ TIPLOC2_ROUTE) then Some (get_crs t2) else None).
Proof.
  destruct (route_maps_loop_spec TIPLOC2_ROUTE (mk_route_dicts ∅ ∅ ∅ ∅))
    as (I1 & _).
  cbv zeta in I1.
  unfold TIPLOC2_TO_CRS, route_maps, route_crss, route_names, route_tiplocs.
  cbv zeta. rewrite I1. cbn [tiploc2_to_crs].
  rewrite lookup_empty. reflexivity.
Qed.

Lemma crs_to_tiploc2_spec (c : string) :
  CRS_TO_TIPLOC2 get_crs get_name get_tiploc !! c
  = (if String.eqb c "" then None
     else first_with_crs get_crs c TIPLOC2_ROUTE).
Proof.
  destruct (route_maps_loop_spec TIPLOC2_ROUTE (mk_route_dicts ∅ ∅ ∅ ∅))
    as (_ & _ & _ & I4).
  cbv zeta in I4.
  unfold CRS_TO_TIPLOC2, route_maps, route_crss, route_names, route_tiplocs.
  cbv zeta. rewrite I4. cbn [crs_to_tiploc2].
  rewrite lookup_empty. reflexivity.
Qed.

Lemma route_station_nonempty (t2 : string) : t2 ∈ TIPLOC2_ROUTE -> t2 <> "".
Proof.
  intros Hin ->.
  assert (N : forallb (fun t => negb (String.eqb t "")) TIPLOC2_ROUTE
              = true) by (vm_compute; reflexivity).
  rewrite forallb_forall in N.
  specialize (N "" (proj1 (list_elem_of_In _ _) Hin)). discriminate.
Qed.

Lemma crs_to_tiploc2_inv (c t2 : string) :
  CRS_TO_TIPLOC2 get_crs get_name get_tiploc !! c = Some t2 ->
  t2 ∈ TIPLOC2_ROUTE /\ get_crs t2 = Some c /\ t2 <> "" /\ c <> "".
Proof.
  rewrite crs_to_tiploc2_spec. intros H.
  destruct (String.eqb c "") eqn:Ec; [discriminate|].
  unfold first_with_crs in H. apply find_some in H as [Hin Hc].
  apply bool_decide_eq_true in Hc. apply list_elem_of_In in Hin.
  split; [exact Hin|]. split; [exact Hc|]. split.
  - now apply route_station_nonempty.
  - intros ->. discriminate.
Qed.

(** X25.  What the route dicts hold, for any station table: TIPLOC2_TO_CRS
    has exactly the route's stations as keys, each with the CRS the table
    gives it; CRS_TO_TIPLOC2 maps a non-empty CRS to the first station of the
    route, in journey order, that has this CRS, and has no entry for the
    empty string.  Going from a CRS to its station and back gives the CRS
    again. *)
Theorem route_maps_first_occurrence (c t2 : string) :
  TIPLOC2_TO_CRS get_crs get_name get_tiploc !! t2
  = (if bool_decide (t2 ∈ TIPLOC2_ROUTE) then Some (get_crs t2) else None)
  /\ CRS_TO_TIPLOC2 get_crs get_name get_tiploc !! c
     = (if String.eqb c "" then None
        else first_with_crs get_crs c TIPLOC2_ROUTE)
  /\ (CRS_TO_TIPLOC2 get_crs get_name get_tiploc !! c = Some t2 ->
      TIPLOC2_TO_CRS get_crs get_name get_tiploc !! t2 = Some (Some c)
      /\ t2 ∈ TIPLOC2_ROUTE /\ t2 <> "" /\ c <> "").
Proof.
  split; [apply tiploc2_to_crs_spec|]. split; [apply crs_to_tiploc2_spec|].
  intros H. apply crs_to_tiploc2_inv in H as (Hin & Hc & N2 & Nc).
  rewrite tiploc2_to_crs_spec, bool_decide_eq_true_2 by exact Hin.
  rewrite Hc. repeat split; assumption.
Qed.

End RouteMapsFacts.

(** ** The HSP parser *)

Lemma parser_clean_str_spec (v : Hsp.pyval) (s : string) :
  Hsp._clean_str v = Some s -> s <> "" /\ Py.strip s = s.
Proof.
  assert (K : forall t, (if String.eqb (Py.strip t) "" then None
                         else Some (Py.strip t)) = Some s ->
                        s <> "" /\ Py.strip s = s).
  { intros t H. destruct (String.eqb (Py.strip t) "") eqn:E; [discriminate|].
    inversion H; subst s. split.
    - intros E0. rewrite E0 in E. discriminate.
    - apply strip_idem. }
  destruct v; simpl; [discriminate|apply K|apply K].
Qed.

Lemma truthy_Some_ne (s : string) : s <> "" -> truthy (Some s) = true.
Proof.
  intros H. simpl. destruct (String.eqb s "") eqn:E; [|reflexivity].
  apply String.eqb_eq in E. contradiction.
Qed.

Ltac item_get :=
  unfold dict_get;
  repeat (rewrite lookup_insert_ne by (intro; discriminate));
  rewrite ?lookup_insert_eq.

Section ParserFacts.

Variable M : gmap string string.
Variable CRSS : list (option string).

Lemma make_item_fields (base : row) (loc : gmap string Hsp.pyval)
    (tpl : string) :
  let item := Hsp.make_item M base loc tpl in
  dict_get item "tpl" = Some tpl
  /\ dict_get item "hsp_location" = Some tpl
  /\ dict_get item "pta" = Hsp._clean_str (Hsp.pget loc "gbtt_pta")
  /\ dict_get item "ptd" = Hsp._clean_str (Hsp.pget loc "gbtt_ptd")
  /\ dict_get item "ata" = Hsp._clean_str (Hsp.pget loc "actual_ta")
  /\ dict_get item "atd" = Hsp._clean_str (Hsp.pget loc "actual_td")
  /\ dict_get item "tiploc2"
     = (match M !! tpl with
        | Some t2 => if String.eqb t2 "" then dict_get base "tiploc2"
                     else Some t2
        | None => dict_get base "tiploc2"
        end)
  /\ (forall k, k ∈ ["rid"; "ssd"; "toc_code"; "hsp_tpls"] ->
      dict_get item k = dict_get base k).
Proof.
  cbv zeta. unfold Hsp.make_item, Hsp._pick_time_hhmm. cbv zeta.
  destruct (M !! tpl) as [t2|] eqn:E; cbn [truthy];
    [destruct (String.eqb t2 "") eqn:E2; cbn [negb]|];
    (repeat split; [item_get; reflexivity ..|]);
    intros k Hk; rewrite !elem_of_cons, elem_of_nil in Hk;
    destruct Hk as [->|[->|[->|[->|[]]]]]; item_get; reflexivity.
Qed.

Lemma out_loop_tpls (base : row) (j : Z) (locs : list Hsp.location) :
  map (fun r => dict_get (hsp_fields r) "tpl") (Hsp.out_loop M base j locs)
  = map Some (omap location_crs locs).
Proof.
  unfold Hsp.out_loop.
  induction locs as [|loc locs IH]; [reflexivity|].
  cbn [omap list_omap]. unfold location_crs at 1.
  destruct loc as [d|]; [|exact IH].
  destruct (Hsp._clean_str (Hsp.pget d "location")) as [tpl|] eqn:C;
    [|exact IH].
  destruct (parser_clean_str_spec _ _ C) as [Ne _].
  rewrite (truthy_Some_ne _ Ne). cbn [map hsp_fields].
  destruct (make_item_fields base d tpl) as (T & _).
  cbv zeta in T. rewrite T. f_equal. exact IH.
Qed.

Lemma out_loop_elem (base : row) (j : Z) (locs : list Hsp.location)
    (r : hsp_row) :
  r ∈ Hsp.out_loop M base j locs ->
  exists d tpl,
    Hsp.LocDict d ∈ locs
    /\ Hsp._clean_str (Hsp.pget d "location") = Some tpl
    /\ r = mk_hsp_row (Hsp.make_item M base d tpl) (Some j).
Proof.
  unfold Hsp.out_loop. rewrite list_elem_of_omap.
  intros (loc & Hin & H). destruct loc as [d|]; [|discriminate].
  destruct (Hsp._clean_str (Hsp.pget d "location")) as [tpl|] eqn:C;
    [|discriminate].
  destruct (truthy (Some tpl)); [|discriminate].
  inversion H; subst r. exists d, tpl. repeat split; [exact Hin|exact C].
Qed.

Lemma seen_crs_loop_spec (locs : list Hsp.location) :
  forall (seen : gset string) (c : string),
    c ∈ Hsp.seen_crs_loop locs seen
    <-> c ∈ seen \/ c ∈ omap location_crs locs.
Proof.
  unfold Hsp.seen_crs_loop.
  induction locs as [|loc locs IH]; intros seen c.
  - simpl. rewrite elem_of_nil. tauto.
  - cbn [fold_left omap list_omap]. rewrite IH. clear IH.
    unfold location_crs at 2. destruct loc as [d|]; [|tauto].
    destruct (Hsp._clean_str (Hsp.pget d "location")) as [tpl|] eqn:C;
      [|tauto].
    destruct (parser_clean_str_spec _ _ C) as [Ne _].
    rewrite (truthy_Some_ne _ Ne).
    rewrite elem_of_union, elem_of_singleton, elem_of_cons. tauto.
Qed.

Lemma route_crs_set_spec (c : string) :
  c ∈ Hsp._route_crs_set CRSS
  <-> Some c ∈ CRSS /\ Py.strip c <> "".
Proof.
  unfold Hsp._route_crs_set.
  rewrite elem_of_list_to_set, list_elem_of_omap. split.
  - intros ([s|] & Hin & H); [|discriminate].
    destruct (String.eqb (Py.strip s) "") eqn:E; [discriminate|].
    inversion H; subst s. split; [exact Hin|].
    intros E0. rewrite E0 in E. discriminate.
  - intros [Hin Ne]. exists (Some c). split; [exact Hin|].
    destruct (String.eqb (Py.strip c) "") eqn:E; [|reflexivity].
    apply String.eqb_eq in E. contradiction.
Qed.

Lemma extract_service_locations_tpls (payload : gmap string Hsp.sad_value)
    (sad : gmap string Hsp.pyval) (locs : list Hsp.location) :
  payload !! "serviceAttributesDetails"
  = Some (Hsp.SadDict sad (Hsp.LocsList locs)) ->
  Hsp._clean_str (Hsp.pget sad "rid") <> None ->
  map (fun r => dict_get (hsp_fields r) "tpl")
    (Hsp.extract_service_locations M CRSS payload)
  = map Some (omap location_crs locs).
Proof.
  intros P R. unfold Hsp.extract_service_locations. rewrite P.
  destruct (Hsp._clean_str (Hsp.pget sad "rid")) as [rid|] eqn:Er;
    [|contradiction].
  destruct (parser_clean_str_spec _ _ Er) as [Rne _].
  rewrite (truthy_Some_ne _ Rne). cbn [negb]. cbv zeta.
  apply out_loop_tpls.
Qed.

Lemma parsed_row_tpl (payload : gmap string Hsp.sad_value) (r : hsp_row) :
  r ∈ Hsp.extract_service_locations M CRSS payload ->
  exists tpl,
    tpl <> "" /\ Py.strip tpl = tpl
    /\ dict_get (hsp_fields r) "tpl" = Some tpl
    /\ (hsp_is_main_journey r = Some 0 \/ hsp_is_main_journey r = Some 1).
Proof.
  unfold Hsp.extract_service_locations.
  destruct (payload !! "serviceAttributesDetails") as [[sad locations|]|];
    try (intros H; apply elem_of_nil in H; destruct H).
  destruct (negb (truthy (Hsp._clean_str (Hsp.pget sad "rid"))));
    [intros H; apply elem_of_nil in H; destruct H|].
  cbv zeta.
  destruct locations as [locs| |];
    [|intros H; apply elem_of_nil in H; destruct H ..].
  intros H. apply out_loop_elem in H as (d & tpl & _ & C & ->).
  destruct (parser_clean_str_spec _ _ C) as [Tne Ts].
  exists tpl. split; [exact Tne|]. split; [exact Ts|]. split.
  - cbn [hsp_fields].
    match goal with
    | |- context [Hsp.make_item M ?b d tpl] =>
        exact (proj1 (make_item_fields b d tpl))
    end.
  - cbn [hsp_is_main_journey].
    match goal with
    | |- context [if ?b then 1 else 0] => destruct b
    end; [right|left]; reflexivity.
Qed.

(** X26.  Every row the parser returns comes from one dict of the payload's
    locations list whose location code is not blank, and carries that code,
    stripped, as tpl and hsp_location, the four cleaned HSP times, the
    service's cleaned rid (never empty), date and operator, and a
    main-journey flag that is 0 or 1.  Its tiploc2 entry is the route station
    of the code when CRS_TO_TIPLOC2 has one, and is absent otherwise. *)
Theorem extract_service_locations_row (payload : gmap string Hsp.sad_value)
    (r : hsp_row) :
  r ∈ Hsp.extract_service_locations M CRSS payload ->
  exists sad locs d rid tpl,
    payload !! "serviceAttributesDetails"
    = Some (Hsp.SadDict sad (Hsp.LocsList locs))
    /\ Hsp.LocDict d ∈ locs
    /\ Hsp._clean_str (Hsp.pget sad "rid") = Some rid /\ rid <> ""
    /\ Hsp._clean_str (Hsp.pget d "location") = Some tpl
    /\ tpl <> "" /\ Py.strip tpl = tpl
    /\ dict_get (hsp_fields r) "rid" = Some rid
    /\ dict_get (hsp_fields r) "ssd"
       = Hsp._clean_str (Hsp.pget sad "date_of_service")
    /\ dict_get (hsp_fields r) "toc_code"
       = Hsp._clean_str (Hsp.pget sad "toc_code")
    /\ dict_get (hsp_fields r) "tpl" = Some tpl
    /\ dict_get (hsp_fields r) "hsp_location" = Some tpl
    /\ dict_get (hsp_fields r) "pta" = Hsp._clean_str (Hsp.pget d "gbtt_pta")
    /\ dict_get (hsp_fields r) "ptd" = Hsp._clean_str (Hsp.pget d "gbtt_ptd")
    /\ dict_get (hsp_fields r) "ata" = Hsp._clean_str (Hsp.pget d "actual_ta")
    /\ dict_get (hsp_fields r) "atd" = Hsp._clean_str (Hsp.pget d "actual_td")
    /\ dict_get (hsp_fields r) "tiploc2"
       = (match M !! tpl with
          | Some t2 => if String.eqb t2 "" then None else Some t2
          | None => None
          end)
    /\ (hsp_is_main_journey r = Some 0 \/ hsp_is_main_journey r = Some 1).
Proof.
  unfold Hsp.extract_service_locations.
  destruct (payload !! "serviceAttributesDetails") as [[sad locations|]|]
    eqn:P; try (intros H; apply elem_of_nil in H; destruct H).
  destruct (Hsp._clean_str (Hsp.pget sad "rid")) as [rid|] eqn:R;
    [|intros H; apply elem_of_nil in H; destruct H].
  destruct (parser_clean_str_spec _ _ R) as [Rne _].
  rewrite (truthy_Some_ne _ Rne). cbn [negb]. cbv zeta.
  destruct locations as [locs| |];
    [|intros H; apply elem_of_nil in H; destruct H ..].
  intros H. apply out_loop_elem in H as (d & tpl & Hin & C & ->).
  destruct (parser_clean_str_spec _ _ C) as [Tne Ts].
  exists sad, locs, d, rid, tpl.
  match goal with
  | |- context [Hsp.make_item M ?b d tpl] =>
      destruct (make_item_fields b d tpl)
        as (F1 & F2 & F3 & F4 & F5 & F6 & F7 & F8);
      cbv zeta in F1, F2, F3, F4, F5, F6, F7, F8
  end.
  cbn [hsp_fields hsp_is_main_journey].
  split; [reflexivity|]. split; [exact Hin|]. split; [exact R|].
  split; [exact Rne|]. split; [exact C|]. split; [exact Tne|].
  split; [exact Ts|].
  split; [rewrite F8 by (rewrite !elem_of_cons; tauto); reflexivity|].
  split; [rewrite F8 by (rewrite !elem_of_cons; tauto); reflexivity|].
  split; [rewrite F8 by (rewrite !elem_of_cons; tauto); reflexivity|].
  split; [exact F1|]. split; [exact F2|]. split; [exact F3|].
  split; [exact F4|]. split; [exact F5|]. split; [exact F6|].
  split.
  - rewrite F7. destruct (M !! tpl) as [t2|]; [|reflexivity].
    destruct (String.eqb t2 ""); reflexivity.
  - match goal with
    | |- context [if ?b then 1 else 0] => destruct b
    end; [right|left]; reflexivity.
Qed.

(** X27.  For a payload whose service details are a dict with a non-blank
    rid and a locations list, the parser returns one row per dict of the list
    that has a non-blank location code, in the order of the list; every row
    carries the same main-journey flag, which is 1 exactly when the route has
    at least one CRS code and each of them is the tpl of some returned row. *)
Theorem extract_service_locations_main_journey
    (payload : gmap string Hsp.sad_value) (sad : gmap string Hsp.pyval)
    (locs : list Hsp.location) :
  payload !! "serviceAttributesDetails"
  = Some (Hsp.SadDict sad (Hsp.LocsList locs)) ->
  Hsp._clean_str (Hsp.pget sad "rid") <> None ->
  let out := Hsp.extract_service_locations M CRSS payload in
  map (fun r => dict_get (hsp_fields r) "tpl") out
  = map Some (omap location_crs locs)
  /\ exists j : Z,
       Forall (fun r => hsp_is_main_journey r = Some j) out
       /\ (j = 1
           <-> (exists c, Some c ∈ CRSS /\ Py.strip c <> "")
               /\ forall c, Some c ∈ CRSS -> Py.strip c <> "" ->
                    exists r, r ∈ out
                              /\ dict_get (hsp_fields r) "tpl" = Some c)
       /\ (j = 0 \/ j = 1).
Proof.
  intros P R. cbv zeta. unfold Hsp.extract_service_locations. rewrite P.
  destruct (Hsp._clean_str (Hsp.pget sad "rid")) as [rid|] eqn:Er;
    [|contradiction].
  destruct (parser_clean_str_spec _ _ Er) as [Rne _].
  rewrite (truthy_Some_ne _ Rne). cbn [negb]. cbv zeta.
  split; [apply out_loop_tpls|].
  match goal with
  | |- context [Hsp.out_loop M ?b ?j locs] => set (base := b); set (jj := j)
  end.
  exists jj. split; [|split].
  - apply Forall_forall. intros r Hr.
    apply out_loop_elem in Hr as (d & tpl & _ & _ & ->). reflexivity.
  - assert (Seen : forall c, c ∈ Hsp.seen_crs_loop locs ∅
                            <-> exists r, r ∈ Hsp.out_loop M base jj locs
                                 /\ dict_get (hsp_fields r) "tpl" = Some c).
    { intros c. rewrite seen_crs_loop_spec. rewrite elem_of_empty.
      pose proof (out_loop_tpls base jj locs) as T. split.
      - intros [[]|Hc].
        assert (Hs : Some c ∈ map Some (omap location_crs locs))
          by (apply list_elem_of_fmap; eauto).
        rewrite <- T in Hs. apply list_elem_of_fmap in Hs as (r & E & Hr).
        exists r. split; [exact Hr|now symmetry].
      - intros (r & Hr & E). right.
        assert (Hs : Some c ∈ map (fun r => dict_get (hsp_fields r) "tpl")
                       (Hsp.out_loop M base jj locs))
          by (apply list_elem_of_fmap; exists r; split; [now symmetry|exact Hr]).
        rewrite T in Hs. apply list_elem_of_fmap in Hs as (c' & E' & Hc').
        inversion E'; subst c'. exact Hc'. }
    unfold jj at 1.
    destruct (negb (bool_decide (Hsp._route_crs_set CRSS = ∅))
              && bool_decide (Hsp._route_crs_set CRSS
                              ⊆ Hsp.seen_crs_loop locs ∅)) eqn:G.
    + split; [intros _|reflexivity].
      apply andb_true_iff in G as [G1 G2].
      apply negb_true_iff, bool_decide_eq_false in G1.
      apply bool_decide_eq_true in G2. split.
      * apply set_choose_L in G1 as [c Hc].
        exists c. now apply route_crs_set_spec.
      * intros c Hin Hs. apply Seen. apply G2.
        apply route_crs_set_spec. split; assumption.
    + split; [discriminate|]. intros [[c0 [Hc0 Hs0]] All]. exfalso.
      apply andb_false_iff in G as [G|G].
      * apply negb_false_iff, bool_decide_eq_true in G.
        assert (Hin : c0 ∈ Hsp._route_crs_set CRSS)
          by (apply route_crs_set_spec; split; assumption).
        rewrite G in Hin. now apply elem_of_empty in Hin.
      * apply bool_decide_eq_false in G. apply G.
        intros c Hc. apply route_crs_set_spec in Hc as [Hin Hs].
        apply Seen. now apply All.
  - unfold jj. match goal with
    | |- context [if ?b then 1 else 0] => destruct b
    end; [right|left]; reflexivity.
Qed.

(** X28.  The parser returns nothing unless the payload's service details are
    a dict whose rid is not blank and whose locations entry is a list with at
    least one dict that has a non-blank location code. *)
Theorem extract_service_locations_empty
    (payload : gmap string Hsp.sad_value) :
  Hsp.extract_service_locations M CRSS payload = []
  <-> ~ exists sad locs,
          payload !! "serviceAttributesDetails"
          = Some (Hsp.SadDict sad (Hsp.LocsList locs))
          /\ Hsp._clean_str (Hsp.pget sad "rid") <> None
          /\ omap location_crs locs <> [].
Proof.
  split.
  - intros E (sad & locs & P & R & L).
    pose proof (extract_service_locations_tpls payload sad locs P R) as T.
    rewrite E in T. simpl in T. destruct (omap location_crs locs);
      [contradiction|discriminate].
  - intros N.
    destruct (Hsp.extract_service_locations M CRSS payload) as [|r out] eqn:E;
      [reflexivity|]. exfalso. apply N.
    assert (Hr : r ∈ Hsp.extract_service_locations M CRSS payload)
      by (rewrite E; apply list_elem_of_here).
    unfold Hsp.extract_service_locations in Hr.
    destruct (payload !! "serviceAttributesDetails") as [[sad locations|]|]
      eqn:P; try (apply elem_of_nil in Hr; destruct Hr).
    destruct (Hsp._clean_str (Hsp.pget sad "rid")) as [rid|] eqn:R;
      [|apply elem_of_nil in Hr; destruct Hr].
    destruct (parser_clean_str_spec _ _ R) as [Rne _].
    rewrite (truthy_Some_ne _ Rne) in Hr. cbn [negb] in Hr. cbv zeta in Hr.
    destruct locations as [locs| |];
      [|apply elem_of_nil in Hr; destruct Hr ..].
    exists sad, locs. split; [reflexivity|]. split; [congruence|].
    apply out_loop_elem in Hr as (d & tpl & Hin & C & _).
    intros E0.
    assert (Hc : tpl ∈ omap location_crs locs)
      by (apply list_elem_of_omap; exists (Hsp.LocDict d);
          split; [exact Hin|exact C]).
    rewrite E0 in Hc. now apply elem_of_nil in Hc.
Qed.

End ParserFacts.

Lemma sample_hsp_rows_nonempty : sample_hsp_rows <> [].
Proof. vm_compute. discriminate. Qed.

Lemma extract_service_locations_row_witness :
  sample_hsp_rows <> []
  /\ Forall (fun r => exists tpl,
               dict_get (hsp_fields r) "tpl" = Some tpl
               /\ Py.strip tpl = tpl /\ tpl <> "")
       sample_hsp_rows.
Proof.
  split; [exact sample_hsp_rows_nonempty|].
  apply Forall_forall. intros r Hr.
  destruct (extract_service_locations_row sample_crs_to_tiploc2
              (CRSS sample_get_crs) sample_payload r Hr)
    as (sad & locs & d & rid & tpl & _ & _ & _ & _ & _ & Tne & Ts & _ & _ & _
        & Ft & _).
  exists tpl. split; [exact Ft|]. split; [exact Ts|exact Tne].
Defined.

Lemma extract_service_locations_main_journey_witness :
  map (fun r => dict_get (hsp_fields r) "tpl") sample_hsp_rows
  = [Some "WEY"; Some "UPW"].
Proof.
  destruct (extract_service_locations_main_journey sample_crs_to_tiploc2
              (CRSS sample_get_crs) sample_payload
              (list_to_map [ ("rid", Hsp.PStr "R1");
                             ("date_of_service", Hsp.PStr "2025-03-01");
                             ("toc_code", Hsp.PStr "SW") ])
              [ Hsp.LocDict (list_to_map
                  [ ("location", Hsp.PStr "WEY"); ("gbtt_ptd", Hsp.PStr "1005");
                    ("gbtt_pta", Hsp.PStr ""); ("actual_td", Hsp.PStr "1006");
                    ("actual_ta", Hsp.PStr "") ]);
                Hsp.LocOther;
                Hsp.LocDict (list_to_map
                  [ ("location", Hsp.PStr " UPW "); ("gbtt_ptd", Hsp.PStr "1013");
                    ("gbtt_pta", Hsp.PStr "1012"); ("actual_td", Hsp.PStr "1015");
                    ("actual_ta", Hsp.PStr "1014") ]) ])
    as [T _].
  - reflexivity.
  - vm_compute. discriminate.
  - unfold sample_hsp_rows. rewrite T. vm_compute. reflexivity.
Defined.

(** ** The HSP index and the arrival record *)

Lemma truthy_Some_inv (s : string) : truthy (Some s) = true -> s <> "".
Proof. simpl. intros H ->. discriminate. Qed.

Lemma build_hsp_index_fold (M : gmap string string) (t2 : string)
    (l : list hsp_row) :
  forall acc : gmap string hsp_row,
    fold_left
      (fun out r =>
         let crs := _clean_str (dict_get (hsp_fields r) "tpl") in
         let t2 := _crs_to_tiploc2 M crs in
         match t2 with
         | Some k => if truthy t2 then <[k := r]> out else out
         | None => out
         end) l acc !! t2
    = if String.eqb t2 "" then acc !! t2
      else match last (rows_filed_under M t2 l) with
           | Some r => Some r
           | None => acc !! t2
           end.
Proof.
  induction l as [|x l IH]; intros acc.
  - simpl. destruct (String.eqb t2 ""); reflexivity.
  - cbn [fold_left]. rewrite IH. clear IH. cbv zeta.
    unfold rows_filed_under. cbn [List.filter].
    fold (rows_filed_under M t2 l). fold (row_tiploc2 M x).
    destruct (decide (row_tiploc2 M x = Some t2)) as [Hk|Hk].
    + rewrite (bool_decide_eq_true_2 _ Hk). rewrite Hk.
      destruct (String.eqb t2 "") eqn:E0.
      * simpl. rewrite E0. reflexivity.
      * replace (truthy (Some t2)) with true by (simpl; now rewrite E0).
        rewrite last_cons, lookup_insert_eq.
        destruct (last _); reflexivity.
    + rewrite (bool_decide_eq_false_2 _ Hk).
      destruct (row_tiploc2 M x) as [k|]; [|reflexivity].
      destruct (truthy (Some k)); [|reflexivity].
      rewrite lookup_insert_ne by congruence. reflexivity.
Qed.

Lemma build_hsp_index_spec (M : gmap string string) (rows : list hsp_row)
    (t2 : string) :
  build_hsp_index_by_tiploc2 M rows !! t2
  = if String.eqb t2 "" then None else last (rows_filed_under M t2 rows).
Proof.
  unfold build_hsp_index_by_tiploc2. rewrite build_hsp_index_fold.
  rewrite lookup_empty. destruct (String.eqb t2 ""); [reflexivity|].
  destruct (last _); reflexivity.
Qed.

Lemma build_hsp_index_entry (M : gmap string string) (rows : list hsp_row)
    (t2 : string) (r : hsp_row) :
  build_hsp_index_by_tiploc2 M rows !! t2 = Some r ->
  r ∈ rows /\ row_tiploc2 M r = Some t2 /\ t2 <> "".
Proof.
  rewrite build_hsp_index_spec.
  destruct (String.eqb t2 "") eqn:E0; [discriminate|]. intros L.
  apply last_Some_elem_of in L. unfold rows_filed_under in L.
  apply list_elem_of_In, filter_In in L as [Hin Hb].
  apply bool_decide_eq_true in Hb. split; [now apply list_elem_of_In|].
  split; [exact Hb|]. intros ->. discriminate.
Qed.

(** X29.  The HSP index files each row under the route station of its
    cleaned tpl code and keeps, for a station, the last row filed under it;
    rows whose code is blank or unknown to CRS_TO_TIPLOC2 are left out, and
    so is any row that would be filed under the empty string. *)
Theorem build_hsp_index_last_wins (M : gmap string string)
    (hsp_rows : list hsp_row) (t2 : string) :
  build_hsp_index_by_tiploc2 M hsp_rows !! t2
  = (if String.eqb t2 "" then None
     else last (rows_filed_under M t2 hsp_rows))
  /\ (forall r, build_hsp_index_by_tiploc2 M hsp_rows !! t2 = Some r ->
        r ∈ hsp_rows
        /\ exists crs, _clean_str (dict_get (hsp_fields r) "tpl") = Some crs
                       /\ M !! crs = Some t2)
  /\ (forall r, r ∈ hsp_rows -> row_tiploc2 M r = Some t2 -> t2 <> "" ->
        is_Some (build_hsp_index_by_tiploc2 M hsp_rows !! t2)).
Proof.
  split; [apply build_hsp_index_spec|]. split.
  - intros r H. apply build_hsp_index_entry in H as (Hin & Hk & _).
    split; [exact Hin|]. unfold row_tiploc2, _crs_to_tiploc2 in Hk.
    destruct (_clean_str (dict_get (hsp_fields r) "tpl")) as [crs|];
      [|discriminate].
    destruct (negb (truthy (Some crs))); [discriminate|]. eauto.
  - intros r Hin Hk Ne. rewrite build_hsp_index_spec.
    destruct (String.eqb t2 "") eqn:E0;
      [apply String.eqb_eq in E0; contradiction|].
    assert (F : r ∈ rows_filed_under M t2 hsp_rows).
    { unfold rows_filed_under. apply list_elem_of_In, filter_In.
      split; [now apply list_elem_of_In|].
      now apply bool_decide_eq_true. }
    destruct (rows_filed_under M t2 hsp_rows) as [|a l] eqn:El using rev_ind.
    + now apply elem_of_nil in F.
    + rewrite last_snoc. eauto.
Qed.

Section Enrichment.

Variable get_crs get_name get_tiploc : string -> option string.

(** X30.  The enrichment chain from an HSP payload to an arrival record:
    whenever a record is built for a prediction row from the index of the
    parsed payload, the row's second station is a station of the route, the
    record's hsp_location_crs is the CRS that the station table gives for
    that station, its second is the cleaned station code, both arrival times
    are present, and its main-journey flag is 0 or 1. *)
Theorem arrival_record_station_matches (pr : pred_row)
    (payload : gmap string Hsp.sad_value) (tz : option tzinfo)
    (rec : record) :
  make_actual_arrival_record pr
    (build_hsp_index_by_tiploc2
       (CRS_TO_TIPLOC2 get_crs get_name get_tiploc)
       (Hsp.extract_service_locations
          (CRS_TO_TIPLOC2 get_crs get_name get_tiploc) (CRSS get_crs)
          payload))
    tz = Ok (Some rec) ->
  exists second_ crs planned_arr actual_arr,
    _clean_str (p_second pr) = Some second_
    /\ second_ ∈ TIPLOC2_ROUTE
    /\ get_crs second_ = Some crs
    /\ rec !! "second" = Some (SText second_)
    /\ rec !! "hsp_location_crs" = Some (SText crs)
    /\ rec !! "planned_arr" = Some (SText planned_arr)
    /\ rec !! "actual_arr" = Some (SText actual_arr)
    /\ contains_char ":" planned_arr = true
    /\ contains_char ":" actual_arr = true
    /\ (rec !! "is_main_journey" = Some (SInt 0)
        \/ rec !! "is_main_journey" = Some (SInt 1)).
Proof.
  set (M := CRS_TO_TIPLOC2 get_crs get_name get_tiploc).
  unfold make_actual_arrival_record. cbv zeta.
  destruct (_clean_str (p_rid pr)) as [r|]; [|discriminate].
  destruct (_clean_str (p_first pr)) as [f|]; [|discriminate].
  destruct (_clean_str (p_second pr)) as [s|] eqn:S2; [|discriminate].
  destruct (build_hsp_index_by_tiploc2 M _ !! s) as [hsp_loc|] eqn:I;
    [|discriminate].
  apply build_hsp_index_entry in I as (Hin & Hk & Ns).
  destruct (parsed_row_tpl M (CRSS get_crs) payload hsp_loc Hin)
    as (tpl & Tne & Ts & Ft & Fj).
  assert (Ct : _clean_str (dict_get (hsp_fields hsp_loc) "tpl") = Some tpl).
  { rewrite Ft. unfold _clean_str. rewrite Ts.
    destruct (String.eqb tpl "") eqn:E; [|reflexivity].
    apply String.eqb_eq in E. contradiction. }
  unfold row_tiploc2 in Hk. rewrite Ct in Hk. unfold _crs_to_tiploc2 in Hk.
  rewrite (truthy_Some_ne _ Tne) in Hk. cbn [negb] in Hk.
  apply crs_to_tiploc2_inv in Hk as (Hroute & Hcrs & _ & _).
  destruct (_hhmm_to_hh_colon_mm (dict_get (hsp_fields hsp_loc) "pta"))
    as [pa|] eqn:Pa; [|discriminate].
  destruct (_hhmm_to_hh_colon_mm (dict_get (hsp_fields hsp_loc) "ata"))
    as [aa|] eqn:Aa; [|simpl; rewrite orb_true_r; discriminate].
  destruct (negb (truthy (Some pa)) || negb (truthy (Some aa)));
    [discriminate|].
  destruct (compute_actual_arrival_delay_min _ _ _ _ _) as [dl|e];
    [|discriminate].
  cbv beta iota delta [mbind res_bind rbind].
  intros H. inversion H as [Hrec]. clear H Hrec.
  exists s, tpl, pa, aa.
  assert (Colon : forall v x, _hhmm_to_hh_colon_mm v = Some x ->
                              contains_char ":" x = true).
  { intros v x Hx. unfold _hhmm_to_hh_colon_mm in Hx.
    destruct (_clean_str v) as [s0|]; [|discriminate].
    destruct (contains_char ":" s0) eqn:K.
    - inversion Hx; subst. exact K.
    - destruct s0 as [|a0 [|b0 [|c0 [|d0 [|x0 y0]]]]]; try discriminate.
      destruct (Py.all_chars _ _); [|discriminate].
      inversion Hx; subst x. simpl.
      destruct (Ascii.eqb a0 ":"); [reflexivity|].
      destruct (Ascii.eqb b0 ":"); reflexivity. }
  split; [reflexivity|]. split; [exact Hroute|]. split; [exact Hcrs|].
  repeat match goal with
  | |- _ !! _ = Some _ /\ _ =>
      split; [repeat (rewrite lookup_insert_ne by (intro; discriminate));
              rewrite lookup_insert_eq, ?Ct; reflexivity|]
  end.
  split; [exact (Colon _ _ Pa)|]. split; [exact (Colon _ _ Aa)|].
  destruct Fj as [Fj|Fj]; rewrite Fj; cbn [default id]; [left|right];
    repeat (rewrite lookup_insert_ne by (intro; discriminate));
    rewrite lookup_insert_eq; reflexivity.
Qed.

End Enrichment.

Lemma sample_enriched_ok :
  make_actual_arrival_record (sample_pred_row (Some "10:05"))
    (build_hsp_index_by_tiploc2 sample_crs_to_tiploc2 sample_hsp_rows)
    (Some UTC) = Ok (Some sample_enriched_rec).
Proof.
  assert (B : is_some (res_value (make_actual_arrival_record
                (sample_pred_row (Some "10:05"))
                (build_hsp_index_by_tiploc2 sample_crs_to_tiploc2
                   sample_hsp_rows) (Some UTC))) = true)
    by (vm_compute; reflexivity).
  unfold sample_enriched_rec.
  destruct (make_actual_arrival_record _ _ _) as [[rec|]|e];
    [reflexivity|discriminate ..].
Qed.

Lemma arrival_record_station_matches_witness :
  make_actual_arrival_record (sample_pred_row (Some "10:05"))
    (build_hsp_index_by_tiploc2 sample_crs_to_tiploc2 sample_hsp_rows)
    (Some UTC) = Ok (Some sample_enriched_rec)
  /\ exists second_ crs,
       second_ ∈ TIPLOC2_ROUTE /\ sample_get_crs second_ = Some crs
       /\ sample_enriched_rec !! "second" = Some (SText second_)
       /\ sample_enriched_rec !! "hsp_location_crs" = Some (SText crs).
Proof.
  split; [exact sample_enriched_ok|].
  destruct (arrival_record_station_matches sample_get_crs (fun _ => None)
              (fun _ => None) (sample_pred_row (Some "10:05")) sample_payload
              (Some UTC) sample_enriched_rec sample_enriched_ok)
    as (s & crs & pa & aa & _ & Hin & Hc & Hs & Hr & _).
  exists s, crs. repeat split; assumption.
Defined.
